(** * digit: a shallow embedding of the documentation harvester

    The development follows [digit.py]: Python strings and the string
    methods the program calls, the parts of [urllib.parse] and
    [urllib.robotparser] (CPython 3.11) it goes through, then the
    program's own functions in the order of the source file, and finally
    the properties of the harvesting pipeline.

    Python [str] values are modelled by [string]; a character is a code
    point below 256, which covers every delimiter the program looks at. *)

From Stdlib Require Import Ascii String ZArith Lia DecimalString Sorted.
From Stdlib Require QArith.
From stdpp Require Import gmap strings list.

(** ** Python string methods *)

Module Py.

Definition code (c : ascii) : nat := nat_of_ascii c.

Definition len (s : string) : nat := String.length s.

(** [s[:n]] *)
Fixpoint take (n : nat) (s : string) : string :=
  match n, s with
  | S n', String c s' => String c (take n' s')
  | _, _ => ""
  end.

(** [s[n:]] *)
Fixpoint drop (n : nat) (s : string) : string :=
  match n, s with
  | S n', String _ s' => drop n' s'
  | _, _ => s
  end.

(** [s[:-n]] for a literal [n > 0] *)
Definition drop_last (n : nat) (s : string) : string :=
  take (len s - n) s.

(** [s.find(c)] for a one-character [c]; [None] stands for [-1] *)
Fixpoint find (c : ascii) (s : string) : option nat :=
  match s with
  | "" => None
  | String a s' =>
      if Ascii.eqb a c then Some 0 else
        match find c s' with Some i => Some (S i) | None => None end
  end.

(** [c in s] for a one-character [c] *)
Fixpoint has (c : ascii) (s : string) : bool :=
  match s with
  | "" => false
  | String a s' => Ascii.eqb a c || has c s'
  end.

(** [s.startswith(p)] *)
Fixpoint startswith (p s : string) : bool :=
  match p, s with
  | "", _ => true
  | String a p', String b s' => Ascii.eqb a b && startswith p' s'
  | String _ _, "" => false
  end.

(** [s.endswith(p)] *)
Definition endswith (p s : string) : bool :=
  (len p <=? len s) && String.eqb (drop (len s - len p) s) p.

(** [sub in s] *)
Fixpoint contains (sub s : string) : bool :=
  startswith sub s ||
  match s with
  | "" => false
  | String _ s' => contains sub s'
  end.

Fixpoint map (f : ascii -> ascii) (s : string) : string :=
  match s with
  | "" => ""
  | String a s' => String (f a) (map f s')
  end.

(** the characters of [s] that satisfy [keep], in order *)
Fixpoint filter (keep : ascii -> bool) (s : string) : string :=
  match s with
  | "" => ""
  | String a s' => if keep a then String a (filter keep s') else filter keep s'
  end.

Fixpoint all (p : ascii -> bool) (s : string) : bool :=
  match s with
  | "" => true
  | String a s' => p a && all p s'
  end.

Fixpoint rev_onto (s acc : string) : string :=
  match s with
  | "" => acc
  | String a s' => rev_onto s' (String a acc)
  end.

Definition rev (s : string) : string := rev_onto s "".

(** [s.lstrip(chars)], [s.rstrip(chars)], [s.strip(chars)] with the
    characters given as a predicate *)
Fixpoint lstrip (p : ascii -> bool) (s : string) : string :=
  match s with
  | "" => ""
  | String a s' => if p a then lstrip p s' else s
  end.

Definition rstrip (p : ascii -> bool) (s : string) : string :=
  rev (lstrip p (rev s)).

Definition strip (p : ascii -> bool) (s : string) : string :=
  rstrip p (lstrip p s).

Definition eqc (c : ascii) : ascii -> bool := Ascii.eqb c.

(** [str.isspace] on one character: the white space below 256 *)
Definition isspace (c : ascii) : bool :=
  let n := code c in
  ((9 <=? n) && (n <=? 13)) || ((28 <=? n) && (n <=? 32))
  || (n =? 133) || (n =? 160).

Definition isdigit (c : ascii) : bool :=
  let n := code c in (48 <=? n) && (n <=? 57).

Definition isupper_ascii (c : ascii) : bool :=
  let n := code c in (65 <=? n) && (n <=? 90).

Definition islower_ascii (c : ascii) : bool :=
  let n := code c in (97 <=? n) && (n <=? 122).

(** [c.isascii() and c.isalpha()] *)
Definition isalpha_ascii (c : ascii) : bool :=
  isupper_ascii c || islower_ascii c.

(** the characters [str.lower] changes: A-Z and the capital letters of
    the upper half (U+00C0..U+00DE without the multiplication sign) *)
Definition isupper (c : ascii) : bool :=
  let n := code c in
  isupper_ascii c || ((192 <=? n) && (n <=? 222) && negb (n =? 215)).

Definition lower_char (c : ascii) : ascii :=
  if isupper c then ascii_of_nat (code c + 32) else c.

(** [s.lower()] *)
Definition lower (s : string) : string := map lower_char s.

(** [s.split(c)] for a one-character separator *)
Fixpoint split (c : ascii) (s : string) : list string :=
  match s with
  | "" => [""]
  | String a s' =>
      if Ascii.eqb a c then "" :: split c s'
      else match split c s' with
           | h :: t => String a h :: t
           | [] => [String a ""]
           end
  end.

(** [sep.join(l)] *)
Fixpoint join (sep : string) (l : list string) : string :=
  match l with
  | [] => ""
  | [x] => x
  | x :: l' => x +:+ sep +:+ join sep l'
  end.

(** [s.split(c, 1)] when [c] occurs in [s]: the text before the first
    [c] and the text after it *)
Definition cut (c : ascii) (s : string) : option (string * string) :=
  match find c s with
  | Some i => Some (take i s, drop (S i) s)
  | None => None
  end.

(** [s.replace(old, new)]: every non-overlapping occurrence, leftmost
    first.  [skip] counts the characters of a replaced occurrence that
    are still to be passed over. *)
Fixpoint replace_from (old new s : string) (skip : nat) : string :=
  match s with
  | "" => ""
  | String a s' =>
      match skip with
      | S k => replace_from old new s' k
      | 0 =>
          if startswith old s
          then new +:+ replace_from old new s' (len old - 1)
          else String a (replace_from old new s' 0)
      end
  end.

Definition replace (old new s : string) : string :=
  match old with
  | "" => new +:+ String.concat "" (List.map (fun c => String c new) (list_ascii_of_string s))
  | _ => replace_from old new s 0
  end.

(** [str(n)] for an [int] *)
Definition str_of_Z (z : Z) : string := NilZero.string_of_int (Z.to_int z).

End Py.

(** ** Regular expressions ([re])

    A backtracking matcher with Python's priorities: the first
    alternative first, greedy repetition longest first, lazy repetition
    shortest first.  A matching state is the character before the current
    position, the text still to read and the groups captured so far. *)

Module Re.

Inductive t :=
| Eps                                   (* the empty pattern *)
| Chr (p : ascii -> bool)               (* one character of a class *)
| Seq (a b : t)
| Alt (a b : t)                         (* a|b *)
| Star (greedy : bool) (a : t)          (* a* and a*? *)
| Group (n : nat) (a : t)               (* the n-th capturing group *)
| Bol (multiline : bool).               (* ^ *)

Record state := {
  prev : option ascii;
  rest : string;
  groups : list (nat * string) }.

Definition last_char (dflt : option ascii) (s : string) : option ascii :=
  match Py.rev s with
  | String a _ => Some a
  | "" => dflt
  end.

Section Matcher.
Context {R : Type}.

Fixpoint run (r : t) (st : state) (k : state -> option R) : option R :=
  match r with
  | Eps => k st
  | Chr p =>
      match rest st with
      | String a s' =>
          if p a
          then k {| prev := Some a; rest := s'; groups := groups st |}
          else None
      | "" => None
      end
  | Seq a b => run a st (fun st' => run b st' k)
  | Alt a b =>
      match run a st k with
      | Some r => Some r
      | None => run b st k
      end
  | Star greedy a =>
      (fix loop (fuel : nat) (st : state) : option R :=
         match fuel with
         | 0 => k st
         | S fuel' =>
             let more :=
               run a st (fun st' =>
                 if (Py.len (rest st') <? Py.len (rest st))%nat
                 then loop fuel' st' else None) in
             if greedy then
               match more with Some r => Some r | None => k st end
             else
               match k st with Some r => Some r | None => more end
         end) (Py.len (rest st)) st
  | Group n a =>
      run a st (fun st' =>
        let text := Py.take (Py.len (rest st) - Py.len (rest st')) (rest st) in
        k {| prev := prev st'; rest := rest st';
             groups := (n, text) :: groups st' |})
  | Bol multiline =>
      match prev st with
      | None => k st
      | Some c =>
          if multiline && (Py.code c =? 10)%nat then k st else None
      end
  end.
End Matcher.

(** derived forms *)
Definition plus (greedy : bool) (a : t) : t := Seq a (Star greedy a).
Definition opt (a : t) : t := Alt a Eps.
Fixpoint times (n : nat) (a : t) : t :=
  match n with 0 => Eps | S n' => Seq a (times n' a) end.
(** [a{n,}] *)
Definition at_least (n : nat) (a : t) : t := Seq (times n a) (Star true a).
(** [a{0,n}] *)
Fixpoint up_to (n : nat) (a : t) : t :=
  match n with 0 => Eps | S n' => opt (Seq a (up_to n' a)) end.
(** [a{n,m}] *)
Definition between (n m : nat) (a : t) : t := Seq (times n a) (up_to (m - n) a).
Fixpoint lit (s : string) : t :=
  match s with
  | "" => Eps
  | String a s' => Seq (Chr (Ascii.eqb a)) (lit s')
  end.

(** [\s], [\d] and [.] *)
Definition space : t := Chr Py.isspace.
Definition digit : t := Chr Py.isdigit.
Definition dot : t := Chr (fun c => negb (Py.code c =? 10)%nat).

(** a match at the current position: the state after it *)
Definition match_here (r : t) (st : state) : option state := run r st Some.

(** [re.fullmatch(r, s)] as a truth value *)
Definition fullmatch (r : t) (s : string) : bool :=
  match run r {| prev := None; rest := s; groups := [] |}
              (fun st => if String.eqb (rest st) "" then Some st else None) with
  | Some _ => true
  | None => false
  end.

(** [re.search(r, s)] as a truth value *)
Fixpoint search_from (r : t) (s : string) (before : option ascii) : bool :=
  match match_here r {| prev := before; rest := s; groups := [] |} with
  | Some _ => true
  | None =>
      match s with
      | "" => false
      | String a s' => search_from r s' (Some a)
      end
  end.

Definition search (r : t) (s : string) : bool := search_from r s None.

(** a literal under [re.I] *)
Fixpoint lit_ci (s : string) : t :=
  match s with
  | "" => Eps
  | String a s' =>
      Seq (Chr (fun c => Ascii.eqb (Py.lower_char c) (Py.lower_char a)))
          (lit_ci s')
  end.

(** a replacement template: literal text and group references *)
Inductive piece := Lit (s : string) | Ref (n : nat).

Definition group (n : nat) (gs : list (nat * string)) : string :=
  match List.find (fun g => Nat.eqb (fst g) n) gs with
  | Some g => snd g
  | None => ""
  end.

Fixpoint expand (tpl : list piece) (gs : list (nat * string)) : string :=
  match tpl with
  | [] => ""
  | Lit s :: tpl' => s +:+ expand tpl' gs
  | Ref n :: tpl' => group n gs +:+ expand tpl' gs
  end.

(** [re.sub(r, tpl, s)] for a pattern that matches no empty text:
    replace the leftmost match, go on behind it.  [skip] counts the
    characters of the last match still to pass over. *)
Fixpoint sub_from (r : t) (tpl : list piece) (s : string)
    (before : option ascii) (skip : nat) : string :=
  match s with
  | "" => ""
  | String a s' =>
      match skip with
      | S k => sub_from r tpl s' (Some a) k
      | 0 =>
          match match_here r {| prev := before; rest := s; groups := [] |} with
          | Some st =>
              let n := Py.len s - Py.len (rest st) in
              match n with
              | 0 => String a (sub_from r tpl s' (Some a) 0)
              | S k => expand tpl (groups st) +:+ sub_from r tpl s' (Some a) k
              end
          | None => String a (sub_from r tpl s' (Some a) 0)
          end
      end
  end.

Definition sub (r : t) (tpl : list piece) (s : string) : string :=
  sub_from r tpl s None 0.

End Re.

(** ** The document tree of BeautifulSoup

    What the program reads of a parsed document: elements with a tag
    name, attributes and children, and strings.  A string is [visible]
    when [get_text] yields it (a [NavigableString] or [CData]); comments,
    declarations and the like are not.  The [class] attribute is a list
    of tokens, as the HTML builders deliver it. *)

Module Dom.

Inductive attr := One (v : string) | Many (l : list string).

#[warnings="-register-all"]
Inductive node :=
| Str (visible : bool) (s : string)
| Elem (tag : string) (attrs : list (string * attr)) (children : list node).

Definition forest := list node.

Definition tag_of (n : node) : option string :=
  match n with Elem t _ _ => Some t | Str _ _ => None end.

Definition children_of (n : node) : forest :=
  match n with Elem _ _ c => c | Str _ _ => [] end.

(** [tag.get(name)] *)
Definition get_attr (name : string) (n : node) : option attr :=
  match n with
  | Elem _ attrs _ =>
      match List.find (fun kv => String.eqb (fst kv) name) attrs with
      | Some kv => Some (snd kv)
      | None => None
      end
  | Str _ _ => None
  end.

Definition is_tag (name : string) (n : node) : bool :=
  match n with Elem t _ _ => String.eqb t name | Str _ _ => false end.

(** [find_all(p)] below the nodes of a forest: every matching element
    in document order, nested ones included *)
Fixpoint find_all (p : node -> bool) (n : node) : list node :=
  (if p n then [n] else []) ++
  match n with
  | Elem _ _ c => List.concat (List.map (find_all p) c)
  | Str _ _ => []
  end.

Definition find_all_in (p : node -> bool) (f : forest) : list node :=
  List.concat (List.map (find_all p) f).

(** [find(p)]: the first match in document order *)
Definition find_in (p : node -> bool) (f : forest) : option node :=
  List.head (find_all_in p f).

(** the document without the elements that satisfy [p]
    ([for tag in soup.find_all(...): tag.decompose()]) *)
Fixpoint remove_all (p : node -> bool) (n : node) : node :=
  match n with
  | Elem t a c =>
      Elem t a
        ((fix go (l : forest) : forest :=
            match l with
            | [] => []
            | m :: l' => if p m then go l' else remove_all p m :: go l'
            end) c)
  | Str _ _ => n
  end.

Fixpoint remove_all_in (p : node -> bool) (f : forest) : forest :=
  match f with
  | [] => []
  | m :: f' =>
      if p m then remove_all_in p f' else remove_all p m :: remove_all_in p f'
  end.

(** the forest after [f] has changed the first element, in document
    order, that satisfies [p]; [None] when there is none *)
Fixpoint update_first (p : node -> bool) (f : node -> node) (n : node)
  : option node :=
  if p n then Some (f n)
  else
    match n with
    | Elem t a c =>
        match
          (fix go (l : forest) : option forest :=
             match l with
             | [] => None
             | m :: l' =>
                 match update_first p f m with
                 | Some m' => Some (m' :: l')
                 | None =>
                     match go l' with
                     | Some r => Some (m :: r)
                     | None => None
                     end
                 end
             end) c
        with
        | Some c' => Some (Elem t a c')
        | None => None
        end
    | Str _ _ => None
    end.

Fixpoint update_first_in (p : node -> bool) (f : node -> node) (l : forest)
  : option forest :=
  match l with
  | [] => None
  | m :: l' =>
      match update_first p f m with
      | Some m' => Some (m' :: l')
      | None =>
          match update_first_in p f l' with
          | Some r => Some (m :: r)
          | None => None
          end
      end
  end.

(** the visible strings below a node, in document order *)
Fixpoint strings (n : node) : list string :=
  match n with
  | Str v s => if v then [s] else []
  | Elem _ _ c => List.concat (List.map strings c)
  end.

(** [tag.get_text(sep)] *)
Definition get_text (sep : string) (n : node) : string :=
  Py.join sep (strings n).

(** [tag.string]: the single string below a chain of only children *)
Fixpoint string_of (n : node) : option string :=
  match n with
  | Str _ s => Some s
  | Elem _ _ [c] => string_of c
  | Elem _ _ _ => None
  end.

End Dom.

(** ** What the program takes from libraries

    The functions below are called by [digit.py] and live in packages
    that are not part of it.  The program's properties are proved for
    every implementation of this interface. *)

Class Lib := {
  (** [urllib.parse._check_bracketed_netloc]: the bracketed host is a
      valid IP literal (the call returns instead of raising) *)
  bracketed_netloc_ok : string -> bool;
  (** [urllib.parse._checknetloc] on a netloc that is not ASCII: the
      NFKC form brings in no delimiter *)
  nfkc_netloc_ok : string -> bool;
  (** [hashlib.sha1(s.encode("utf-8")).hexdigest()] *)
  sha1_hexdigest : string -> string;
  (** the children of [BeautifulSoup(html, "html.parser")] *)
  bs_parse : string -> Dom.forest;
  (** [str(tag)] *)
  bs_str : Dom.node -> string;
  (** [h.handle(html)] for the [HTML2Text] object the program sets up
      (links and images kept, no line wrapping, [unicode_snob]) *)
  h2t_handle : string -> string;
}.

(** ** [urllib.parse] *)

Module Url.
Section WithLib.
Context `{Lib}.

Record SplitResult := {
s_scheme : string; s_netloc : string; s_path : string;
s_query : string; s_fragment : string }.

Record ParseResult := {
scheme : string; netloc : string; path : string;
params : string; query : string; fragment : string }.

Definition uses_relative : list string :=
[""; "ftp"; "http"; "gopher"; "nntp"; "imap"; "wais"; "file"; "https";
 "shttp"; "mms"; "prospero"; "rtsp"; "rtspu"; "sftp"; "svn"; "svn+ssh";
 "ws"; "wss"].

Definition uses_netloc : list string :=
[""; "ftp"; "http"; "gopher"; "nntp"; "telnet"; "imap"; "wais"; "file";
 "mms"; "https"; "shttp"; "snews"; "prospero"; "rtsp"; "rtspu"; "rsync";
 "svn"; "svn+ssh"; "sftp"; "nfs"; "git"; "git+ssh"; "ws"; "wss"].

Definition uses_params : list string :=
[""; "ftp"; "hdl"; "prospero"; "http"; "imap"; "https"; "shttp"; "rtsp";
 "rtspu"; "sip"; "sips"; "mms"; "sftp"; "tel"].

(** [s in l] for a list of strings *)
Definition mem (s : string) (l : list string) : bool :=
existsb (String.eqb s) l.

Definition nonempty (s : string) : bool := negb (String.eqb s "").

Definition scheme_char (c : ascii) : bool :=
Py.isalpha_ascii c || Py.isdigit c || Py.has c "+-.".

(** [_WHATWG_C0_CONTROL_OR_SPACE] *)
Definition c0_or_space (c : ascii) : bool := (Py.code c <=? 32)%nat.

(** the characters that are not in [_UNSAFE_URL_BYTES_TO_REMOVE] *)
Definition safe_byte (c : ascii) : bool :=
let n := Py.code c in negb ((n =? 9) || (n =? 10) || (n =? 13))%nat.

Definition delimiter (c : ascii) : bool := Py.has c "/?#".

(** the longest prefix without a character of [stop], and the rest *)
Fixpoint span (stop : ascii -> bool) (s : string) : string * string :=
match s with
| "" => ("", "")
| String a s' =>
    if stop a then ("", s)
    else let '(h, t) := span stop s' in (String a h, t)
end.

(** [_splitnetloc(url, 2)] *)
Definition splitnetloc (url : string) : string * string :=
span delimiter (Py.drop 2 url).

(** the scheme test of [urlsplit]: the new scheme and the rest of the
  URL, or the default scheme and the URL *)
Definition split_scheme (url dflt : string) : string * string :=
match Py.find ":" url, url with
| Some (S i), String a _ =>
    if Py.isalpha_ascii a && Py.all scheme_char (Py.take (S i) url)
    then (Py.lower (Py.take (S i) url), Py.drop (S (S i)) url)
    else (dflt, url)
| _, _ => (dflt, url)
end.

(** the checks of [urlsplit] on the netloc; [false] is a [ValueError] *)
Definition netloc_ok (n : string) : bool :=
let lb := Py.has "[" n in
let rb := Py.has "]" n in
negb ((lb && negb rb) || (rb && negb lb))
&& (if lb && rb then bracketed_netloc_ok n else true).

(** [_checknetloc] *)
Definition checknetloc (n : string) : bool :=
if String.eqb n "" || Py.all (fun c => (Py.code c <? 128)%nat) n then true
else nfkc_netloc_ok n.

(** [urlsplit(url, scheme)]; [None] is a [ValueError] *)
Definition urlsplit (url dflt : string) : option SplitResult :=
let url := Py.filter safe_byte (Py.lstrip c0_or_space url) in
let dflt := Py.filter safe_byte (Py.strip c0_or_space dflt) in
let '(sch, url) := split_scheme url dflt in
'(net, url) ←
  (if String.eqb (Py.take 2 url) "//" then
     let '(net, rest) := splitnetloc url in
     if netloc_ok net then Some (net, rest) else None
   else Some ("", url));
let '(url, frag) :=
  match Py.cut "#" url with Some (u, f) => (u, f) | None => (url, "") end in
let '(url, qry) :=
  match Py.cut "?" url with Some (u, q) => (u, q) | None => (url, "") end in
if checknetloc net then
  Some {| s_scheme := sch; s_netloc := net; s_path := url;
          s_query := qry; s_fragment := frag |}
else None.

(** [s.rfind(c)] *)
Fixpoint rfind (c : ascii) (s : string) : option nat :=
match s with
| "" => None
| String a s' =>
    match rfind c s' with
    | Some i => Some (S i)
    | None => if Ascii.eqb a c then Some 0 else None
    end
end.

(** [s.find(c, start)] *)
Definition find_from (c : ascii) (start : nat) (s : string) : option nat :=
match Py.find c (Py.drop start s) with
| Some i => Some (start + i)
| None => None
end.

(** [_splitparams(url)], called when [';' in url] *)
Definition splitparams (url : string) : string * string :=
match rfind "/" url with
| Some j =>
    match find_from ";" j url with
    | Some i => (Py.take i url, Py.drop (S i) url)
    | None => (url, "")
    end
| None =>
    match Py.find ";" url with
    | Some i => (Py.take i url, Py.drop (S i) url)
    | None => (url, "")
    end
end.

(** [urlparse(url, scheme)] *)
Definition urlparse_default (url dflt : string) : option ParseResult :=
r ← urlsplit url dflt;
let '(p, prm) :=
  if mem (s_scheme r) uses_params && Py.has ";" (s_path r)
  then splitparams (s_path r) else (s_path r, "") in
Some {| scheme := s_scheme r; netloc := s_netloc r; path := p;
        params := prm; query := s_query r; fragment := s_fragment r |}.

(** [urlparse(url)] *)
Definition urlparse (url : string) : option ParseResult :=
urlparse_default url "".

(** [urlunsplit((scheme, netloc, url, query, fragment))] *)
Definition urlunsplit (sch net url qry frag : string) : string :=
let url :=
  if nonempty net
     || (nonempty sch && mem sch uses_netloc
         && negb (String.eqb (Py.take 2 url) "//"))
  then
    let url :=
      if nonempty url && negb (String.eqb (Py.take 1 url) "/")
      then "/" +:+ url else url in
    "//" +:+ net +:+ url
  else url in
let url := if nonempty sch then sch +:+ ":" +:+ url else url in
let url := if nonempty qry then url +:+ "?" +:+ qry else url in
if nonempty frag then url +:+ "#" +:+ frag else url.

(** [urlunparse(components)], which is also [ParseResult.geturl()] *)
Definition urlunparse (p : ParseResult) : string :=
let url :=
  if nonempty (params p) then path p +:+ ";" +:+ params p else path p in
urlunsplit (scheme p) (netloc p) url (query p) (fragment p).

Definition geturl := urlunparse.

(** [l[1:-1] = filter(None, l[1:-1])] *)
Definition filter_middle (l : list string) : list string :=
match l with
| x :: (_ :: _) as rest =>
    x :: List.filter nonempty (removelast rest) ++ [List.last rest ""]
| _ => l
end.

(** the loop of [urljoin] over the segments; [acc] is [resolved_path]
  with its last element first *)
Fixpoint resolve (segments acc : list string) : list string :=
match segments with
| [] => List.rev acc
| seg :: rest =>
    if String.eqb seg ".." then resolve rest (List.tail acc)
    else if String.eqb seg "." then resolve rest acc
    else resolve rest (seg :: acc)
end.

(** [urljoin(base, url)] *)
Definition urljoin (base url : string) : option string :=
if String.eqb base "" then Some url
else if String.eqb url "" then Some base
else
  b ← urlparse_default base "";
  u ← urlparse_default url (scheme b);
  if negb (String.eqb (scheme u) (scheme b))
     || negb (mem (scheme u) uses_relative)
  then Some url
  else if mem (scheme u) uses_netloc && nonempty (netloc u)
  then Some (urlunparse u)
  else
    let net := if mem (scheme u) uses_netloc then netloc b else netloc u in
    if negb (nonempty (path u)) && negb (nonempty (params u)) then
      Some (urlunparse
              {| scheme := scheme u; netloc := net; path := path b;
                 params := params b;
                 query := if nonempty (query u) then query u else query b;
                 fragment := fragment u |})
    else
      let base_parts := Py.split "/" (path b) in
      let base_parts :=
        if nonempty (List.last base_parts "")
        then removelast base_parts else base_parts in
      let segments :=
        if String.eqb (Py.take 1 (path u)) "/"
        then Py.split "/" (path u)
        else filter_middle (base_parts ++ Py.split "/" (path u)) in
      let resolved := resolve segments [] in
      let resolved :=
        if mem (List.last segments "") ["."; ".."]
        then resolved ++ [""] else resolved in
      let joined := Py.join "/" resolved in
      Some (urlunparse
              {| scheme := scheme u; netloc := net;
                 path := if nonempty joined then joined else "/";
                 params := params u; query := query u;
                 fragment := fragment u |}).

(** [urldefrag(url)]: the URL without its fragment, and the fragment *)
Definition urldefrag (url : string) : option (string * string) :=
if Py.has "#" url then
  p ← urlparse url;
  Some (urlunparse
          {| scheme := scheme p; netloc := netloc p; path := path p;
             params := params p; query := query p; fragment := "" |},
        fragment p)
else Some (url, "").

End WithLib.

(** Classes of strings the parser's results fall into: without the
    characters [urlsplit] removes, without a delimiter of the network
    location, without a fragment sign *)
Definition safe (s : string) : Prop := Py.all safe_byte s = true.
Definition nodelim (s : string) : Prop :=
  Py.all (fun c => negb (delimiter c)) s = true.
Definition nohash (s : string) : Prop := Py.has "#" s = false.

(** a scheme as [urlsplit] returns it when the URL names one *)
Definition valid_scheme (s : string) : Prop :=
  (exists a s', s = String a s' /\ Py.isalpha_ascii a = true)
  /\ Py.all scheme_char s = true /\ Py.lower s = s.
End Url.

(** ** [pathlib] paths (POSIX flavour)

    A path is the list of its parts; an absolute path starts with its
    root. *)

Module Path.

Definition t := list string.

(** the parts of a path given as text: empty parts and [.] vanish *)
Definition parts (s : string) : list string :=
  List.filter (fun p => Url.nonempty p && negb (String.eqb p "."))
              (Py.split "/" s).

(** the root of an absolute path: [//] when it starts with exactly two
    slashes, else [/] *)
Definition root (s : string) : string :=
  if Py.startswith "//" s && negb (Py.startswith "///" s) then "//" else "/".

(** [base / s] *)
Definition join (base : t) (s : string) : t :=
  if Py.startswith "/" s then root s :: parts s else base ++ parts s.

(** [p.name] *)
Definition name (p : t) : string := List.last p "".

End Path.

(** ** The outside world

    What a run observes of the network and of the clock.  Every call
    that can fail by an exception returns an [option]. *)

Record Response := {
  status_code : Z;
  content_type : string;   (* [resp.headers.get("content-type", "")] *)
  text : string }.

(** the outcome of [urllib.request.urlopen] on a robots file *)
Inductive RobotsFetch :=
| RobotsUnreachable                        (* an error that is no [HTTPError] *)
| RobotsHTTPError (code : Z)
| RobotsFile (verdict : string -> option bool).
    (* the file was read and parsed; [verdict url] is what its entries
       say to the agent [digit], [None] when the lookup raises *)

Record World := {
  (** [client.get(url)] when [n] events have happened; [None] when it raises *)
  http_get : nat -> string -> option Response;
  robots_fetch : string -> RobotsFetch;
  (** [list(iter_sitemap_urls(seed))]: the locations the sitemap
      documents of the site declare *)
  sitemap_urls : string -> list string;
  (** [int(time.time())] when [n] events have happened *)
  clock : nat -> Z }.

(** ** [urllib.robotparser.RobotFileParser] *)

Module Robots.

Record t := {
  disallow_all : bool;
  allow_all : bool;
  last_checked : bool;                    (* [last_checked] is not 0 *)
  entries : string -> option bool }.

(** [RobotFileParser()] *)
Definition init : t :=
  {| disallow_all := false; allow_all := false; last_checked := false;
     entries := fun _ => Some true |}.

(** [rp.read()] for the robots file at [url]; [None] when it raises *)
Definition read (w : World) (rp : t) (url : string) : option t :=
  match robots_fetch w url with
  | RobotsUnreachable => None
  | RobotsHTTPError code =>
      if (code =? 401)%Z || (code =? 403)%Z then
        Some {| disallow_all := true; allow_all := allow_all rp;
                last_checked := last_checked rp; entries := entries rp |}
      else if (400 <=? code)%Z && (code <? 500)%Z then
        Some {| disallow_all := disallow_all rp; allow_all := true;
                last_checked := last_checked rp; entries := entries rp |}
      else Some rp
  | RobotsFile verdict =>
      Some {| disallow_all := disallow_all rp; allow_all := allow_all rp;
              last_checked := true; entries := verdict |}
  end.

(** [rp.can_fetch("digit", url)] *)
Definition can_fetch (rp : t) (url : string) : option bool :=
  if disallow_all rp then Some false
  else if allow_all rp then Some true
  else if negb (last_checked rp) then Some false
  else entries rp url.

End Robots.

(** ** The program: URL helpers *)

Section Digit.
Context `{Lib}.

(** Functions that can raise return an [option]: [None] is the
    exception ([ValueError] from [urllib.parse]). *)

(** [normalize_url(base, href)].  The inner option is Python's [None]. *)
Definition normalize_url (base : string) (href : option string)
  : option (option string) :=
  match href with
  | None => Some None
  | Some href =>
      if String.eqb href "" then Some None
      else
        abs_url ← Url.urljoin base href;
        '(abs_url, _frag) ← Url.urldefrag abs_url;
        parsed ← Url.urlparse abs_url;
        if negb (Url.mem (Url.scheme parsed) ["http"; "https"]) then Some None
        else
          Some (Some (Url.geturl
            {| Url.scheme := Url.scheme parsed;
               Url.netloc := Py.lower (Url.netloc parsed);
               Url.path := Url.path parsed;
               Url.params := Url.params parsed;
               Url.query := Url.query parsed;
               Url.fragment := Url.fragment parsed |}))
  end.

(** [same_scope(seed, candidate)] *)
Definition same_scope (seed candidate : string) : option bool :=
  a ← Url.urlparse seed;
  b ← Url.urlparse candidate;
  Some (String.eqb (Url.scheme a) (Url.scheme b)
        && String.eqb (Url.netloc a) (Url.netloc b)
        && Py.startswith (Url.path a) (Url.path b)).

(** [load_robots(seed)].  [set_url] parses the URL and [read] fetches
    the file; whatever they raise is swallowed and leaves the parser
    as it was created. *)
Definition load_robots (w : World) (seed : string) : option Robots.t :=
  robots_url ← Url.urljoin seed "/robots.txt";
  let rp := Robots.init in
  match Url.urlparse robots_url ≫= (fun _ => Robots.read w rp robots_url) with
  | Some rp' => Some rp'
  | None => Some rp
  end.

(** ** Content extractor *)

Definition nl : string := String "010" "".
Definition fence : string := "```".

Definition clutter : list string :=
  ["nav"; "aside"; "script"; "style"; "header"; "footer"; "form"; "img"].

Definition is_clutter (n : Dom.node) : bool :=
  match Dom.tag_of n with
  | Some t => Url.mem t clutter
  | None => false
  end.

(** the tokens a loop over [tag.get("class", [])] goes through: the
    items of a list, the characters of a string *)
Definition class_items (v : Dom.attr) : list string :=
  match v with
  | Dom.Many l => l
  | Dom.One s => List.map (fun c => String c "") (list_ascii_of_string s)
  end.

(** [find("div", class_=name)]: one of the class tokens is [name], or
    the whole attribute is *)
Definition is_div_class (name : string) (n : Dom.node) : bool :=
  Dom.is_tag "div" n &&
  match Dom.get_attr "class" n with
  | Some (Dom.Many l) => Url.mem name l || String.eqb (Py.join " " l) name
  | Some (Dom.One s) => String.eqb s name
  | None => false
  end.

(** [re.compile(r"^content|^main", re.I)] *)
Definition rx_content_id : Re.t :=
  Re.Alt (Re.Seq (Re.Bol false) (Re.lit_ci "content"))
         (Re.Seq (Re.Bol false) (Re.lit_ci "main")).

Definition is_div_content_id (n : Dom.node) : bool :=
  Dom.is_tag "div" n &&
  match Dom.get_attr "id" n with
  | Some (Dom.One s) => Re.search rx_content_id s
  | Some (Dom.Many l) =>
      existsb (Re.search rx_content_id) l
      || Re.search rx_content_id (Py.join " " l)
  | None => false
  end.

(** the candidates for the main container, in the order of the [or]
    chain *)
Definition main_selectors : list (Dom.node -> bool) :=
  [Dom.is_tag "main"; Dom.is_tag "article"; is_div_class "content";
   is_div_class "document"; is_div_class "theme-default-content";
   is_div_content_id; Dom.is_tag "body"].

Definition select_main (soup : Dom.forest) : option (Dom.node -> bool) :=
  List.find (fun p => bool_decide (is_Some (Dom.find_in p soup)))
            main_selectors.

Definition bare_languages : list string :=
  ["bash"; "shell"; "sh"; "nix"; "json"; "yaml"; "toml"; "python"; "js"; "ts"].

(** the loop over [classes] that sets [lang] *)
Fixpoint detect_lang (classes : list string) (lang : string) : string :=
  match classes with
  | [] => lang
  | c :: rest =>
      if Py.startswith "language-" c then Py.drop 9 c
      else if Url.mem c bare_languages then detect_lang rest c
      else detect_lang rest lang
  end.

Definition is_pre : Dom.node -> bool := Dom.is_tag "pre".

(** [pre.find("code")] *)
Definition code_of (pre : Dom.node) : option Dom.node :=
  Dom.find_in (Dom.is_tag "code") (Dom.children_of pre).

Definition pre_classes (pre : Dom.node) : list string :=
  match code_of pre ≫= Dom.get_attr "class", Dom.get_attr "class" pre with
  | Some v, _ => class_items v
  | None, Some v => class_items v
  | None, None => []
  end.

(** the line boundaries of [str.splitlines] *)
Definition linebreak (c : ascii) : bool :=
  let n := Py.code c in
  ((10 <=? n) && (n <=? 13) || (28 <=? n) && (n <=? 30) || (n =? 133))%nat.

(** [s.splitlines()]; [cur] is the line being read, last character first *)
Fixpoint splitlines_from (s cur : string) : list string :=
  match s with
  | "" => if Url.nonempty cur then [Py.rev cur] else []
  | String a s' =>
      if linebreak a then
        Py.rev cur ::
          match s' with
          | String b s'' =>
              if ((Py.code a =? 13) && (Py.code b =? 10))%nat
              then splitlines_from s'' ""
              else splitlines_from s' ""
          | "" => splitlines_from s' ""
          end
      else splitlines_from s' (String a cur)
  end.

Definition splitlines (s : string) : list string := splitlines_from s "".

(** [\s*\d{1,3}\s*] *)
Definition rx_line_number : Re.t :=
  Re.Seq (Re.Star true Re.space)
    (Re.Seq (Re.between 1 3 Re.digit) (Re.Star true Re.space)).

(** the characters below 256 of the class of tree-drawing symbols *)
Definition tree_char (c : ascii) : bool :=
  Py.isspace c || Py.has c ">`~\/|:_-" || (Py.code c =? 183)%nat.

Definition rx_tree_line : Re.t := Re.plus true (Re.Chr tree_char).

(** the [while] loop over [raw_lines] *)
Fixpoint clean_lines (raw_lines : list string) : list string :=
  match raw_lines with
  | [] => []
  | raw :: rest =>
      let line := Py.rstrip Py.isspace raw in
      if Re.fullmatch rx_line_number line then clean_lines rest
      else
        match rest with
        | next :: rest' =>
            if Re.fullmatch rx_tree_line line then
              Py.rstrip Py.isspace
                (Py.strip Py.isspace line +:+ " " +:+ Py.lstrip Py.isspace next)
              :: clean_lines rest'
            else line :: clean_lines rest
        | [] => line :: clean_lines rest
        end
  end.

(** the fenced block that stands for one [pre] element *)
Definition fenced_of (pre : Dom.node) : string :=
  let lang := detect_lang (pre_classes pre) "" in
  let text_src := match code_of pre with Some c => c | None => pre end in
  let code_text := Dom.get_text " " text_src in
  let code_text :=
    Py.strip (Py.eqc "010") (Py.join nl (clean_lines (splitlines code_text))) in
  nl +:+ nl +:+ fence +:+ lang +:+ nl +:+ code_text +:+ nl +:+ fence +:+ nl +:+ nl.

Definition placeholder (idx : nat) : string :=
  "WEB2SCRAP_FENCE_" +:+ Py.str_of_Z (Z.of_nat idx).

(** the tree after every [pre] below it has been replaced by its
    placeholder; [idx] is the number of the first [pre] met.  A [pre]
    inside a [pre] takes a number too and leaves the tree with the
    outer one. *)
Fixpoint replace_pres (idx : nat) (n : Dom.node) : Dom.node :=
  match n with
  | Dom.Elem t a c =>
      if String.eqb t "pre" then Dom.Str true (placeholder idx)
      else
        Dom.Elem t a
          ((fix go (idx : nat) (l : Dom.forest) : Dom.forest :=
              match l with
              | [] => []
              | m :: l' =>
                  replace_pres idx m
                  :: go (idx + length (Dom.find_all is_pre m)) l'
              end) idx c)
  | Dom.Str _ _ => n
  end.

Fixpoint replace_pres_in (idx : nat) (l : Dom.forest) : Dom.forest :=
  match l with
  | [] => []
  | m :: l' =>
      replace_pres idx m
      :: replace_pres_in (idx + length (Dom.find_all is_pre m)) l'
  end.

(** [fence_map] after the loop over [container.find_all("pre")], in
    insertion order *)
Definition fence_map_of (pres : list Dom.node) : list (string * string) :=
  imap (fun i pre => (placeholder i, fenced_of pre)) pres.

(** the loop that puts the fenced blocks back *)
Definition restore (fence_map : list (string * string)) (markdown : string)
  : string :=
  fold_left (fun md kv => Py.replace (fst kv) (snd kv) md) fence_map markdown.

Definition hexdigit (c : ascii) : bool :=
  Py.isdigit c || Py.has c "abcdefABCDEF".

(** [&#x[0-9a-fA-F]+;] *)
Definition rx_icon : Re.t :=
  Re.Seq (Re.lit "&#x") (Re.Seq (Re.plus true (Re.Chr hexdigit)) (Re.lit ";")).

(** [\*\*(.*?)\*\*] *)
Definition rx_bold : Re.t :=
  Re.Seq (Re.lit "**")
    (Re.Seq (Re.Group 1 (Re.Star false Re.dot)) (Re.lit "**")).

(** [(^|\n)(note\(|s\()] *)
Definition rx_call : Re.t :=
  Re.Seq (Re.Group 1 (Re.Alt (Re.Bol false) (Re.lit nl)))
         (Re.Group 2 (Re.Alt (Re.lit "note(") (Re.lit "s("))).

Definition label_char (c : ascii) : bool :=
  Py.isalpha_ascii c || Py.isdigit c || Py.has c "_+-".

(** [\n([a-zA-Z0-9_+-]{2,})\n\n```] *)
Definition rx_label : Re.t :=
  Re.Seq (Re.lit nl)
    (Re.Seq (Re.Group 1 (Re.at_least 2 (Re.Chr label_char)))
       (Re.lit (nl +:+ nl +:+ fence))).

(** [(?:^|\n)(?:\s*\d+\s*\n){3,}] under [re.MULTILINE] *)
Definition rx_line_numbers : Re.t :=
  Re.Seq (Re.Alt (Re.Bol true) (Re.lit nl))
    (Re.at_least 3
       (Re.Seq (Re.Star true Re.space)
          (Re.Seq (Re.plus true Re.digit)
             (Re.Seq (Re.Star true Re.space) (Re.lit nl))))).

(** [\n{3,}] *)
Definition rx_blank_lines : Re.t := Re.at_least 3 (Re.lit nl).

(** the text passes between [h.handle] and the title *)
Definition polish (fence_map : list (string * string)) (markdown : string)
  : string :=
  let markdown := Re.sub rx_icon [] markdown in
  let markdown := Re.sub rx_bold [Re.Lit "## "; Re.Ref 1] markdown in
  let markdown :=
    Re.sub rx_call [Re.Ref 1; Re.Lit nl; Re.Lit nl; Re.Ref 2] markdown in
  let markdown := restore fence_map markdown in
  let markdown :=
    Re.sub rx_label [Re.Lit nl; Re.Lit fence; Re.Ref 1; Re.Lit nl] markdown in
  let markdown := Re.sub rx_line_numbers [Re.Lit nl] markdown in
  Re.sub rx_blank_lines [Re.Lit nl; Re.Lit nl] markdown.

Record Meta := { title : string; url : string }.

(** [str(soup)]: the document object prints its children *)
Definition str_of_soup (soup : Dom.forest) : string :=
  String.concat "" (List.map bs_str soup).

(** [extract_main_content(html, page_url)] *)
Definition extract_main_content (html page_url : string)
  : string * Meta * string :=
  let soup := Dom.remove_all_in is_clutter (bs_parse html) in
  let selector := select_main soup in
  let main := selector ≫= (fun p => Dom.find_in p soup) in
  (* the code blocks of the container, and the tree once they are replaced *)
  let pres :=
    match main with
    | Some m => Dom.find_all_in is_pre (Dom.children_of m)
    | None => Dom.find_all_in is_pre soup
    end in
  let fence_map := fence_map_of pres in
  let soup :=
    match selector with
    | Some p =>
        match Dom.update_first_in p (replace_pres 0) soup with
        | Some soup' => soup'
        | None => soup
        end
    | None => replace_pres_in 0 soup
    end in
  let main := selector ≫= (fun p => Dom.find_in p soup) in
  let markdown :=
    h2t_handle (match main with Some m => bs_str m | None => str_of_soup soup end) in
  let markdown := polish fence_map markdown in
  let title :=
    match Dom.find_in (Dom.is_tag "title") soup ≫= Dom.string_of with
    | Some s => if Url.nonempty s then Py.strip Py.isspace s else ""
    | None => ""
    end in
  (markdown, {| title := title; url := page_url |},
   match main with Some m => bs_str m | None => "" end).
(** ** Path resolver *)

(** the character class [[a-zA-Z0-9/_\-]] *)
Definition path_safe (c : ascii) : bool :=
  Py.isalpha_ascii c || Py.isdigit c || Py.has c "/_-".

(** [re.sub(r"[^a-zA-Z0-9/_\-]", "-", path)] *)
Definition sanitize (path : string) : string :=
  Py.map (fun c => if path_safe c then c else "-"%char) path.

(** the flattening block of [slugify_path] for a path that ends in
    [/index]; [root_path_raw] is [a.path] *)
Definition flatten_index (root_path_raw path : string) : string :=
  if Py.endswith "/index" path then
    let root_path := Py.rstrip (Py.eqc "/") root_path_raw in
    let path_without_index := Py.drop_last 6 path in
    if String.eqb path_without_index root_path
       || String.eqb path_without_index (root_path +:+ "/")
    then path
    else
      let path := path_without_index in
      if negb (Url.nonempty path) || String.eqb path "/" then "index"
      else path
  else path.

(** [slugify_path(base, root_url, page_url, lang_hint, format)].  The
    block under [if lang_hint:] computes [parts] and then passes; it
    changes nothing. *)
Definition slugify_path (base : Path.t)
    (root_url page_url lang_hint format : string) : option Path.t :=
  a ← Url.urlparse root_url;
  b ← Url.urlparse page_url;
  let path := Url.path b in
  let path := if Py.endswith "/" path then path +:+ "index" else path in
  let path := if negb (Url.nonempty path) then "index" else path in
  let path := if Py.endswith ".html" path then Py.drop_last 5 path else path in
  let path := flatten_index (Url.path a) path in
  let safe := Py.strip (Py.eqc "/") (sanitize path) in
  let ext := if String.eqb format "md" then ".md" else "." +:+ format in
  Some (Path.join base (safe +:+ ext)).

(** ** Output writer *)

(** [hash_content(content)] *)
Definition hash_content (content : string) : string := sha1_hexdigest content.

Definition dquote : string := String "034" "".

Definition hex_char (n : nat) : ascii :=
  nth n (list_ascii_of_string "0123456789abcdef") "0"%char.

(** the escape [json] writes for one character ([ensure_ascii=False]) *)
Definition json_escape (c : ascii) : string :=
  let n := Py.code c in
  if (n =? 92)%nat then "\\"
  else if (n =? 34)%nat then "\" +:+ dquote
  else if (n =? 8)%nat then "\b"
  else if (n =? 12)%nat then "\f"
  else if (n =? 10)%nat then "\n"
  else if (n =? 13)%nat then "\r"
  else if (n =? 9)%nat then "\t"
  else if (n <? 32)%nat then
    "\u00" +:+ String (hex_char (n / 16)) (String (hex_char (n mod 16)) "")
  else String c "".

(** a string as a JSON value *)
Definition json_string (s : string) : string :=
  dquote +:+ String.concat "" (List.map json_escape (list_ascii_of_string s))
  +:+ dquote.

(** [json.dumps(data, indent=2, ensure_ascii=False)] for the object the
    writer builds *)
Definition json_record (meta : Meta) (now : Z) (content : string) : string :=
  "{" +:+ nl
  +:+ "  " +:+ json_string "title" +:+ ": " +:+ json_string (title meta) +:+ "," +:+ nl
  +:+ "  " +:+ json_string "url" +:+ ": " +:+ json_string (url meta) +:+ "," +:+ nl
  +:+ "  " +:+ json_string "date_scraped" +:+ ": " +:+ Py.str_of_Z now +:+ "," +:+ nl
  +:+ "  " +:+ json_string "content" +:+ ": " +:+ json_string content +:+ nl
  +:+ "}".

(** [final_content] of [write_output]; [now] is [int(time.time())] *)
Definition final_content (content : string) (meta : Meta)
    (format html_cleaned : string) (now : Z) : string :=
  if String.eqb format "md" then
    Py.join nl
      ["---";
       "title: " +:+ Py.replace ":" "-" (title meta);
       "url: " +:+ url meta;
       "date_scraped: " +:+ Py.str_of_Z now;
       "---";
       ""]
    +:+ content
  else if String.eqb format "json" then json_record meta now content
  else if String.eqb format "txt" then content
  else if String.eqb format "html" then html_cleaned
  else content.

(** The files under the output folder, and the calls of [f.write] in
    the order they were made. *)
Record Disk := {
  files : gmap Path.t string;
  writes : list (Path.t * string) }.

(** what [f.read()] returns for a stored text: every [\r\n] and every
    lone [\r] reads as [\n] (universal newlines) *)
Fixpoint read_text_from (s : string) (after_cr : bool) : string :=
  match s with
  | "" => ""
  | String a s' =>
      if (Py.code a =? 13)%nat then String "010" (read_text_from s' true)
      else if (Py.code a =? 10)%nat && after_cr then read_text_from s' false
      else String a (read_text_from s' false)
  end.

Definition read_text (s : string) : string := read_text_from s false.

(** [write_output(out_path, content, meta, format, html_cleaned, diff)]
    at the time [now] *)
Definition write_output (d : Disk) (out_path : Path.t) (content : string)
    (meta : Meta) (format html_cleaned : string) (diff : bool) (now : Z)
  : Disk :=
  let final := final_content content meta format html_cleaned now in
  let unchanged :=
    match files d !! out_path with
    | Some existing =>
        diff && String.eqb (hash_content (read_text existing))
                           (hash_content final)
    | None => false
    end in
  if unchanged then d
  else {| files := <[out_path := final]> (files d);
          writes := writes d ++ [(out_path, final)] |}.

(** ** Frontier crawler *)

Inductive Event :=
| EvGet (url : string)                   (* [client.get(url)] is called *)
| EvSaved (n : Z) (url hash : string) (out_path : Path.t)
    (* [write_output] has returned for the page at [url], whose body
       hashes to [hash]; it is the [n]-th page of the session *)
| EvEnqueue (url : string) (depth : Z)   (* [queue.append((url, depth))] *)
| EvSleep (delay : QArith_base.Q)        (* [time.sleep(delay)] *)
| EvTrySitemap (domain : string)         (* "Trying sitemap.xml ..." *)
| EvSitemapFound (in_scope total : nat)  (* "Sitemap found!" *)
| EvNoSitemap (domain : string)          (* "No sitemap or empty sitemap." *)
| EvFallback (domain : string).          (* "Falling back to scoped crawl ..." *)

Definition enq (e : string * Z) : Event := EvEnqueue e.1 e.2.

(** what a run has done so far *)
Record Run := { disk : Disk; log : list Event }.

(** what a log shows: the URLs fetched, the hashes of the bodies that
    went to the writer, the frontier entries made from links *)
Definition fetched (evs : list Event) : list string :=
  omap (fun e => match e with EvGet u => Some u | _ => None end) evs.

Definition written_hashes (evs : list Event) : list string :=
  omap (fun e => match e with EvSaved _ _ h _ => Some h | _ => None end) evs.

Definition enqueued (evs : list Event) : list (string * Z) :=
  omap (fun e => match e with EvEnqueue u d => Some (u, d) | _ => None end) evs.

Definition emit (e : Event) (r : Run) : Run :=
  {| disk := disk r; log := log r ++ [e] |}.

(** the time of the next observation *)
Definition instant (r : Run) : nat := length (log r).

Record Config := {
  max_pages : Z;
  depth_limit : Z;
  rps : QArith_base.Q;
  include_rx : option (string -> bool);   (* [include_rx.search] *)
  exclude_rx : option (string -> bool);
  save_html : bool;
  lang_hint : string;
  format : string;
  diff : bool;
  sitemap_only : bool }.

(** [max(0.0, 1.0 / rps)]; [None] is the [ZeroDivisionError] *)
Definition delay_of (rate : QArith_base.Q) : option QArith_base.Q :=
  if QArith_base.Qeq_bool rate (QArith_base.Qmake 0 1) then None
  else
    let d := QArith_base.Qinv rate in
    Some (if QArith_base.Qle_bool (QArith_base.Qmake 0 1) d then d
          else QArith_base.Qmake 0 1).

(** the variables of one crawl session *)
Record Session := {
  queue : list (string * Z);
  seen : gset string;
  saved_hashes : gset string;
  pages : Z;
  run : Run }.

Definition with_queue (q : list (string * Z)) (s : Session) : Session :=
  {| queue := q; seen := seen s; saved_hashes := saved_hashes s;
     pages := pages s; run := run s |}.

Definition with_run (r : Run) (s : Session) : Session :=
  {| queue := queue s; seen := seen s; saved_hashes := saved_hashes s;
     pages := pages s; run := r |}.

Definition mark_seen (u : string) (s : Session) : Session :=
  {| queue := queue s; seen := {[u]} ∪ seen s;
     saved_hashes := saved_hashes s; pages := pages s; run := run s |}.

Definition count_page (h : string) (s : Session) : Session :=
  {| queue := queue s; seen := seen s;
     saved_hashes := {[h]} ∪ saved_hashes s;
     pages := (pages s + 1)%Z; run := run s |}.

(** how a piece of the session ends: it goes on, the function returns,
    or an exception leaves it *)
Inductive Status := Running | Done | Failed.

(** [a.get("href")] for every [a] of the page *)
Definition hrefs_of (html : string) : list (option string) :=
  List.map
    (fun a => match Dom.get_attr "href" a with
              | Some (Dom.One v) => Some v
              | _ => None
              end)
    (Dom.find_all_in (Dom.is_tag "a") (bs_parse html)).

(** the loop over the links of a page *)
Fixpoint enqueue_links (base url : string) (depth : Z)
    (hrefs : list (option string)) (s : Session) : Status * Session :=
  match hrefs with
  | [] => (Running, s)
  | href :: rest =>
      match normalize_url url href with
      | None => (Failed, s)
      | Some None => enqueue_links base url depth rest s
      | Some (Some nxt) =>
          if negb (Url.nonempty nxt) then enqueue_links base url depth rest s
          else
            match same_scope base nxt with
            | None => (Failed, s)
            | Some true =>
                enqueue_links base url depth rest
                  (with_run (emit (EvEnqueue nxt (depth + 1)) (run s))
                     (with_queue (queue s ++ [(nxt, (depth + 1)%Z)]) s))
            | Some false => enqueue_links base url depth rest s
            end
      end
  end.

(** [e] is a frontier entry the link loop makes on the page [html]
    found at [url] and depth [depth] *)
Definition from_link (base url : string) (depth : Z)
    (hrefs : list (option string)) (e : string * Z) : Prop :=
  e.2 = (depth + 1)%Z
  /\ Url.nonempty e.1 = true
  /\ same_scope base e.1 = Some true
  /\ exists href, In href hrefs /\ normalize_url url href = Some (Some e.1).

Section Crawl.
Variable w : World.
Variable cfg : Config.
Variable out_dir : Path.t.

(** extractor, path resolver and writer for one fetched page; [None]
    when the path resolver raises *)
Definition save_page (root page html : string) (r : Run) : option (Path.t * Run) :=
  let '(md, meta, html_cleaned) := extract_main_content html page in
  out_path ← slugify_path out_dir root page (lang_hint cfg) (format cfg);
  Some (out_path,
        {| disk := write_output (disk r) out_path md meta (format cfg)
                     html_cleaned (diff cfg) (clock w (instant r));
           log := log r |}).

Definition is_html_page (resp : Response) : bool :=
  (status_code resp =? 200)%Z && Py.contains "html" (content_type resp).

(** one turn of the [while] loop, after its condition held and
    [(url, depth)] was taken from the queue *)
Definition visit (base : string) (rp : Robots.t) (delay : QArith_base.Q)
    (url : string) (depth : Z) (s : Session) : Status * Session :=
  if bool_decide (url ∈ seen s) then (Running, s)
  else
    let s := mark_seen url s in
    match Robots.can_fetch rp url with
    | None => (Failed, s)
    | Some false => (Running, s)
    | Some true =>
        if match include_rx cfg with Some rx => negb (rx url) | None => false end
        then (Running, s)
        else if match exclude_rx cfg with Some rx => rx url | None => false end
        then (Running, s)
        else
          let resp := http_get w (instant (run s)) url in
          let s := with_run (emit (EvGet url) (run s)) s in
          match resp with
          | None => (Running, s)
          | Some resp =>
              if negb (is_html_page resp) then (Running, s)
              else
                let html := text resp in
                let content_hash := hash_content html in
                if bool_decide (content_hash ∈ saved_hashes s) then (Running, s)
                else
                  match save_page base url html (run s) with
                  | None => (Failed, s)
                  | Some (out_path, r) =>
                      let s := count_page content_hash (with_run r s) in
                      let s :=
                        with_run
                          (emit (EvSaved (pages s) url content_hash out_path) (run s)) s in
                      let '(st, s) :=
                        if (depth_limit cfg =? 0)%Z || (depth <? depth_limit cfg)%Z
                        then enqueue_links base url depth (hrefs_of html) s
                        else (Running, s) in
                      match st with
                      | Running => (Running, with_run (emit (EvSleep delay) (run s)) s)
                      | _ => (st, s)
                      end
                  end
          end
    end.

(** the [while] loop; [fuel] bounds the number of turns *)
Fixpoint crawl_loop (fuel : nat) (base : string) (rp : Robots.t)
    (delay : QArith_base.Q) (s : Session) : Status * Session :=
  match queue s with
  | [] => (Done, s)
  | (url, depth) :: q =>
      if negb (pages s <? max_pages cfg)%Z then (Done, s)
      else
        match fuel with
        | 0 => (Running, s)
        | S fuel' =>
            match visit base rp delay url depth (with_queue q s) with
            | (Running, s') => crawl_loop fuel' base rp delay s'
            | other => other
            end
        end
  end.

(** one turn of the loop as a relation between sessions: the loop
    condition holds, the oldest entry leaves the queue and is visited *)
Definition turn (base : string) (rp : Robots.t) (delay : QArith_base.Q)
    (s s' : Session) : Prop :=
  exists url depth q st,
    queue s = (url, depth) :: q
    /\ (pages s <? max_pages cfg)%Z = true
    /\ visit base rp delay url depth (with_queue q s) = (st, s').

(** the scope root the crawler derives from the seed *)
Definition base_of (parsed_seed : Url.ParseResult) : string :=
  Url.scheme parsed_seed +:+ "://" +:+ Url.netloc parsed_seed +:+
  (if Py.endswith "/" (Url.path parsed_seed) then Url.path parsed_seed
   else Url.path parsed_seed +:+ "/").

Definition start (base : string) (r : Run) : Session :=
  {| queue := [(base, 0%Z)]; seen := ∅; saved_hashes := ∅;
     pages := 0; run := r |}.

Definition nothing_yet (r : Run) : Session :=
  {| queue := []; seen := ∅; saved_hashes := ∅; pages := 0; run := r |}.

(** [crawl_with_frontier(seed, out_dir, ...)]: how it ended and the
    session at that point; the function returns [pages] *)
Definition crawl_with_frontier (fuel : nat) (seed : string) (r : Run)
  : Status * Session :=
  match
    parsed_seed ← Url.urlparse seed;
    let base := base_of parsed_seed in
    rp ← load_robots w base;
    delay ← delay_of (rps cfg);
    Some (base, rp, delay)
  with
  | None => (Failed, nothing_yet r)
  | Some (base, rp, delay) => crawl_loop fuel base rp delay (start base r)
  end.

(** ** Sitemap crawl *)

(** the comprehension that keeps the URLs in scope *)
Fixpoint in_scope (seed : string) (urls : list string) : option (list string) :=
  match urls with
  | [] => Some []
  | u :: rest =>
      keep ← same_scope seed u;
      rest' ← in_scope seed rest;
      Some (if keep : bool then u :: rest' else rest')
  end.

(** the [for] loop of [crawl_sitemap_first] from the [idx]-th URL on;
    the result carries [count] *)
Fixpoint sitemap_loop (seed : string) (delay : QArith_base.Q)
    (urls : list string) (count : Z) (r : Run) : Status * Z * Run :=
  match urls with
  | [] => (Done, count, r)
  | url :: rest =>
      let resp := http_get w (instant r) url in
      let r := emit (EvGet url) r in
      match resp with
      | None => sitemap_loop seed delay rest count r
      | Some resp =>
          if negb (is_html_page resp) then sitemap_loop seed delay rest count r
          else
            match save_page seed url (text resp) r with
            | None => (Failed, count, r)
            | Some (out_path, r) =>
                let count := (count + 1)%Z in
                let r :=
                  emit (EvSaved count url (hash_content (text resp)) out_path) r in
                sitemap_loop seed delay rest count (emit (EvSleep delay) r)
            end
      end
  end.

(** [crawl_sitemap_first(seed, out_dir, ...)] *)
Definition crawl_sitemap_first (seed : string) (r : Run) : Status * Z * Run :=
  match delay_of (rps cfg) with
  | None => (Failed, 0%Z, r)
  | Some delay =>
      let all_urls := sitemap_urls w seed in
      match all_urls with
      | [] => (Done, 0%Z, r)
      | _ =>
          match in_scope seed all_urls with
          | None => (Failed, 0%Z, r)
          | Some [] => (Done, 0%Z, r)
          | Some urls =>
              sitemap_loop seed delay urls 0
                (emit (EvSitemapFound (length urls) (length all_urls)) r)
          end
      end
  end.
End Crawl.

(** ** Harvest orchestrator *)

Section Main.
Variable w : World.
Variable cfg : Config.
Variable out_dir : Path.t.

(** the body of the [for seed in urls] loop of [main]: how it ended,
    the run, and [total_written] *)
Definition process_seed (fuel : nat) (seed : string) (r : Run) (total : Z)
  : Status * Run * Z :=
  match Url.urlparse seed with
  | None => (Failed, r, total)
  | Some parsed =>
      let domain :=
        if Url.nonempty (Url.netloc parsed) then Url.netloc parsed
        else "unknown" in
      let out_subdir := Path.join out_dir domain in
      if sitemap_only cfg
         && negb (bool_decide (is_Some (include_rx cfg)))
         && negb (bool_decide (is_Some (exclude_rx cfg)))
      then
        match crawl_sitemap_first w cfg out_subdir seed
                (emit (EvTrySitemap domain) r) with
        | (Failed, _, r) => (Failed, r, total)
        | (_, cnt, r) =>
            if (0 <? cnt)%Z then (Done, r, (total + cnt)%Z)
            else (Done, emit (EvNoSitemap domain) r, total)
        end
      else
        match crawl_with_frontier w cfg out_subdir fuel seed
                (emit (EvFallback domain) r) with
        | (Done, s) => (Done, run s, (total + pages s)%Z)
        | (st, s) => (st, run s, total)
        end
  end.

(** the loop of [main] over the seeds; [fuel] bounds every crawl *)
Fixpoint main_loop (fuel : nat) (seeds : list string) (r : Run) (total : Z)
  : Status * Run * Z :=
  match seeds with
  | [] => (Done, r, total)
  | seed :: rest =>
      match process_seed fuel seed r total with
      | (Done, r', total') => main_loop fuel rest r' total'
      | other => other
      end
  end.

Definition empty_run : Run :=
  {| disk := {| files := ∅; writes := [] |}; log := [] |}.

End Main.

End Digit.

(** ** A small instance of the library interface

    The examples below run the program on concrete inputs; they use this
    stand-in for the libraries.  A page body is read as the list of its
    link targets, separated by blanks; text is hashed to itself. *)

Definition demo_parse (html : string) : Dom.forest :=
  List.map (fun h => Dom.Elem "a" [("href", Dom.One h)] [])
           (List.filter Url.nonempty (Py.split " " html)).

Fixpoint demo_str (n : Dom.node) : string :=
  match n with
  | Dom.Str _ s => s
  | Dom.Elem t _ c =>
      "<" +:+ t +:+ ">" +:+ String.concat "" (List.map demo_str c)
      +:+ "</" +:+ t +:+ ">"
  end.

Definition demo_lib : Lib := {|
  bracketed_netloc_ok := fun _ => true;
  nfkc_netloc_ok := fun _ => true;
  sha1_hexdigest := fun s => s;
  bs_parse := demo_parse;
  bs_str := demo_str;
  h2t_handle := fun s => s |}.

(** a site of three pages under [https://x/docs/]; the second page and
    the third have the same body; [robots] is what asking for the robots
    file gives *)
Definition demo_page (body : string) : option Response :=
  Some {| status_code := 200; content_type := "text/html; charset=utf-8";
          text := body |}.

Definition demo_site (robots : RobotsFetch) : World := {|
  http_get := fun _ url =>
    if String.eqb url "https://x/docs/"
    then demo_page "a b#top https://x/docs/a https://x/blog/ mailto:me@x"
    else if String.eqb url "https://x/docs/a" then demo_page "b"
    else if String.eqb url "https://x/docs/b" then demo_page "b"
    else None;
  robots_fetch := fun _ => robots;
  sitemap_urls := fun _ => [];
  clock := fun n => (1700000000 + Z.of_nat n)%Z |}.

(** the site without a robots file (404) *)
Definition demo_world : World := demo_site (RobotsHTTPError 404).

Definition demo_config : Config := {|
  max_pages := 10000; depth_limit := 0; rps := QArith_base.Qmake 3 2;
  include_rx := None; exclude_rx := None; save_html := false;
  lang_hint := ""; format := "txt"; diff := false; sitemap_only := false |}.

(** ** A page with eleven code blocks

    [<main>] holds eleven times a paragraph [Step i] and a code block;
    the first ten blocks are shell lines, the last one is the Python
    block [foo / bar] of the specification. *)

Definition code_block (lang text : string) : Dom.node :=
  Dom.Elem "pre" []
    [Dom.Elem "code" [("class", Dom.Many ["language-" +:+ lang])]
       [Dom.Str true text]].

Definition step (i : nat) : Dom.node :=
  Dom.Elem "p" [] [Dom.Str true ("Step " +:+ Py.str_of_Z (Z.of_nat i))].

Definition python_block : Dom.node :=
  code_block "python" ("foo" +:+ nl +:+ "  bar").

Definition eleven_blocks : Dom.forest :=
  List.concat
    (List.map (fun i => [step i; code_block "bash" ("echo " +:+ Py.str_of_Z (Z.of_nat i))])
              (seq 0 10))
  ++ [step 10; python_block].

Definition eleven_page : Dom.forest :=
  [Dom.Elem "html" []
     [Dom.Elem "head" [] [Dom.Elem "title" [] [Dom.Str true "Steps"]];
      Dom.Elem "body" [] [Dom.Elem "main" [] eleven_blocks]]].

(** [<main>] once the code blocks have made room for their placeholders *)
Definition eleven_main_fenced : Dom.node :=
  Dom.Elem "main" []
    (List.concat
       (List.map (fun i => [step i; Dom.Str true (placeholder i)]) (seq 0 11))).

(** the text a converter makes of it: one block per paragraph and per
    placeholder, a blank line after each *)
Definition eleven_markdown : string :=
  String.concat ""
    (List.map (fun i => "Step " +:+ Py.str_of_Z (Z.of_nat i) +:+ nl +:+ nl
                        +:+ placeholder i +:+ nl +:+ nl)
              (seq 0 11)).

(** the libraries on that page: the parser returns the tree, the
    converter the text *)
Definition eleven_lib : Lib := {|
  bracketed_netloc_ok := fun _ => true;
  nfkc_netloc_ok := fun _ => true;
  sha1_hexdigest := fun s => s;
  bs_parse := fun _ => eleven_page;
  bs_str := demo_str;
  h2t_handle := fun _ => eleven_markdown |}.

(** ** A page with one code block: the Python block after a paragraph *)

Definition single_page : Dom.forest :=
  [Dom.Elem "html" []
     [Dom.Elem "head" [] [Dom.Elem "title" [] [Dom.Str true "Steps"]];
      Dom.Elem "body" [] [Dom.Elem "main" [] [step 0; python_block]]]].

Definition single_main_fenced : Dom.node :=
  Dom.Elem "main" [] [step 0; Dom.Str true (placeholder 0)].

Definition single_markdown : string :=
  "Step 0" +:+ nl +:+ nl +:+ placeholder 0 +:+ nl +:+ nl.

(** ** More of the program: what a log shows of the rate limit *)

(** the delays of the [time.sleep] calls of a log *)
Definition sleeps (evs : list Event) : list QArith_base.Q :=
  omap (fun e => match e with EvSleep d => Some d | _ => None end) evs.

(** the pages of a log that went to the writer *)
Definition saved_urls (evs : list Event) : list string :=
  omap (fun e => match e with EvSaved _ u _ _ => Some u | _ => None end) evs.

(** ** [xml.etree.ElementTree] elements *)

Module Xml.

(** an element: its tag (with the namespace in braces in front), its
    text, its children *)
#[warnings="-register-all"]
Inductive elem := Elem (tag : string) (text : option string) (children : list elem).

Definition tag_of (e : elem) : string := let 'Elem t _ _ := e in t.
Definition text_of (e : elem) : option string := let 'Elem _ x _ := e in x.
Definition children_of (e : elem) : list elem := let 'Elem _ _ c := e in c.

(** the test of the path step [{*}name]: the tag in any namespace or
    in none *)
Definition any_ns (name : string) (e : elem) : bool :=
  String.eqb (tag_of e) name || Py.endswith ("}" +:+ name) (tag_of e).

(** [e.findall("{*}a/{*}b")] *)
Definition findall2 (a b : string) (e : elem) : list elem :=
  flat_map (fun c => List.filter (any_ns b) (children_of c))
           (List.filter (any_ns a) (children_of e)).

End Xml.

(** ** Sitemap discoverer *)

Section Sitemap.
Context `{Lib}.

(** [ET.fromstring]; [None] when it raises *)
Variable fromstring : string -> option Xml.elem.
(** [client.get(url)] as the [n]-th request of the client; [None] when
    it raises *)
Variable get : nat -> string -> option Response.

(** the loop [for u in root.findall("{*}url/{*}loc"): if u.text: yield
    u.text.strip()] *)
Definition locs (root : Xml.elem) : list string :=
  omap (fun u => match Xml.text_of u with
                 | Some t => if Url.nonempty t then Some (Py.strip Py.isspace t)
                             else None
                 | None => None
                 end)
       (Xml.findall2 "url" "loc" root).

(** the loop over the entries of a sitemap index; the result carries
    the number of requests made so far *)
Fixpoint index_urls (sms : list Xml.elem) (n : nat) : list string * nat :=
  match sms with
  | [] => ([], n)
  | sm :: rest =>
      let loc :=
        match Xml.text_of sm with
        | Some t => if Url.nonempty t then Py.strip Py.isspace t else ""
        | None => ""
        end in
      if negb (Url.nonempty loc) then index_urls rest n
      else
        let found :=
          match get n loc with
          | Some r =>
              if (status_code r =? 200)%Z then
                match fromstring (text r) with
                | Some rroot => locs rroot
                | None => []
                end
              else []
          | None => []
          end in
        let '(more, n') := index_urls rest (S n) in
        (found ++ more, n')
  end.

(** the body of the loop over the candidate locations *)
Definition sitemap_at (sm_url : string) (n : nat) : list string * nat :=
  match get n sm_url with
  | None => ([], S n)
  | Some resp =>
      if negb (status_code resp =? 200)%Z
         || negb (Py.contains "xml" (content_type resp))
      then ([], S n)
      else
        match fromstring (text resp) with
        | None => ([], S n)
        | Some root =>
            if Py.endswith "sitemapindex" (Xml.tag_of root)
            then index_urls (Xml.findall2 "sitemap" "loc" root) (S n)
            else if Py.endswith "urlset" (Xml.tag_of root)
            then (locs root, S n)
            else ([], S n)
        end
  end.

(** [list(iter_sitemap_urls(seed))] for a client that has made [n]
    requests, and the number of requests afterwards; [None] when
    [urljoin] raises *)
Definition iter_sitemap_urls (seed : string) (n : nat)
  : option (list string * nat) :=
  c1 ← Url.urljoin seed "/sitemap.xml";
  c2 ← Url.urljoin seed "sitemap.xml";
  let '(l1, n1) := sitemap_at c1 n in
  let '(l2, n2) := sitemap_at c2 n1 in
  Some (l1 ++ l2, n2).

End Sitemap.

(** ** The list of seeds of [main] *)

(** the lines a text file iterates over: each ends with its newline,
    but for a last line without one *)
Fixpoint file_lines_from (s cur : string) : list string :=
  match s with
  | "" => if Url.nonempty cur then [Py.rev cur] else []
  | String a s' =>
      if (Py.code a =? 10)%nat then Py.rev (String a cur) :: file_lines_from s' ""
      else file_lines_from s' (String a cur)
  end.

Definition file_lines (s : string) : list string := file_lines_from s "".

(** [[line.strip() for line in f if line.strip()]] for a file that holds
    [stored] *)
Definition urls_of_file (stored : string) : list string :=
  omap (fun line =>
          let s := Py.strip Py.isspace line in
          if Url.nonempty s then Some s else None)
       (file_lines (read_text stored)).

(** ** More small instances *)

(** the three-page site with a sitemap that lists one page twice and a
    page out of scope, and a robots file that cannot be retrieved *)
Definition sitemap_site : World := {|
  http_get := http_get demo_world;
  robots_fetch := fun _ => RobotsUnreachable;
  sitemap_urls := fun _ =>
    ["https://x/docs/a"; "https://x/blog/"; "https://x/docs/b"; "https://x/docs/a"];
  clock := clock demo_world |}.

(** the configuration of the examples with a rate of 0 *)
Definition zero_rate_config : Config := {|
  max_pages := 10000; depth_limit := 0; rps := QArith_base.Qmake 0 1;
  include_rx := None; exclude_rx := None; save_html := false;
  lang_hint := ""; format := "txt"; diff := false; sitemap_only := false |}.

(** a site that serves one sitemap at [/sitemap.xml]; the parser knows
    that one document *)
Definition demo_fromstring (s : string) : option Xml.elem :=
  if String.eqb s "<urlset/>" then
    Some (Xml.Elem "{http://www.sitemaps.org/schemas/sitemap/0.9}urlset" None
            [Xml.Elem "{http://www.sitemaps.org/schemas/sitemap/0.9}url" None
               [Xml.Elem "{http://www.sitemaps.org/schemas/sitemap/0.9}loc"
                  (Some (" https://x/docs/a" +:+ nl)) []]])
  else None.

Definition demo_sitemap_get (n : nat) (u : string) : option Response :=
  if String.eqb u "https://x/sitemap.xml"
  then Some {| status_code := 200; content_type := "application/xml";
               text := "<urlset/>" |}
  else None.

(** * Properties *)

(** ** Facts about the string methods *)

Module PyFacts.
Import Py.

Lemma app_cons a s t : String a s +:+ t = String a (s +:+ t).
Proof. reflexivity. Qed.

Lemma app_nil_r s : s +:+ "" = s.
Proof. induction s as [|a s IH]; [done|]. by rewrite app_cons, IH. Qed.

Lemma app_assoc s t u : (s +:+ t) +:+ u = s +:+ (t +:+ u).
Proof. induction s as [|a s IH]; [done|]. by rewrite !app_cons, IH. Qed.

Lemma len_app s t : len (s +:+ t) = len s + len t.
Proof. induction s as [|a s IH]; [done|]. rewrite app_cons. unfold len in *. cbn. by rewrite IH. Qed.

Lemma rev_onto_app s acc : rev_onto s acc = rev s +:+ acc.
Proof.
  revert acc. induction s as [|a s IH]; intros acc; [done|].
  unfold rev. cbn. rewrite (IH (String a "")), IH, app_assoc. done.
Qed.

Lemma rev_cons a s : rev (String a s) = rev s +:+ String a "".
Proof. unfold rev at 1. cbn. apply rev_onto_app. Qed.

Lemma rev_app s t : rev (s +:+ t) = rev t +:+ rev s.
Proof.
  induction s as [|a s IH]; [by rewrite app_nil_r|].
  rewrite app_cons, !rev_cons, IH, app_assoc. done.
Qed.

Lemma rev_involutive s : rev (rev s) = s.
Proof.
  induction s as [|a s IH]; [done|].
  rewrite rev_cons, rev_app, IH. done.
Qed.

Lemma len_rev s : len (rev s) = len s.
Proof.
  induction s as [|a s IH]; [done|].
  rewrite rev_cons, len_app, IH. unfold len. cbn. lia.
Qed.

Lemma take_drop n s : take n s +:+ drop n s = s.
Proof.
  revert s. induction n as [|n IH]; intros [|a s]; try done.
  cbn. by rewrite app_cons, IH.
Qed.

Lemma take_app s t : take (len s) (s +:+ t) = s.
Proof. unfold len. induction s as [|a s IH]; [by destruct t|]. rewrite app_cons. cbn. by rewrite IH. Qed.

Lemma drop_app s t : drop (len s) (s +:+ t) = t.
Proof. unfold len. induction s as [|a s IH]; [by destruct t|]. rewrite app_cons. cbn. by rewrite IH. Qed.

Lemma len_drop n s : len (drop n s) = len s - n.
Proof. unfold len. revert s. induction n as [|n IH]; intros [|a s]; try done. cbn. apply IH. Qed.

Lemma drop_last_app s t : drop_last (len t) (s +:+ t) = s.
Proof.
  unfold drop_last. rewrite len_app.
  replace (len s + len t - len t) with (len s) by lia. apply take_app.
Qed.

Lemma startswith_app p s : startswith p (p +:+ s) = true.
Proof.
  induction p as [|a p IH]; [done|]. rewrite app_cons. cbn.
  by rewrite Ascii.eqb_refl, IH.
Qed.

Lemma startswith_inv p s : startswith p s = true -> exists t, s = p +:+ t.
Proof.
  revert s. induction p as [|a p IH]; intros s Hs; [by exists s|].
  destruct s as [|b s]; [done|]. cbn in Hs.
  apply andb_true_iff in Hs as [Hab Hs]. apply Ascii.eqb_eq in Hab as ->.
  destruct (IH _ Hs) as [t ->]. by exists t.
Qed.

Lemma startswith_trans p q s :
  startswith p q = true -> startswith q s = true -> startswith p s = true.
Proof.
  intros [t ->]%startswith_inv [u ->]%startswith_inv.
  rewrite app_assoc. apply startswith_app.
Qed.

Lemma endswith_app p s : endswith p (s +:+ p) = true.
Proof.
  unfold endswith. rewrite len_app.
  replace (len s + len p - len p) with (len s) by lia.
  rewrite drop_app, String.eqb_refl.
  apply andb_true_iff; split; [|done]. apply Nat.leb_le. lia.
Qed.

Lemma endswith_inv p s : endswith p s = true -> exists t, s = t +:+ p.
Proof.
  unfold endswith. intros [_ Heq%String.eqb_eq]%andb_true_iff.
  exists (take (len s - len p) s).
  rewrite <- (take_drop (len s - len p) s) at 1. by rewrite Heq.
Qed.

(** the last character decides [endswith] on a one-character suffix *)
Lemma endswith_rev p s : endswith p s = startswith (rev p) (rev s).
Proof.
  destruct (endswith p s) eqn:E.
  - apply endswith_inv in E as [t ->]. rewrite rev_app.
    symmetry. apply startswith_app.
  - destruct (startswith (rev p) (rev s)) eqn:E'; [|done].
    apply startswith_inv in E' as [t Ht].
    assert (s = rev t +:+ p) as ->.
    { rewrite <- (rev_involutive s), Ht, rev_app, rev_involutive. done. }
    by rewrite endswith_app in E.
Qed.

End PyFacts.

(** ** Path resolver *)

Section PathResolver.
Context `{Lib}.
Import PyFacts.

Lemma flatten_index_plain root_path path :
  Py.endswith "/index" path = false -> flatten_index root_path path = path.
Proof. unfold flatten_index. by intros ->. Qed.

Lemma ends_index_html q :
  Py.endswith "/" (q +:+ "/index.html") = false
  /\ Py.endswith ".html" (q +:+ "/index.html") = true
  /\ Url.nonempty (q +:+ "/index.html") = true
  /\ Py.drop_last 5 (q +:+ "/index.html") = q +:+ "/index".
Proof.
  repeat split.
  - rewrite endswith_rev, rev_app. done.
  - change "/index.html" with ("/index" +:+ ".html").
    rewrite <- app_assoc. apply endswith_app.
  - by destruct q.
  - change "/index.html" with ("/index" +:+ ".html").
    rewrite <- app_assoc. apply (drop_last_app _ ".html").
Qed.

Lemma ends_index q :
  Py.endswith "/" (q +:+ "/index") = false
  /\ Py.endswith ".html" (q +:+ "/index") = false
  /\ Url.nonempty (q +:+ "/index") = true.
Proof.
  repeat split.
  - rewrite endswith_rev, rev_app. done.
  - rewrite endswith_rev, rev_app. done.
  - by destruct q.
Qed.

(** the resolver's steps before sanitization, on a folder index page *)
Lemma slugify_path_index base root page lang fmt a b q :
  Url.urlparse root = Some a -> Url.urlparse page = Some b ->
  (Url.path b = q +:+ "/" \/ Url.path b = q +:+ "/index" \/ Url.path b = q +:+ "/index.html") ->
  slugify_path base root page lang fmt =
  Some (Path.join base
          (Py.strip (Py.eqc "/")
             (sanitize (flatten_index (Url.path a) (q +:+ "/index")))
           +:+ (if String.eqb fmt "md" then ".md" else "." +:+ fmt))).
Proof.
  intros Ha Hb Hq. unfold slugify_path. rewrite Ha, Hb.
  cbn [mbind option_bind]. cbv zeta.
  destruct (ends_index q) as (I1 & I2 & I3).
  destruct Hq as [Hq | [Hq | Hq]]; rewrite Hq.
  - rewrite (endswith_app "/" q). cbv iota.
    change "/index" with ("/" +:+ "index"). rewrite <- app_assoc.
    change ("/" +:+ "index") with "/index".
    rewrite (app_assoc q "/" "index"). change ("/" +:+ "index") with "/index".
    rewrite I3. cbn [negb]. cbv iota. by rewrite I2.
  - rewrite I1. cbv iota. rewrite I3. cbn [negb]. cbv iota. by rewrite I2.
  - destruct (ends_index_html q) as (E1 & E2 & E3 & E4).
    rewrite E1. cbv iota. rewrite E3. cbn [negb]. cbv iota.
    by rewrite E2, E4.
Qed.

Lemma flatten_index_folder root_path_raw q :
  flatten_index root_path_raw (q +:+ "/index") =
  let root_path := Py.rstrip (Py.eqc "/") root_path_raw in
  if String.eqb q root_path || String.eqb q (root_path +:+ "/")
  then q +:+ "/index"
  else if String.eqb q "" || String.eqb q "/" then "index" else q.
Proof.
  unfold flatten_index. rewrite endswith_app.
  assert (Py.drop_last 6 (q +:+ "/index") = q) as ->
    by apply (drop_last_app q "/index").
  cbv zeta. unfold Url.nonempty. by rewrite negb_involutive.
Qed.

(** every path is empty, names a folder index, is a page with the
    [.html] suffix, or is plain *)
Lemma path_kinds p :
  p = ""
  \/ (exists q, p = q +:+ "/" \/ p = q +:+ "/index" \/ p = q +:+ "/index.html")
  \/ (exists q, p = q +:+ ".html" /\ Py.endswith "/index" q = false)
  \/ (p <> "" /\ Py.endswith "/" p = false
      /\ Py.endswith ".html" p = false /\ Py.endswith "/index" p = false).
Proof.
  destruct (String.eqb_spec p "") as [->|Hne]; [by left|right].
  destruct (Py.endswith "/" p) eqn:E1.
  { left. apply endswith_inv in E1 as [q ->]. exists q. by left. }
  destruct (Py.endswith ".html" p) eqn:E2.
  { apply endswith_inv in E2 as [q ->].
    destruct (Py.endswith "/index" q) eqn:E3.
    - left. apply endswith_inv in E3 as [q' ->]. exists q'.
      right; right. by rewrite app_assoc.
    - right; left. by exists q. }
  destruct (Py.endswith "/index" p) eqn:E3.
  { left. apply endswith_inv in E3 as [q ->]. exists q. right; by left. }
  right; right. done.
Qed.

(** C2 (as amended): for every page URL the path resolver keeps the
    page URL's whole path component; the scope root's path is not
    taken off, it only decides whether a folder index is flattened.
    Every URL path is of one of four kinds, and each kind has its
    result.  The empty path gives [index].  A path that names the index
    page of a folder [q] (it ends with a slash, with [/index] or with
    [/index.html]) gives the folder's site path [q], or [index] for the
    top folder; but when [q] is the path of the scope root, the page
    keeps the leaf [index] under [q].  A page [q.html] gives [q], and
    any other path gives itself.  In particular, with root
    [https://x/docs/] the page [https://x/docs/guide/index.html]
    resolves to [docs/guide.md] (leaf [guide]) and
    [https://x/docs/index.html] to [docs/index.md] (leaf [index]). *)
Theorem slugify_path_keeps_site_path base root page lang fmt a b :
  Url.urlparse root = Some a ->
  Url.urlparse page = Some b ->
  let root_path := Py.rstrip (Py.eqc "/") (Url.path a) in
  let p := Url.path b in
  let out rel :=
    Some (Path.join base
            (Py.strip (Py.eqc "/") (sanitize rel)
             +:+ (if String.eqb fmt "md" then ".md" else "." +:+ fmt))) in
  let folder_index q :=
    p = q +:+ "/" \/ p = q +:+ "/index" \/ p = q +:+ "/index.html" in
  (p = ""
   \/ (exists q, folder_index q)
   \/ (exists q, p = q +:+ ".html" /\ Py.endswith "/index" q = false)
   \/ (p <> "" /\ Py.endswith "/" p = false
       /\ Py.endswith ".html" p = false /\ Py.endswith "/index" p = false))
  /\ (p = "" -> slugify_path base root page lang fmt = out "index")
  /\ (forall q,
        folder_index q ->
        (q = root_path \/ q = root_path +:+ "/" ->
         slugify_path base root page lang fmt = out (q +:+ "/index"))
        /\ (q <> root_path -> q <> root_path +:+ "/" ->
            slugify_path base root page lang fmt
            = out (if String.eqb q "" || String.eqb q "/" then "index" else q)))
  /\ (forall q,
        p = q +:+ ".html" -> Py.endswith "/index" q = false ->
        slugify_path base root page lang fmt = out q)
  /\ (p <> "" -> Py.endswith "/" p = false ->
      Py.endswith ".html" p = false -> Py.endswith "/index" p = false ->
      slugify_path base root page lang fmt = out p)
  /\ slugify_path base "https://x/docs/" "https://x/docs/guide/index.html" lang "md"
     = Some (base ++ ["docs"; "guide.md"])
  /\ slugify_path base "https://x/docs/" "https://x/docs/index.html" lang "md"
     = Some (base ++ ["docs"; "index.md"]).
Proof.
  intros Ha Hb root_path p out folder_index. split_and!.
  - apply path_kinds.
  - intros Hp. unfold slugify_path, out. rewrite Ha, Hb.
    cbn [mbind option_bind]. cbv zeta. fold p. rewrite Hp. done.
  - intros q Hq.
    rewrite (slugify_path_index _ _ _ _ _ a b q) by done.
    rewrite flatten_index_folder. cbv zeta. fold root_path. unfold out.
    split.
    + intros [-> | ->].
      * by rewrite String.eqb_refl.
      * rewrite (String.eqb_refl (root_path +:+ "/")). by rewrite orb_true_r.
    + intros N1 N2.
      destruct (String.eqb_spec q root_path); [done|].
      destruct (String.eqb_spec q (root_path +:+ "/")); [done|]. done.
  - intros q Hp Hq. unfold slugify_path, out. rewrite Ha, Hb.
    cbn [mbind option_bind]. cbv zeta. fold p. rewrite Hp.
    assert (Py.endswith "/" (q +:+ ".html") = false) as ->
      by (rewrite endswith_rev, rev_app; done).
    cbv iota.
    assert (Url.nonempty (q +:+ ".html") = true) as -> by (by destruct q).
    cbn [negb]. cbv iota. rewrite (endswith_app ".html" q).
    assert (Py.drop_last 5 (q +:+ ".html") = q) as ->
      by apply (drop_last_app q ".html").
    by rewrite flatten_index_plain.
  - intros H0 H1 H3 H4. unfold slugify_path, out. rewrite Ha, Hb.
    cbn [mbind option_bind]. cbv zeta. fold p.
    rewrite H1. cbv iota.
    assert (Url.nonempty p = true) as ->
      by (unfold Url.nonempty; by destruct (String.eqb_spec p "")).
    cbn [negb]. cbv iota. rewrite H3.
    by rewrite flatten_index_plain.
  - vm_compute. reflexivity.
  - vm_compute. reflexivity.
Qed.

End PathResolver.

(** C2, witness: the scope root [https://x/docs/] and the folder index
    [https://x/docs/guide/index.html]. *)
Lemma slugify_path_keeps_site_path_witness :
  @slugify_path demo_lib ["out"] "https://x/docs/" "https://x/docs/guide/index.html" "" "md"
  = Some ["out"; "docs"; "guide.md"].
Proof.
  assert (@Url.urlparse demo_lib "https://x/docs/"
          = Some {| Url.scheme := "https"; Url.netloc := "x"; Url.path := "/docs/";
                    Url.params := ""; Url.query := ""; Url.fragment := "" |}) as Ha
    by (vm_compute; reflexivity).
  assert (@Url.urlparse demo_lib "https://x/docs/guide/index.html"
          = Some {| Url.scheme := "https"; Url.netloc := "x";
                    Url.path := "/docs/guide/index.html";
                    Url.params := ""; Url.query := ""; Url.fragment := "" |}) as Hb
    by (vm_compute; reflexivity).
  destruct (@slugify_path_keeps_site_path demo_lib ["out"] _ _ "" "md" _ _ Ha Hb)
    as (_ & _ & Hfold & _).
  destruct (Hfold "/docs/guide") as [_ Hflat].
  { right; right. vm_compute. reflexivity. }
  rewrite Hflat;
    [vm_compute; reflexivity | vm_compute; discriminate | vm_compute; discriminate].
Defined.

(** C2, counterexample: relative to the scope root [https://x/docs/] the
    page [https://x/docs/guide/index.html] is [guide/index.html], which
    flattens to [guide.md]; the resolver returns [docs/guide.md]. *)
Lemma slugify_path_not_relative :
  @slugify_path demo_lib ["out"] "https://x/docs/" "https://x/docs/guide/index.html" "" "md"
  <> Some (Path.join ["out"] "guide.md").
Proof. vm_compute. intros E. inversion E. Qed.

(** ** Output writer *)

Section OutputWriter.
Context `{Lib}.

(** a text without carriage returns reads back as it was written *)
Lemma read_text_no_cr s : Py.has "013" s = false -> read_text s = s.
Proof.
  unfold read_text. induction s as [|a s IH]; intros Hs; [done|].
  cbn in Hs. apply orb_false_iff in Hs as [Ha Hs].
  cbn [read_text_from].
  assert ((Py.code a =? 13)%nat = false) as ->.
  { apply Nat.eqb_neq. intros E. unfold Py.code in E.
    apply Ascii.eqb_neq in Ha. apply Ha.
    rewrite <- (ascii_nat_embedding a), E. reflexivity. }
  rewrite andb_false_r. by rewrite IH.
Qed.

(** the serialization depends on the clock for [md] and [json] only *)
Lemma final_content_clock content meta fmt html_cleaned t1 t2 :
  (String.eqb fmt "md" = false /\ String.eqb fmt "json" = false) \/ t1 = t2 ->
  final_content content meta fmt html_cleaned t1
  = final_content content meta fmt html_cleaned t2.
Proof.
  intros [[Hmd Hjson] | ->]; [|done].
  unfold final_content. by rewrite Hmd, Hjson.
Qed.

Lemma write_output_cases d p content meta fmt html_cleaned diff t :
  let final := final_content content meta fmt html_cleaned t in
  let d' := write_output d p content meta fmt html_cleaned diff t in
  (d' = d /\ diff = true /\
   exists old, files d !! p = Some old
               /\ hash_content (read_text old) = hash_content final)
  \/ (files d' = <[p := final]> (files d)
      /\ writes d' = writes d ++ [(p, final)]).
Proof.
  cbv zeta. unfold write_output.
  destruct (files d !! p) as [old|] eqn:Hold; [|by right].
  destruct diff; cbn [andb]; [|by right].
  destruct (String.eqb_spec (hash_content (read_text old))
              (hash_content (final_content content meta fmt html_cleaned t)));
    [left; eauto|by right].
Qed.

(** what does hold of two runs: for the formats whose serialization
    carries no capture time ([txt], [html]), or when both runs read the
    same clock second, writing the same page twice changes nothing the
    second time: the files after the second run are the files after
    the first; without diff mode both runs write the same content to
    the same path; with diff mode, if the serialization has no
    carriage return, the second run writes nothing. *)
Lemma write_output_twice d p content meta fmt html_cleaned diff t1 t2 :
  (String.eqb fmt "md" = false /\ String.eqb fmt "json" = false) \/ t1 = t2 ->
  let final := final_content content meta fmt html_cleaned t1 in
  let d1 := write_output d p content meta fmt html_cleaned diff t1 in
  let d2 := write_output d1 p content meta fmt html_cleaned diff t2 in
  files d2 = files d1
  /\ (diff = false ->
      writes d1 = writes d ++ [(p, final)]
      /\ writes d2 = writes d1 ++ [(p, final)])
  /\ (diff = true -> Py.has "013" final = false -> writes d2 = writes d1).
Proof.
  intros Hfmt final d1 d2.
  pose proof (final_content_clock content meta fmt html_cleaned t1 t2 Hfmt) as Hfinal.
  assert (d2 = write_output d1 p content meta fmt html_cleaned diff t1) as ->.
  { unfold d2, write_output. by rewrite Hfinal. }
  clear Hfinal.
  destruct (write_output_cases d p content meta fmt html_cleaned diff t1)
    as [(E1 & Hdiff & old & Hold & Hh) | [Hf1 Hw1]].
  - (* the first run left the file alone: the second sees the same disk *)
    unfold d1. rewrite !E1.
    split; [done|split; [intros; congruence|done]].
  - change (files d1 = <[p:=final]> (files d)) in Hf1.
    change (writes d1 = writes d ++ [(p, final)]) in Hw1.
    assert (files d1 !! p = Some final) as Hp
      by (rewrite Hf1; apply lookup_insert_eq).
    destruct (write_output_cases d1 p content meta fmt html_cleaned diff t1)
      as [(E2 & Hdiff & _) | [Hf2 Hw2]].
    + rewrite E2. split; [done|split; [intros; congruence|done]].
    + change (files (write_output d1 p content meta fmt html_cleaned diff t1)
              = <[p:=final]> (files d1)) in Hf2.
      change (writes (write_output d1 p content meta fmt html_cleaned diff t1)
              = writes d1 ++ [(p, final)]) in Hw2.
      split; [|split; [done|]].
      * rewrite Hf2, Hf1. apply insert_insert_eq.
      * intros -> Hcr. unfold write_output at 1. fold final.
        rewrite Hp, (read_text_no_cr _ Hcr), String.eqb_refl. done.
Qed.

(** C3 (the code differs): diff mode is meant to skip a page that has
    not changed.  The same page (same content, metadata and cleaned
    HTML) is written twice under diff mode into a folder that did not
    hold it, the second time at another clock reading.  When the two
    serializations hash differently, as they do for [md] and [json],
    which carry the capture time, the second run does not skip: it
    writes the file again, and the file then holds the second
    serialization. *)
Theorem diff_mode_rewrites_unchanged_page d p content meta fmt html_cleaned t1 t2 :
  let final1 := final_content content meta fmt html_cleaned t1 in
  let final2 := final_content content meta fmt html_cleaned t2 in
  let d1 := write_output d p content meta fmt html_cleaned true t1 in
  let d2 := write_output d1 p content meta fmt html_cleaned true t2 in
  files d !! p = None ->
  hash_content (read_text final1) <> hash_content final2 ->
  writes d1 = writes d ++ [(p, final1)]
  /\ writes d2 = writes d1 ++ [(p, final2)]
  /\ files d1 !! p = Some final1
  /\ files d2 !! p = Some final2.
Proof.
  intros final1 final2 d1 d2 Hnew Hhash.
  assert (d1 = {| files := <[p := final1]> (files d);
                  writes := writes d ++ [(p, final1)] |}) as Hd1.
  { unfold d1, write_output. by rewrite Hnew. }
  assert (files d1 !! p = Some final1) as Hp
    by (rewrite Hd1; apply lookup_insert_eq).
  assert (d2 = {| files := <[p := final2]> (files d1);
                  writes := writes d1 ++ [(p, final2)] |}) as Hd2.
  { unfold d2, write_output. rewrite Hp. cbn [andb]. fold final2.
    by destruct (String.eqb_spec (hash_content (read_text final1))
                   (hash_content final2)). }
  split_and!.
  - by rewrite Hd1.
  - by rewrite Hd2.
  - done.
  - rewrite Hd2. apply lookup_insert_eq.
Qed.

End OutputWriter.

(** a [txt] page written twice under diff mode at different times: the
    second run writes nothing *)
Lemma write_output_twice_witness :
  let d := {| files := ∅; writes := [] |} in
  let meta := {| title := "T"; url := "https://x/docs/a" |} in
  let d1 := @write_output demo_lib d ["out"; "a.txt"] "hello" meta "txt" "" true 100 in
  let d2 := @write_output demo_lib d1 ["out"; "a.txt"] "hello" meta "txt" "" true 101 in
  writes d2 = writes d1.
Proof.
  intros d meta d1 d2.
  apply (@write_output_twice demo_lib d ["out"; "a.txt"] "hello" meta "txt" ""
           true 100 101).
  - left. split; vm_compute; reflexivity.
  - reflexivity.
  - vm_compute. reflexivity.
Defined.

(** C3, witness: the default format [md] under diff mode, the second run
    one second after the first.  The serialization holds the capture
    time, so the hashes differ: the page has not changed, and the second
    run writes the file again, with another content. *)
Lemma diff_mode_rewrites_unchanged_page_witness :
  let d := {| files := ∅; writes := [] |} in
  let meta := {| title := "T"; url := "https://x/docs/a" |} in
  let final1 := final_content "hello" meta "md" "" 100 in
  let final2 := final_content "hello" meta "md" "" 101 in
  let d1 := @write_output demo_lib d ["out"; "a.md"] "hello" meta "md" "" true 100 in
  let d2 := @write_output demo_lib d1 ["out"; "a.md"] "hello" meta "md" "" true 101 in
  (writes d1 = writes d ++ [(["out"; "a.md"], final1)]
   /\ writes d2 = writes d1 ++ [(["out"; "a.md"], final2)]
   /\ files d1 !! ["out"; "a.md"] = Some final1
   /\ files d2 !! ["out"; "a.md"] = Some final2)
  /\ final1 <> final2.
Proof.
  intros d meta final1 final2 d1 d2. split.
  - apply (@diff_mode_rewrites_unchanged_page demo_lib d ["out"; "a.md"] "hello"
             meta "md" "" 100 101).
    + reflexivity.
    + vm_compute. discriminate.
  - vm_compute. discriminate.
Defined.

(** ** Frontier crawler: the shape of a session *)

Section Frontier.
Context `{Lib}.
Variable w : World.
Variable cfg : Config.
Variable out_dir : Path.t.

Lemma enqueue_links_spec base url depth hrefs s st s' :
  enqueue_links base url depth hrefs s = (st, s') ->
  exists new,
    queue s' = queue s ++ new
    /\ log (run s') = log (run s) ++ List.map enq new
    /\ disk (run s') = disk (run s)
    /\ seen s' = seen s /\ saved_hashes s' = saved_hashes s
    /\ pages s' = pages s
    /\ st <> Done
    /\ Forall (from_link base url depth hrefs) new.
Proof.
  revert s. induction hrefs as [|href rest IH]; intros s Hrun; cbn in Hrun.
  - inversion Hrun; subst. exists []. rewrite !app_nil_r. by repeat split.
  - assert (forall s0, enqueue_links base url depth rest s0 = (st, s') ->
              exists new, queue s' = queue s0 ++ new
                /\ log (run s') = log (run s0) ++ List.map enq new
                /\ disk (run s') = disk (run s0)
                /\ seen s' = seen s0 /\ saved_hashes s' = saved_hashes s0
                /\ pages s' = pages s0 /\ st <> Done
                /\ Forall (from_link base url depth (href :: rest)) new)
      as IH'.
    { intros s0 H0. destruct (IH _ H0) as (new & ? & ? & ? & ? & ? & ? & ? & Hall).
      exists new. repeat split; try done.
      eapply Forall_impl; [exact Hall|].
      intros e (? & ? & ? & h & ? & ?). repeat split; try done.
      exists h. split; [by right|done]. }
    destruct (normalize_url url href) as [[nxt|]|] eqn:Hn.
    + destruct (Url.nonempty nxt) eqn:Hne; cbn [negb] in Hrun; [|by apply IH'].
      destruct (same_scope base nxt) as [[|]|] eqn:Hsc.
      * destruct (IH' _ Hrun) as (new & Hq & Hl & Hd & ? & ? & ? & ? & Hall).
        exists ((nxt, (depth + 1)%Z) :: new). cbn in *.
        rewrite Hq, Hl, <- !app_assoc. repeat split; try done.
        constructor; [|done]. unfold from_link. cbn. repeat split; try done.
        exists href. split; [by left|done].
      * by apply IH'.
      * inversion Hrun; subst. exists []. rewrite !app_nil_r. by repeat split.
    + by apply IH'.
    + inversion Hrun; subst. exists []. rewrite !app_nil_r. by repeat split.
Qed.

(** what one visit does to the session *)
Lemma visit_shape base rp delay url depth s st s' :
  visit w cfg out_dir base rp delay url depth s = (st, s') ->
  (url ∈ seen s /\ s' = s /\ st = Running)
  \/ ((url ∉ seen s) /\ seen s' = {[url]} ∪ seen s /\ st <> Done /\
      ((* no request *)
       (run s' = run s /\ queue s' = queue s
        /\ saved_hashes s' = saved_hashes s /\ pages s' = pages s)
       \/ (* a request, and nothing goes to the writer *)
       (run s' = emit (EvGet url) (run s) /\ queue s' = queue s
        /\ saved_hashes s' = saved_hashes s /\ pages s' = pages s)
       \/ (* a request, a page for the writer, its links *)
       (exists resp out_path r1 new tail,
          Robots.can_fetch rp url = Some true
          /\ http_get w (instant (run s)) url = Some resp
          /\ is_html_page resp = true
          /\ (hash_content (text resp) ∉ saved_hashes s)
          /\ save_page w cfg out_dir base url (text resp)
               (emit (EvGet url) (run s)) = Some (out_path, r1)
          /\ saved_hashes s' = {[hash_content (text resp)]} ∪ saved_hashes s
          /\ pages s' = (pages s + 1)%Z
          /\ queue s' = queue s ++ new
          /\ disk (run s') = disk r1
          /\ log (run s') =
               log (run s)
               ++ [EvGet url;
                   EvSaved (pages s + 1) url (hash_content (text resp)) out_path]
               ++ List.map enq new ++ tail
          /\ (tail = [EvSleep delay] \/ tail = [])
          /\ Forall (from_link base url depth (hrefs_of (text resp))) new))).
Proof.
  unfold visit. intros Hv.
  destruct (bool_decide (url ∈ seen s)) eqn:Hseen.
  { apply bool_decide_eq_true in Hseen. inversion Hv; subst. by left. }
  apply bool_decide_eq_false in Hseen. right.
  split; [done|].
  destruct (Robots.can_fetch rp url) as [[|]|] eqn:Hrp;
    [|inversion Hv; subst; repeat split; try done; left; done..].
  destruct (match include_rx cfg with Some rx => negb (rx url) | None => false end);
    [inversion Hv; subst; repeat split; try done; left; done|].
  destruct (match exclude_rx cfg with Some rx => rx url | None => false end);
    [inversion Hv; subst; repeat split; try done; left; done|].
  cbn [run mark_seen with_run] in Hv.
  destruct (http_get w (instant (run s)) url) as [resp|] eqn:Hget;
    [|inversion Hv; subst; repeat split; try done; right; left; done].
  destruct (is_html_page resp) eqn:Hhtml; cbn [negb] in Hv;
    [|inversion Hv; subst; repeat split; try done; right; left; done].
  cbn [saved_hashes mark_seen with_run] in Hv.
  destruct (bool_decide (hash_content (text resp) ∈ saved_hashes s)) eqn:Hdup;
    [inversion Hv; subst; repeat split; try done; right; left; done|].
  apply bool_decide_eq_false in Hdup.
  destruct (save_page w cfg out_dir base url (text resp) (emit (EvGet url) (run s)))
    as [[out_path r1]|] eqn:Hsave;
    [|inversion Hv; subst; repeat split; try done; right; left; done].
  assert (log r1 = log (run s) ++ [EvGet url]) as Hlog1.
  { unfold save_page in Hsave.
    destruct (extract_main_content (text resp) url) as [[md meta] hc].
    destruct (slugify_path out_dir base url (lang_hint cfg) (format cfg));
      inversion Hsave; subst; done. }
  destruct (if (_ =? 0)%Z || _ then _ else _) as [st0 s0] eqn:Hlinks in Hv.
  assert (exists new,
             queue s0 = queue s ++ new
             /\ log (run s0) =
                  log (run s) ++ [EvGet url;
                    EvSaved (pages s + 1) url (hash_content (text resp)) out_path]
                  ++ List.map enq new
             /\ disk (run s0) = disk r1
             /\ seen s0 = {[url]} ∪ seen s
             /\ saved_hashes s0 = {[hash_content (text resp)]} ∪ saved_hashes s
             /\ pages s0 = (pages s + 1)%Z /\ st0 <> Done
             /\ Forall (from_link base url depth (hrefs_of (text resp))) new)
    as (new & Hq & Hl & Hd & Hs & Hh & Hp & Hst & Hall).
  { destruct ((depth_limit cfg =? 0)%Z || (depth <? depth_limit cfg)%Z).
    - apply enqueue_links_spec in Hlinks
        as (new & Hq & Hl & Hd & Hs & Hh & Hp & Hst & Hall).
      exists new. cbn in *. rewrite Hq, Hl, Hd, Hs, Hh, Hp, Hlog1, <- !app_assoc.
      by repeat split.
    - inversion Hlinks; subst. exists []. cbn. rewrite Hlog1, <- !app_assoc, !app_nil_r.
      by repeat split. }
  assert (st = st0 /\ seen s' = seen s0 /\ queue s' = queue s0
          /\ saved_hashes s' = saved_hashes s0 /\ pages s' = pages s0
          /\ disk (run s') = disk (run s0)
          /\ exists tail, log (run s') = log (run s0) ++ tail
               /\ (tail = [EvSleep delay] \/ tail = []))
    as (-> & Es & Eq & Eh & Ep & Ed & tail & El & Htail).
  { destruct st0; inversion Hv; subst; cbn;
      repeat (split; [done|]).
    - exists [EvSleep delay]. split; [done|by left].
    - exists []. rewrite app_nil_r. split; [done|by right].
    - exists []. rewrite app_nil_r. split; [done|by right]. }
  rewrite Es, Hs. repeat split; try done.
  right. right. exists resp, out_path, r1, new, tail.
  rewrite Eh, Ep, Eq, Ed, El, Hl, <- !app_assoc. by repeat split.
Qed.

Lemma fetched_enq new : fetched (List.map enq new) = [].
Proof. induction new as [|e new IH]; [done|]. cbn. apply IH. Qed.

Lemma written_hashes_enq new : written_hashes (List.map enq new) = [].
Proof. induction new as [|e new IH]; [done|]. cbn. apply IH. Qed.

Lemma enqueued_enq new : enqueued (List.map enq new) = new.
Proof.
  induction new as [|[u d] new IH]; [done|]. cbn. f_equal. apply IH.
Qed.

(** what one visit adds to the log and to the session *)
Lemma visit_observed base rp delay url depth s st s' :
  visit w cfg out_dir base rp delay url depth s = (st, s') ->
  exists chunk,
    log (run s') = log (run s) ++ chunk
    /\ seen s ⊆ seen s'
    /\ (fetched chunk = []
        \/ (fetched chunk = [url] /\ (url ∉ seen s) /\ url ∈ seen s'))
    /\ ((written_hashes chunk = [] /\ saved_hashes s' = saved_hashes s
         /\ pages s' = pages s /\ disk (run s') = disk (run s))
        \/ (exists h, written_hashes chunk = [h] /\ (h ∉ saved_hashes s)
              /\ saved_hashes s' = {[h]} ∪ saved_hashes s
              /\ pages s' = (pages s + 1)%Z))
    /\ queue s' = queue s ++ enqueued chunk
    /\ Forall (fun e => exists html, from_link base url depth (hrefs_of html) e)
              (enqueued chunk).
Proof.
  intros Hv. apply visit_shape in Hv
    as [(Hin & -> & _) | (Hnin & Hseen & _ & [Hno | [Hreq | Hfull]])].
  - exists []. rewrite !app_nil_r. split_and!; try done. by left. by left.
  - destruct Hno as (Hr & Hq & Hh & Hp).
    exists []. rewrite !app_nil_r, Hr, Hq, Hh, Hp, Hseen.
    split_and!; try done; [set_solver|by left|by left].
  - destruct Hreq as (Hr & Hq & Hh & Hp).
    exists [EvGet url]. rewrite Hr, Hq, Hh, Hp, Hseen. cbn. rewrite app_nil_r.
    split_and!; try done; [set_solver|right; set_solver|by left].
  - destruct Hfull as (resp & out_path & r1 & new & tail & _ & _ & _ & Hdup
                       & _ & Hh & Hp & Hq & _ & Hl & Htail & Hall).
    eexists. split; [exact Hl|].
    assert (fetched tail = [] /\ written_hashes tail = [] /\ enqueued tail = [])
      as (Ft & Wt & Et) by (destruct Htail as [-> | ->]; done).
    unfold fetched, written_hashes, enqueued in *.
    rewrite !omap_app. cbn [omap list_omap].
    fold (fetched (List.map enq new)) (written_hashes (List.map enq new))
         (enqueued (List.map enq new)).
    rewrite fetched_enq, written_hashes_enq, enqueued_enq, Ft, Wt, Et, Hseen.
    cbn. rewrite !app_nil_r.
    split_and!; try done; [set_solver|right; set_solver|right; eauto|].
    eapply Forall_impl; [exact Hall|]. intros e He. eauto.
Qed.

(** ** The loop as a sequence of turns *)

Lemma crawl_loop_turns fuel base rp delay s st s' :
  crawl_loop w cfg out_dir fuel base rp delay s = (st, s') ->
  rtc (turn w cfg out_dir base rp delay) s s'.
Proof.
  revert s. induction fuel as [|fuel IH]; intros s Hloop; cbn in Hloop.
  - destruct (queue s) as [|[url depth] q]; [by inversion Hloop|].
    destruct (pages s <? max_pages cfg)%Z; by inversion Hloop.
  - destruct (queue s) as [|[url depth] q] eqn:Hq; [by inversion Hloop|].
    destruct (pages s <? max_pages cfg)%Z eqn:Hp; cbn [negb] in Hloop;
      [|by inversion Hloop].
    destruct (visit w cfg out_dir base rp delay url depth (with_queue q s))
      as [st1 s1] eqn:Hv.
    assert (turn w cfg out_dir base rp delay s s1) as Hturn
      by (exists url, depth, q, st1; done).
    destruct st1.
    + eapply rtc_l; [exact Hturn|]. by apply IH.
    + inversion Hloop; subst. by apply rtc_once.
    + inversion Hloop; subst. by apply rtc_once.
Qed.

End Frontier.

(** ** Frontier crawler: invariants of a session *)

Section Invariants.
Context `{Lib}.
Variable w : World.
Variable cfg : Config.
Variable out_dir : Path.t.

(** a property of sessions kept by every turn holds along the loop *)
Lemma turns_invariant (P : Session -> Prop) base rp delay :
  (forall s s', turn w cfg out_dir base rp delay s s' -> P s -> P s') ->
  forall s s', rtc (turn w cfg out_dir base rp delay) s s' -> P s -> P s'.
Proof. intros Hstep s s' Hrtc. induction Hrtc; eauto. Qed.

(** the same for a whole call of the crawler: [P] may speak of the
    scope root *)
Lemma crawl_invariant (P : string -> Session -> Prop) fuel seed r :
  (forall base rp delay s s',
      turn w cfg out_dir base rp delay s s' -> P base s -> P base s') ->
  (forall base, P base (start base r)) ->
  (forall base, P base (nothing_yet r)) ->
  P (match Url.urlparse seed with Some p => base_of p | None => "" end)
    (crawl_with_frontier w cfg out_dir fuel seed r).2.
Proof.
  intros Hstep Hstart Hnothing. unfold crawl_with_frontier.
  destruct (Url.urlparse seed) as [p|]; cbn [mbind option_bind]; [|apply Hnothing].
  destruct (load_robots w (base_of p)) as [rp|]; cbn [mbind option_bind];
    [|apply Hnothing].
  destruct (delay_of (rps cfg)) as [delay|]; cbn [mbind option_bind];
    [|apply Hnothing].
  destruct (crawl_loop w cfg out_dir fuel (base_of p) rp delay (start (base_of p) r))
    as [st s] eqn:Hloop.
  apply crawl_loop_turns in Hloop.
  eapply turns_invariant; [apply Hstep|exact Hloop|apply Hstart].
Qed.

(** the log and the sets of a session after one more turn *)
Lemma turn_observed base rp delay s s' :
  turn w cfg out_dir base rp delay s s' ->
  exists url depth q chunk,
    queue s = (url, depth) :: q
    /\ log (run s') = log (run s) ++ chunk
    /\ seen s ⊆ seen s'
    /\ (fetched chunk = []
        \/ (fetched chunk = [url] /\ (url ∉ seen s) /\ url ∈ seen s'))
    /\ ((written_hashes chunk = [] /\ saved_hashes s' = saved_hashes s
         /\ pages s' = pages s /\ disk (run s') = disk (run s))
        \/ (exists h, written_hashes chunk = [h] /\ (h ∉ saved_hashes s)
              /\ saved_hashes s' = {[h]} ∪ saved_hashes s
              /\ pages s' = (pages s + 1)%Z))
    /\ queue s' = q ++ enqueued chunk
    /\ Forall (fun e => exists html, from_link base url depth (hrefs_of html) e)
              (enqueued chunk).
Proof.
  intros (url & depth & q & st & Hq & _ & Hv).
  apply visit_observed in Hv as (chunk & ? & ? & ? & ? & ? & ?).
  exists url, depth, q, chunk. by split_and!.
Qed.

(** C4: in a frontier-crawl session no URL is fetched twice.  Whatever
    the number of turns, the [client.get] calls of the session are
    pairwise different and every fetched URL is in the Visited Set; a
    visit to a URL of the Visited Set leaves the session as it is, and
    any other visit puts the URL into the set, whatever happens next. *)
Theorem frontier_fetches_each_url_once fuel seed r :
  (let s := (crawl_with_frontier w cfg out_dir fuel seed r).2 in
   exists evs,
     log (run s) = log r ++ evs
     /\ NoDup (fetched evs)
     /\ forall u, u ∈ fetched evs -> u ∈ seen s)
  /\ (forall base rp delay url depth s0,
        let s1 := (visit w cfg out_dir base rp delay url depth s0).2 in
        if bool_decide (url ∈ seen s0) then s1 = s0
        else seen s1 = {[url]} ∪ seen s0).
Proof.
  split.
  - apply (crawl_invariant
             (fun _ s => exists evs, log (run s) = log r ++ evs
                           /\ NoDup (fetched evs)
                           /\ forall u, u ∈ fetched evs -> u ∈ seen s)).
    + intros base rp delay s s' Hturn (evs & Hlog & Hnd & Hin).
      apply turn_observed in Hturn
        as (url & depth & q & chunk & _ & Hl & Hsub & Hf & _).
      exists (evs ++ chunk). rewrite Hl, Hlog, <- app_assoc.
      split; [done|]. unfold fetched in *. rewrite omap_app.
      destruct Hf as [-> | (-> & Hnew & Hurl)].
      * rewrite app_nil_r. split; [done|]. intros u Hu. apply Hsub, Hin, Hu.
      * split.
        -- apply NoDup_app. split_and!; [done| |apply NoDup_singleton].
           intros u Hu ->%list_elem_of_singleton. by apply Hnew, Hin.
        -- intros u [Hu | ->%list_elem_of_singleton]%elem_of_app; [|done].
           apply Hsub, Hin, Hu.
    + intros base. exists []. rewrite app_nil_r. split_and!; [done|constructor|].
      intros u Hu. inversion Hu.
    + intros base. exists []. rewrite app_nil_r. split_and!; [done|constructor|].
      intros u Hu. inversion Hu.
  - intros base rp delay url depth s0 s1.
    destruct (visit w cfg out_dir base rp delay url depth s0) as [st s1'] eqn:Hv.
    subst s1. cbn [snd].
    apply visit_shape in Hv as [(Hin & -> & _) | (Hnin & Hseen & _)].
    + by rewrite bool_decide_eq_true_2.
    + by rewrite bool_decide_eq_false_2.
Qed.

(** C5: in a frontier-crawl session no two pages handed to the writer
    have bodies with the same hash.  The hashes of the written bodies
    are pairwise different and all in the Content-Hash Set; a page whose
    body hash is in the set already is dropped after the request:
    nothing is written, nothing enqueued, the counter stays. *)
Theorem frontier_writes_each_body_once fuel seed r :
  (let s := (crawl_with_frontier w cfg out_dir fuel seed r).2 in
   exists evs,
     log (run s) = log r ++ evs
     /\ NoDup (written_hashes evs)
     /\ forall h, h ∈ written_hashes evs -> h ∈ saved_hashes s)
  /\ (forall base rp delay url depth s0,
        let s1 := (visit w cfg out_dir base rp delay url depth s0).2 in
        match http_get w (instant (run s0)) url with
        | Some resp =>
            if bool_decide (hash_content (text resp) ∈ saved_hashes s0)
            then disk (run s1) = disk (run s0) /\ queue s1 = queue s0
                 /\ pages s1 = pages s0 /\ saved_hashes s1 = saved_hashes s0
            else True
        | None => True
        end).
Proof.
  split.
  - apply (crawl_invariant
             (fun _ s => exists evs, log (run s) = log r ++ evs
                           /\ NoDup (written_hashes evs)
                           /\ forall h, h ∈ written_hashes evs -> h ∈ saved_hashes s)).
    + intros base rp delay s s' Hturn (evs & Hlog & Hnd & Hin).
      apply turn_observed in Hturn
        as (url & depth & q & chunk & _ & Hl & _ & _ & Hw & _).
      exists (evs ++ chunk). rewrite Hl, Hlog, <- app_assoc.
      split; [done|]. unfold written_hashes in *. rewrite omap_app.
      destruct Hw as [(-> & -> & _) | (h & -> & Hnew & -> & _)].
      * rewrite app_nil_r. by split.
      * split.
        -- apply NoDup_app. split_and!; [done| |apply NoDup_singleton].
           intros u Hu ->%list_elem_of_singleton. by apply Hnew, Hin.
        -- intros u [Hu | ->%list_elem_of_singleton]%elem_of_app; [|set_solver].
           apply elem_of_union_r, Hin, Hu.
    + intros base. exists []. rewrite app_nil_r. split_and!; [done|constructor|].
      intros u Hu. inversion Hu.
    + intros base. exists []. rewrite app_nil_r. split_and!; [done|constructor|].
      intros u Hu. inversion Hu.
  - intros base rp delay url depth s0 s1.
    destruct (http_get w (instant (run s0)) url) as [resp|] eqn:Hget; [|done].
    case_bool_decide as Hdup; [|done].
    destruct (visit w cfg out_dir base rp delay url depth s0) as [st s1'] eqn:Hv.
    subst s1. cbn [snd].
    apply visit_shape in Hv
      as [(Hin & -> & _) | (_ & _ & _ & [Hno | [Hreq | Hfull]])]; [done| | |].
    + destruct Hno as (-> & -> & -> & ->). done.
    + destruct Hreq as (-> & -> & -> & ->). done.
    + destruct Hfull as (resp' & ? & ? & ? & ? & _ & Hget' & _ & Hnew & _).
      rewrite Hget in Hget'. inversion Hget'; subst. done.
Qed.

Lemma same_scope_true base u :
  same_scope base u = Some true ->
  exists a b,
    Url.urlparse base = Some a /\ Url.urlparse u = Some b
    /\ Url.scheme b = Url.scheme a /\ Url.netloc b = Url.netloc a
    /\ Py.startswith (Url.path a) (Url.path b) = true.
Proof.
  unfold same_scope. intros Hs.
  destruct (Url.urlparse base) as [a|]; [|done].
  destruct (Url.urlparse u) as [b|]; [|done].
  cbn [mbind option_bind] in Hs. injection Hs as Hb.
  apply andb_true_iff in Hb as [[Hsch Hnet]%andb_true_iff Hpath].
  apply String.eqb_eq in Hsch. apply String.eqb_eq in Hnet.
  exists a, b. by split_and!.
Qed.

(** the links enqueued in a session are in scope of its root *)
Lemma enqueued_in_scope fuel seed r :
  let s := (crawl_with_frontier w cfg out_dir fuel seed r).2 in
  exists evs,
    log (run s) = log r ++ evs
    /\ Forall (fun e => same_scope
                 (match Url.urlparse seed with
                  | Some p => base_of p | None => ""
                  end) e.1 = Some true)
              (enqueued evs).
Proof.
  apply (crawl_invariant
           (fun base s => exists evs, log (run s) = log r ++ evs
              /\ Forall (fun e => same_scope base e.1 = Some true) (enqueued evs))).
  - intros base rp delay s s' Hturn (evs & Hlog & Hall).
    apply turn_observed in Hturn
      as (url & depth & q & chunk & _ & Hl & _ & _ & _ & _ & Hnew).
    exists (evs ++ chunk). rewrite Hl, Hlog, <- app_assoc.
    split; [done|]. unfold enqueued in *. rewrite omap_app.
    apply Forall_app. split; [done|].
    eapply Forall_impl; [exact Hnew|].
    intros e (html & _ & _ & Hscope & _). done.
  - intros base. exists []. rewrite app_nil_r. by split.
  - intros base. exists []. rewrite app_nil_r. by split.
Qed.

(** C9: every frontier entry made from a link has the scheme and the
    network location (and so the host) of the session's scope root,
    and a path that starts with the root's path. *)
Theorem enqueued_links_share_the_scope fuel seed r parsed :
  Url.urlparse seed = Some parsed ->
  let s := (crawl_with_frontier w cfg out_dir fuel seed r).2 in
  exists evs,
    log (run s) = log r ++ evs
    /\ Forall (fun e =>
         exists a b,
           Url.urlparse (base_of parsed) = Some a
           /\ Url.urlparse e.1 = Some b
           /\ Url.scheme b = Url.scheme a
           /\ Url.netloc b = Url.netloc a
           /\ Py.startswith (Url.path a) (Url.path b) = true)
         (enqueued evs).
Proof.
  intros Hseed s.
  destruct (enqueued_in_scope fuel seed r) as (evs & Hlog & Hall).
  exists evs. split; [done|]. rewrite Hseed in Hall.
  eapply Forall_impl; [exact Hall|]. intros e. apply same_scope_true.
Qed.

(** a visit writes at most one file, and only for a page it counts *)
Lemma turn_writes base rp delay s s' chunk :
  turn w cfg out_dir base rp delay s s' ->
  log (run s') = log (run s) ++ chunk ->
  exists k,
    writes (disk (run s')) = writes (disk (run s)) ++ k
    /\ length k <= length (written_hashes chunk).
Proof.
  intros (url & depth & q & st & Hq & _ & Hv) Hchunk.
  apply visit_shape in Hv
    as [(_ & -> & _) | (_ & _ & _ & [Hno | [Hreq | Hfull]])].
  - exists []. rewrite app_nil_r. split; [done|cbn; lia].
  - destruct Hno as (-> & _). exists []. rewrite app_nil_r. split; [done|cbn; lia].
  - destruct Hreq as (-> & _). exists []. rewrite app_nil_r. split; [done|cbn; lia].
  - destruct Hfull as (resp & out_path & r1 & new & tail & _ & _ & _ & _
                       & Hsave & _ & _ & _ & Hd & Hl & _).
    cbn [run with_queue log] in *. rewrite Hl in Hchunk.
    apply app_inv_head in Hchunk as <-.
    unfold save_page in Hsave.
    destruct (extract_main_content (text resp) url) as [[md meta] hc].
    destruct (slugify_path out_dir base url (lang_hint cfg) (format cfg))
      as [p|]; [|done].
    cbn [mbind option_bind] in Hsave. injection Hsave as _ <-.
    rewrite Hd. cbn [disk emit].
    destruct (write_output_cases (disk (run s)) p md meta (format cfg) hc
                (diff cfg) (clock w (instant (emit (EvGet url) (run s)))))
      as [(-> & _) | [_ ->]].
    + exists []. rewrite app_nil_r. split; [done|cbn; lia].
    + eexists. split; [done|]. cbn. lia.
Qed.

(** a page that reaches the writer is counted, and the session goes on
    with the disk as the writer left it *)
Lemma visit_counts base rp delay url depth s resp out_path :
  bool_decide (url ∈ seen s) = false ->
  Robots.can_fetch rp url = Some true ->
  match include_rx cfg with Some rx => negb (rx url) | None => false end = false ->
  match exclude_rx cfg with Some rx => rx url | None => false end = false ->
  http_get w (instant (run s)) url = Some resp ->
  is_html_page resp = true ->
  bool_decide (hash_content (text resp) ∈ saved_hashes s) = false ->
  slugify_path out_dir base url (lang_hint cfg) (format cfg) = Some out_path ->
  let page := extract_main_content (text resp) url in
  let s' := (visit w cfg out_dir base rp delay url depth s).2 in
  pages s' = (pages s + 1)%Z
  /\ disk (run s') =
     write_output (disk (run s)) out_path page.1.1 page.1.2 (format cfg)
       page.2 (diff cfg) (clock w (instant (emit (EvGet url) (run s)))).
Proof.
  intros Hseen Hrp Hinc Hexc Hget Hhtml Hhash Hpath page s'.
  subst s'. unfold visit. rewrite Hseen. cbn [mark_seen run saved_hashes].
  rewrite Hrp, Hinc, Hexc, Hget, Hhtml. cbn [negb with_run saved_hashes].
  change (saved_hashes (mark_seen url s)) with (saved_hashes s).
  rewrite Hhash. unfold save_page. subst page.
  destruct (extract_main_content (text resp) url) as [[md meta] hc].
  rewrite Hpath. cbn [mbind option_bind fst snd].
  match goal with
  | |- context [match ?e with pair _ _ => _ end] =>
      destruct e as [st s0] eqn:Hlinks
  end.
  assert (pages s0 = (pages s + 1)%Z
          /\ disk (run s0) =
             write_output (disk (run s)) out_path md meta (format cfg) hc
               (diff cfg) (clock w (instant (emit (EvGet url) (run s)))))
    as [Hp Hd].
  { destruct ((depth_limit cfg =? 0)%Z || (depth <? depth_limit cfg)%Z).
    - apply enqueue_links_spec in Hlinks
        as (new & _ & _ & Hd & _ & _ & Hp & _).
      by rewrite Hp, Hd.
    - by injection Hlinks as _ <-. }
  by destruct st.
Qed.

(** C6 (as amended): the written-page counter goes up by one for every
    page that is handed to the Output Writer (a page fetched as HTML
    whose body hash is new), whether the writer performs the write or
    skips it under diff mode.  In a turn that hands a page to the
    writer the counter goes up by one, and the writer has either
    written the page's file or, when diff mode finds the stored file
    unchanged, left the disk as it was; the counter goes up all the
    same.  Over a session the counter is the number of pages reported
    as saved, and the number of files written is at most the
    counter. *)
Theorem frontier_counts_pages_not_writes fuel seed r :
  (forall base rp delay url depth s resp out_path,
      bool_decide (url ∈ seen s) = false ->
      Robots.can_fetch rp url = Some true ->
      match include_rx cfg with Some rx => negb (rx url) | None => false end
      = false ->
      match exclude_rx cfg with Some rx => rx url | None => false end = false ->
      http_get w (instant (run s)) url = Some resp ->
      is_html_page resp = true ->
      bool_decide (hash_content (text resp) ∈ saved_hashes s) = false ->
      slugify_path out_dir base url (lang_hint cfg) (format cfg) = Some out_path ->
      let page := extract_main_content (text resp) url in
      let final :=
        final_content page.1.1 page.1.2 (format cfg) page.2
          (clock w (instant (emit (EvGet url) (run s)))) in
      let unchanged :=
        diff cfg = true
        /\ exists old, files (disk (run s)) !! out_path = Some old
                       /\ hash_content (read_text old) = hash_content final in
      let s' := (visit w cfg out_dir base rp delay url depth s).2 in
      pages s' = (pages s + 1)%Z
      /\ (unchanged -> disk (run s') = disk (run s))
      /\ (~ unchanged ->
          writes (disk (run s')) = writes (disk (run s)) ++ [(out_path, final)]))
  /\ let s := (crawl_with_frontier w cfg out_dir fuel seed r).2 in
     exists evs k,
       log (run s) = log r ++ evs
       /\ pages s = Z.of_nat (length (written_hashes evs))
       /\ writes (disk (run s)) = writes (disk r) ++ k
       /\ (Z.of_nat (length k) <= pages s)%Z.
Proof.
  split.
  - intros base rp delay url depth s resp out_path
      Hseen Hrp Hinc Hexc Hget Hhtml Hhash Hpath page final unchanged s'.
    destruct (visit_counts base rp delay url depth s resp out_path
                Hseen Hrp Hinc Hexc Hget Hhtml Hhash Hpath) as [Hp Hd].
    fold page in Hd. fold s' in Hp, Hd.
    split; [exact Hp|]. rewrite Hd. unfold write_output. fold final.
    split.
    + intros (Hdiff & old & Hold & Hsame).
      by rewrite Hold, Hdiff, Hsame, String.eqb_refl.
    + intros Hchanged.
      destruct (files (disk (run s)) !! out_path) as [old|] eqn:Hold; [|done].
      destruct (diff cfg) eqn:Hdiff; [|done]. cbn [andb].
      destruct (String.eqb_spec (hash_content (read_text old))
                  (hash_content final)) as [Hsame|]; [|done].
      exfalso. apply Hchanged. split; [done|]. by exists old.
  - apply (crawl_invariant
             (fun _ s => exists evs k, log (run s) = log r ++ evs
                /\ pages s = Z.of_nat (length (written_hashes evs))
                /\ writes (disk (run s)) = writes (disk r) ++ k
                /\ (Z.of_nat (length k) <= pages s)%Z)).
    + intros base rp delay s s' Hturn (evs & k & Hlog & Hp & Hw & Hk).
      destruct (turn_observed _ _ _ _ _ Hturn)
        as (url & depth & q & chunk & _ & Hl & _ & _ & Hwr & _).
      destruct (turn_writes _ _ _ _ _ _ Hturn Hl) as (k' & Hw' & Hk').
      exists (evs ++ chunk), (k ++ k').
      rewrite Hl, Hlog, Hw', Hw, <- !app_assoc.
      unfold written_hashes in *. rewrite omap_app, !length_app.
      destruct Hwr as [(E & _ & -> & _) | (h & E & _ & _ & ->)];
        rewrite E in *; cbn [length] in *; split_and!; try done; lia.
    + intros base. exists [], []. rewrite !app_nil_r. by split_and!.
    + intros base. exists [], []. rewrite !app_nil_r. by split_and!.
Qed.

End Invariants.

(** C9, witness: the crawl of the three-page site. *)
Lemma enqueued_links_share_the_scope_witness :
  let s := (@crawl_with_frontier demo_lib demo_world demo_config ["out"; "x"] 20
              "https://x/docs" empty_run).2 in
  exists evs,
    log (run s) = [] ++ evs
    /\ Forall (fun e =>
         exists a b,
           @Url.urlparse demo_lib "https://x/docs/" = Some a
           /\ @Url.urlparse demo_lib e.1 = Some b
           /\ Url.scheme b = Url.scheme a
           /\ Url.netloc b = Url.netloc a
           /\ Py.startswith (Url.path a) (Url.path b) = true)
         (enqueued evs).
Proof.
  apply (@enqueued_links_share_the_scope demo_lib demo_world demo_config
           ["out"; "x"] 20 "https://x/docs" empty_run
           {| Url.scheme := "https"; Url.netloc := "x"; Url.path := "/docs";
              Url.params := ""; Url.query := ""; Url.fragment := "" |}).
  vm_compute. reflexivity.
Defined.

(** C6, counterexample: the three-page site crawled twice under diff mode
    into the same folder.  The second session writes no file, since
    every page is unchanged, and still counts two pages. *)
Lemma frontier_counts_skipped_writes :
  let cfg := {| max_pages := 10000; depth_limit := 0;
                rps := QArith_base.Qmake 3 2;
                include_rx := None; exclude_rx := None; save_html := false;
                lang_hint := ""; format := "txt"; diff := true;
                sitemap_only := false |} in
  let s1 := (@crawl_with_frontier demo_lib demo_world cfg ["out"; "x"] 20
               "https://x/docs" empty_run).2 in
  let s2 := (@crawl_with_frontier demo_lib demo_world cfg ["out"; "x"] 20
               "https://x/docs" (run s1)).2 in
  writes (disk (run s2)) = writes (disk (run s1))
  /\ pages s2 = 2%Z.
Proof. vm_compute. split; reflexivity. Qed.

(** C6, witness: the first turn of the second of these two sessions.  The
    file of the scope root is on the disk, unchanged; the writer skips
    it, the disk stays as it was, and the counter goes from 0 to 1. *)
Lemma frontier_counts_pages_not_writes_witness :
  let cfg := {| max_pages := 10000; depth_limit := 0;
                rps := QArith_base.Qmake 3 2;
                include_rx := None; exclude_rx := None; save_html := false;
                lang_hint := ""; format := "txt"; diff := true;
                sitemap_only := false |} in
  let s1 := (@crawl_with_frontier demo_lib demo_world cfg ["out"; "x"] 20
               "https://x/docs" empty_run).2 in
  let rp := default Robots.init (@load_robots demo_lib demo_world "https://x/docs/") in
  let s := with_queue [] (start "https://x/docs/" (run s1)) in
  let s' := (@visit demo_lib demo_world cfg ["out"; "x"] "https://x/docs/" rp
               (QArith_base.Qmake 2 3) "https://x/docs/" 0 s).2 in
  pages s = 0%Z /\ pages s' = 1%Z /\ disk (run s') = disk (run s).
Proof.
  intros cfg s1 rp s s'.
  edestruct (proj1 (@frontier_counts_pages_not_writes demo_lib demo_world cfg
                      ["out"; "x"] 0 "" empty_run)
               "https://x/docs/" rp (QArith_base.Qmake 2 3) "https://x/docs/"
               0%Z s)
    as (Hp & Hskip & _).
  - vm_compute. reflexivity.
  - vm_compute. reflexivity.
  - reflexivity.
  - reflexivity.
  - vm_compute. reflexivity.
  - vm_compute. reflexivity.
  - vm_compute. reflexivity.
  - vm_compute. reflexivity.
  - split; [reflexivity|]. split; [exact Hp|].
    apply Hskip. split; [reflexivity|].
    eexists. split; vm_compute; reflexivity.
Defined.

(** ** Robots policy *)

Section RobotsPolicy.
Context `{Lib}.
Variable w : World.
Variable cfg : Config.
Variable out_dir : Path.t.

(** a parser that was never fed a file answers no to every URL *)
Lemma unread_parser_denies url :
  Robots.can_fetch Robots.init url = Some false.
Proof. reflexivity. Qed.

(** when reading the robots file raises, [load_robots] returns the
    parser as it was created *)
Lemma load_robots_unreachable base rp :
  (forall u, robots_fetch w u = RobotsUnreachable) ->
  load_robots w base = Some rp -> rp = Robots.init.
Proof.
  intros Hdown. unfold load_robots.
  destruct (Url.urljoin base "/robots.txt") as [robots_url|]; [|done].
  cbn [mbind option_bind].
  destruct (Url.urlparse robots_url); cbn [mbind option_bind];
    [|by intros [= <-]].
  unfold Robots.read. rewrite Hdown. by intros [= <-].
Qed.

Lemma visit_denied base rp delay url depth s :
  Robots.can_fetch rp url = Some false ->
  let s' := (visit w cfg out_dir base rp delay url depth s).2 in
  run s' = run s /\ pages s' = pages s.
Proof.
  intros Hdeny. unfold visit.
  destruct (bool_decide (url ∈ seen s)); [done|]. by rewrite Hdeny.
Qed.

(** a session whose robots file could not be retrieved makes no request
    and counts no page *)
Lemma unreachable_robots_block_the_crawl fuel seed r :
  (forall u, robots_fetch w u = RobotsUnreachable) ->
  let s := (crawl_with_frontier w cfg out_dir fuel seed r).2 in
  run s = r /\ pages s = 0%Z.
Proof.
  intros Hdown. unfold crawl_with_frontier.
  destruct (Url.urlparse seed) as [p|]; cbn [mbind option_bind]; [|done].
  destruct (load_robots w (base_of p)) as [rp|] eqn:Hrp;
    cbn [mbind option_bind]; [|done].
  apply (load_robots_unreachable _ _ Hdown) in Hrp as ->.
  destruct (delay_of (rps cfg)) as [delay|]; cbn [mbind option_bind]; [|done].
  destruct (crawl_loop w cfg out_dir fuel (base_of p) Robots.init delay
              (start (base_of p) r)) as [st s] eqn:Hloop.
  apply crawl_loop_turns in Hloop. cbn [snd].
  refine (turns_invariant w cfg out_dir (fun s => run s = r /\ pages s = 0%Z)
            _ _ _ _ _ _ Hloop _); [|done].
  intros s0 s1 (url & depth & q & st' & _ & _ & Hv) [Hr Hp].
  pose proof (visit_denied (base_of p) Robots.init delay url depth
                (with_queue q s0) (unread_parser_denies url)) as Hd.
  rewrite Hv in Hd. cbn in Hd. destruct Hd as [-> ->]. done.
Qed.

End RobotsPolicy.

(** C7 (the code differs): the robots file of the three-page site cannot
    be retrieved (the request fails below HTTP).  The crawler is meant to
    go on without a policy; the parser it keeps was never fed, answers
    no for every URL, and the session ends without a single request:
    nothing is fetched, nothing written, the count is 0.  With a missing
    robots file (404) the same site yields two pages. *)
Theorem unreachable_robots_stop_the_crawl :
  let blocked := @crawl_with_frontier demo_lib (demo_site RobotsUnreachable)
                   demo_config ["out"; "x"] 20 "https://x/docs" empty_run in
  let open := @crawl_with_frontier demo_lib (demo_site (RobotsHTTPError 404))
                   demo_config ["out"; "x"] 20 "https://x/docs" empty_run in
  blocked.1 = Done
  /\ log (run blocked.2) = []
  /\ pages blocked.2 = 0%Z
  /\ Robots.can_fetch Robots.init "https://x/docs/" = Some false
  /\ pages open.2 = 2%Z.
Proof. vm_compute. by split_and!. Qed.

(** ** Harvest orchestrator *)

Section Orchestrator.
Context `{Lib}.
Variable w : World.
Variable cfg : Config.
Variable out_dir : Path.t.

(** C1 (as amended): for a seed that parses to [parsed], with the
    site's folder [out_dir / domain]: if sitemap-only mode is requested
    and no include or exclude pattern is set, and the sitemap pass
    returns without a written page, then the orchestrator reports the
    empty sitemap and goes to the next seed; the Frontier Crawler is not
    run, the run holds the sitemap pass and the report only, and the
    total is unchanged.  The Frontier Crawler runs over the seed when
    sitemap-only mode was not requested or a pattern is set; the result
    for the seed is then the crawler's. *)
Theorem sitemap_only_skips_the_seed fuel seed r total parsed :
  Url.urlparse seed = Some parsed ->
  let domain := if Url.nonempty (Url.netloc parsed) then Url.netloc parsed
                else "unknown" in
  let site := Path.join out_dir domain in
  (sitemap_only cfg = true -> include_rx cfg = None -> exclude_rx cfg = None ->
   forall st cnt r',
     crawl_sitemap_first w cfg site seed (emit (EvTrySitemap domain) r)
     = (st, cnt, r') ->
     st <> Failed -> (cnt <= 0)%Z ->
     process_seed w cfg out_dir fuel seed r total
     = (Done, emit (EvNoSitemap domain) r', total))
  /\ (sitemap_only cfg = false \/ is_Some (include_rx cfg)
      \/ is_Some (exclude_rx cfg) ->
      let crawl := crawl_with_frontier w cfg site fuel seed
                     (emit (EvFallback domain) r) in
      process_seed w cfg out_dir fuel seed r total
      = match crawl.1 with
        | Done => (Done, run crawl.2, (total + pages crawl.2)%Z)
        | st => (st, run crawl.2, total)
        end).
Proof.
  intros Hseed domain site. unfold process_seed. rewrite Hseed. fold domain site.
  split.
  - intros -> -> -> st cnt r' -> Hst Hcnt. cbn.
    assert ((0 <? cnt)%Z = false) as -> by lia.
    by destruct st.
  - intros Hcase.
    assert (sitemap_only cfg
            && negb (bool_decide (is_Some (include_rx cfg)))
            && negb (bool_decide (is_Some (exclude_rx cfg))) = false) as ->.
    { destruct Hcase as [-> | [Hi | He]]; [done| |].
      - rewrite (bool_decide_eq_true_2 _ Hi). by destruct (sitemap_only cfg).
      - rewrite (bool_decide_eq_true_2 _ He). cbn. apply andb_false_r. }
    destruct (crawl_with_frontier w cfg site fuel seed (emit (EvFallback domain) r))
      as [[] s]; done.
Qed.

End Orchestrator.

(** C1, witness: the three-page site, which declares no sitemap, under
    sitemap-only mode. *)
Lemma sitemap_only_skips_the_seed_witness :
  let cfg := {| max_pages := 10000; depth_limit := 0;
                rps := QArith_base.Qmake 3 2;
                include_rx := None; exclude_rx := None; save_html := false;
                lang_hint := ""; format := "txt"; diff := false;
                sitemap_only := true |} in
  @process_seed demo_lib demo_world cfg ["out"] 20 "https://x/docs" empty_run 0
  = (Done, emit (EvNoSitemap "x") (emit (EvTrySitemap "x") empty_run), 0%Z).
Proof.
  intros cfg.
  assert (@Url.urlparse demo_lib "https://x/docs"
          = Some {| Url.scheme := "https"; Url.netloc := "x"; Url.path := "/docs";
                    Url.params := ""; Url.query := ""; Url.fragment := "" |}) as Hseed
    by (vm_compute; reflexivity).
  destruct (@sitemap_only_skips_the_seed demo_lib demo_world cfg ["out"] 20
              "https://x/docs" empty_run 0%Z _ Hseed) as [Hskip _].
  apply (Hskip eq_refl eq_refl eq_refl Done 0%Z);
    [vm_compute; reflexivity | discriminate | reflexivity].
Defined.

(** C1, counterexample: sitemap-only mode is requested for the
    three-page site and the sitemap pass yields nothing.  The
    orchestrator reports it and is done with the seed: the log has no
    request and no fallback, the total stays 0, although a frontier crawl
    of the same seed fetches and writes its pages. *)
Lemma no_fallback_after_empty_sitemap :
  let cfg := {| max_pages := 10000; depth_limit := 0;
                rps := QArith_base.Qmake 3 2;
                include_rx := None; exclude_rx := None; save_html := false;
                lang_hint := ""; format := "txt"; diff := false;
                sitemap_only := true |} in
  let '(st, r, total) :=
    @process_seed demo_lib demo_world cfg ["out"] 20 "https://x/docs" empty_run 0 in
  st = Done
  /\ log r = [EvTrySitemap "x"; EvNoSitemap "x"]
  /\ total = 0%Z
  /\ pages (@crawl_with_frontier demo_lib demo_world cfg ["out"; "x"] 20
              "https://x/docs" empty_run).2 = 2%Z.
Proof. vm_compute. by split_and!. Qed.

(** ** Content extractor: code blocks *)

Section CodeBlocks.
Context `{Lib}.

(** on a page with a [<main>] container the extractor's text is the
    converter's text for the container after the code blocks were
    replaced, polished with the fence map of its code blocks *)
Lemma extract_eleven html page_url :
  bs_parse html = eleven_page ->
  (extract_main_content html page_url).1.1
  = polish (fence_map_of (Dom.find_all_in is_pre eleven_blocks))
           (h2t_handle (bs_str eleven_main_fenced)).
Proof.
  intros Hparse. unfold extract_main_content. rewrite Hparse.
  assert (Dom.remove_all_in is_clutter eleven_page = eleven_page) as ->
    by (vm_compute; reflexivity).
  assert (select_main eleven_page = Some (Dom.is_tag "main")) as ->
    by (vm_compute; reflexivity).
  cbn [mbind option_bind].
  assert (Dom.find_in (Dom.is_tag "main") eleven_page
          = Some (Dom.Elem "main" [] eleven_blocks)) as ->
    by (vm_compute; reflexivity).
  cbn [Dom.children_of].
  assert (Dom.update_first_in (Dom.is_tag "main") (replace_pres 0) eleven_page
          = Some [Dom.Elem "html" []
               [Dom.Elem "head" [] [Dom.Elem "title" [] [Dom.Str true "Steps"]];
                Dom.Elem "body" [] [eleven_main_fenced]]]) as ->
    by (vm_compute; reflexivity).
  assert (Dom.find_in (Dom.is_tag "main")
            [Dom.Elem "html" []
               [Dom.Elem "head" [] [Dom.Elem "title" [] [Dom.Str true "Steps"]];
                Dom.Elem "body" [] [eleven_main_fenced]]]
          = Some eleven_main_fenced) as ->
    by (vm_compute; reflexivity).
  reflexivity.
Qed.

(** a page with one code block: the Python block comes out fenced,
    with its language and its two lines *)
Lemma single_code_block_survives html page_url :
  bs_parse html = single_page ->
  h2t_handle (bs_str single_main_fenced) = single_markdown ->
  (extract_main_content html page_url).1.1
  = "Step 0" +:+ nl +:+ nl +:+ "```python" +:+ nl +:+ "foo" +:+ nl
    +:+ "  bar" +:+ nl +:+ "```" +:+ nl +:+ nl.
Proof.
  intros Hparse Htext. unfold extract_main_content. rewrite Hparse.
  assert (Dom.remove_all_in is_clutter single_page = single_page) as ->
    by (vm_compute; reflexivity).
  assert (select_main single_page = Some (Dom.is_tag "main")) as ->
    by (vm_compute; reflexivity).
  cbn [mbind option_bind].
  assert (Dom.find_in (Dom.is_tag "main") single_page
          = Some (Dom.Elem "main" [] [step 0; python_block])) as ->
    by (vm_compute; reflexivity).
  cbn [Dom.children_of].
  assert (Dom.update_first_in (Dom.is_tag "main") (replace_pres 0) single_page
          = Some [Dom.Elem "html" []
               [Dom.Elem "head" [] [Dom.Elem "title" [] [Dom.Str true "Steps"]];
                Dom.Elem "body" [] [single_main_fenced]]]) as ->
    by (vm_compute; reflexivity).
  assert (Dom.find_in (Dom.is_tag "main")
            [Dom.Elem "html" []
               [Dom.Elem "head" [] [Dom.Elem "title" [] [Dom.Str true "Steps"]];
                Dom.Elem "body" [] [single_main_fenced]]]
          = Some single_main_fenced) as ->
    by (vm_compute; reflexivity).
  cbn [fst]. rewrite Htext. vm_compute. reflexivity.
Qed.

(** C8 (the code differs): a page whose eleventh code block is the
    Python block [foo / bar].  The extractor builds the right fenced
    block for it and stores it under [WEB2SCRAP_FENCE_10]; when the
    placeholders are put back, [WEB2SCRAP_FENCE_1] is replaced first and
    takes the first seventeen characters of [WEB2SCRAP_FENCE_10] with
    it.  The output has no Python block and no [foo]: under [Step 10]
    stands the second block again, followed by a stray [0]. *)
Theorem eleventh_code_block_is_lost html page_url :
  bs_parse html = eleven_page ->
  h2t_handle (bs_str eleven_main_fenced) = eleven_markdown ->
  let markdown := (extract_main_content html page_url).1.1 in
  fenced_of python_block
  = nl +:+ nl +:+ "```python" +:+ nl +:+ "foo" +:+ nl +:+ "  bar" +:+ nl
    +:+ "```" +:+ nl +:+ nl
  /\ lookup 10 (fence_map_of (Dom.find_all_in is_pre eleven_blocks))
     = Some ("WEB2SCRAP_FENCE_10", fenced_of python_block)
  /\ Py.contains "```python" markdown = false
  /\ Py.contains "foo" markdown = false
  /\ Py.contains ("Step 10" +:+ nl +:+ nl +:+ "```bash" +:+ nl +:+ "echo 1"
                  +:+ nl +:+ "```" +:+ nl +:+ nl +:+ "0") markdown = true.
Proof.
  intros Hparse Htext markdown. subst markdown.
  rewrite (extract_eleven _ _ Hparse), Htext.
  split_and!; vm_compute; reflexivity.
Qed.

End CodeBlocks.

(** C8, witness: libraries that return the tree and the text of the
    page. *)
Lemma eleventh_code_block_is_lost_witness :
  Py.contains "```python" (@extract_main_content eleven_lib "" "https://x/docs/").1.1
  = false.
Proof.
  refine (proj1 (proj2 (proj2
    (@eleventh_code_block_is_lost eleven_lib "" "https://x/docs/" _ _)))).
  - reflexivity.
  - vm_compute. reflexivity.
Defined.

(** ** More facts about strings: classes of characters *)

Module StrFacts.
Import Py PyFacts.

Lemma all_app p s t : all p (s +:+ t) = all p s && all p t.
Proof.
  induction s as [|a s IH]; [done|]. rewrite app_cons. cbn.
  by rewrite IH, andb_assoc.
Qed.

Lemma has_app c s t : has c (s +:+ t) = has c s || has c t.
Proof.
  induction s as [|a s IH]; [done|]. rewrite app_cons. cbn.
  by rewrite IH, orb_assoc.
Qed.

Lemma filter_app f s t : filter f (s +:+ t) = filter f s +:+ filter f t.
Proof.
  induction s as [|a s IH]; [done|]. rewrite app_cons. cbn.
  destruct (f a); by rewrite IH.
Qed.

Lemma filter_all f s : all f s = true -> filter f s = s.
Proof.
  induction s as [|a s IH]; [done|]. cbn.
  intros [-> Hs]%andb_true_iff. by rewrite IH.
Qed.

Lemma all_impl (p q : ascii -> bool) s :
  (forall c, p c = true -> q c = true) -> all p s = true -> all q s = true.
Proof.
  intros Hpq. induction s as [|a s IH]; [done|]. cbn.
  intros [Ha Hs]%andb_true_iff. by rewrite (Hpq _ Ha), IH.
Qed.

Lemma all_filter p f s : all p s = true -> all p (filter f s) = true.
Proof.
  induction s as [|a s IH]; [done|]. cbn.
  intros [Ha Hs]%andb_true_iff. destruct (f a); cbn; [rewrite Ha|]; by apply IH.
Qed.

Lemma all_lstrip p f s : all p s = true -> all p (lstrip f s) = true.
Proof.
  induction s as [|a s IH]; [done|]. cbn.
  intros [Ha Hs]%andb_true_iff. destruct (f a); [by apply IH|].
  cbn. by rewrite Ha, Hs.
Qed.

Lemma all_take p n s : all p s = true -> all p (take n s) = true.
Proof.
  revert s. induction n as [|n IH]; intros [|a s]; try done. cbn.
  intros [Ha Hs]%andb_true_iff. by rewrite Ha, IH.
Qed.

Lemma all_drop p n s : all p s = true -> all p (drop n s) = true.
Proof.
  revert s. induction n as [|n IH]; intros [|a s]; try done. cbn.
  intros [Ha Hs]%andb_true_iff. by apply IH.
Qed.

Lemma all_map p f s :
  (forall c, p c = true -> p (f c) = true) ->
  all p s = true -> all p (map f s) = true.
Proof.
  intros Hf. induction s as [|a s IH]; [done|]. cbn.
  intros [Ha Hs]%andb_true_iff. by rewrite (Hf _ Ha), IH.
Qed.

Lemma has_all c s : has c s = false <-> all (fun a => negb (Ascii.eqb a c)) s = true.
Proof.
  induction s as [|a s IH]; [done|]. cbn.
  rewrite orb_false_iff, andb_true_iff, IH, negb_true_iff. done.
Qed.

Lemma find_none c s : has c s = false -> find c s = None.
Proof.
  induction s as [|a s IH]; [done|]. cbn.
  intros [-> Hs]%orb_false_iff. by rewrite IH.
Qed.

Lemma find_has c s i : find c s = Some i -> has c s = true.
Proof.
  destruct (has c s) eqn:E; [done|]. by rewrite (find_none _ _ E).
Qed.

Lemma find_app c s t :
  has c s = false -> find c (s +:+ String c t) = Some (len s).
Proof.
  induction s as [|a s IH]; cbn.
  - intros _. change (find c (String c t) = Some 0). cbn.
    by rewrite Ascii.eqb_refl.
  - intros [Ha Hs]%orb_false_iff. rewrite app_cons. cbn.
    rewrite Ha, (IH Hs). done.
Qed.

(** where [find] stops: the text before has no [c], and [c] is next *)
Lemma find_split c s i :
  find c s = Some i ->
  has c (take i s) = false /\ s = take i s +:+ String c (drop (S i) s).
Proof.
  revert i. induction s as [|a s IH]; intros i; [done|]. cbn.
  destruct (Ascii.eqb_spec a c) as [->|Hne].
  - intros [= <-]. done.
  - destruct (find c s) as [j|]; [|done]. intros [= <-].
    destruct (IH j eq_refl) as [Hhas Heq]. cbn.
    apply Ascii.eqb_neq in Hne. rewrite Hne, Hhas. split; [done|].
    change (String a s = String a (take j s +:+ String c (drop (S j) s))).
    by rewrite <- Heq.
Qed.

Lemma cut_none c s : has c s = false -> cut c s = None.
Proof. intros Hs. unfold cut. by rewrite find_none. Qed.

Lemma cut_split c s h t :
  cut c s = Some (h, t) -> has c h = false /\ s = h +:+ String c t.
Proof.
  unfold cut. destruct (find c s) as [i|] eqn:Hf; [|done].
  intros [= <- <-]. by apply find_split.
Qed.

Lemma len_pos_cons s : s <> "" -> exists a s', s = String a s'.
Proof. destruct s as [|a s']; [done|]. eauto. Qed.

End StrFacts.

(** ** Facts about [urllib.parse] *)

Module UrlFacts.
Import Py PyFacts StrFacts Url.

(** *** Characters *)

Ltac by_char c :=
  destruct c as [[] [] [] [] [] [] [] []]; vm_compute; reflexivity.

Lemma lower_char_idem c : lower_char (lower_char c) = lower_char c.
Proof. by_char c. Qed.

Lemma lower_char_safe c : safe_byte (lower_char c) = safe_byte c.
Proof. by_char c. Qed.

Lemma lower_char_delimiter c : delimiter (lower_char c) = delimiter c.
Proof. by_char c. Qed.

Lemma lower_char_scheme c : scheme_char (lower_char c) = scheme_char c.
Proof. by_char c. Qed.

Lemma lower_char_alpha c : isalpha_ascii (lower_char c) = isalpha_ascii c.
Proof. by_char c. Qed.

Lemma lower_char_hash c : Ascii.eqb (lower_char c) "#" = Ascii.eqb c "#".
Proof. by_char c. Qed.

(** a scheme character is kept by the cleaning of [urlsplit], ends no
    network location and is no colon *)
Lemma scheme_char_plain c :
  implb (scheme_char c)
        (safe_byte c && negb (delimiter c) && negb (Ascii.eqb c ":")) = true.
Proof. by_char c. Qed.

Lemma alpha_scheme_char c :
  implb (isalpha_ascii c) (scheme_char c && negb (c0_or_space c)) = true.
Proof. by_char c. Qed.

Lemma delimiter_safe c : implb (delimiter c) (safe_byte c) = true.
Proof. by_char c. Qed.

Lemma hash_delimiter c : implb (Ascii.eqb c "#") (delimiter c) = true.
Proof. by_char c. Qed.

Lemma implb_elim (a b : bool) : implb a b = true -> a = true -> b = true.
Proof. by intros H ->. Qed.

(** *** [lower] *)

Lemma lower_idem s : lower (lower s) = lower s.
Proof.
  unfold lower. induction s as [|a s IH]; [done|]. cbn.
  by rewrite lower_char_idem, IH.
Qed.

Lemma lower_all (p : ascii -> bool) s :
  (forall c, p (lower_char c) = p c) -> all p (lower s) = all p s.
Proof.
  intros Hp. unfold lower. induction s as [|a s IH]; [done|]. cbn.
  by rewrite Hp, IH.
Qed.

Lemma lower_nonempty s : nonempty (lower s) = nonempty s.
Proof. by destruct s. Qed.

(** *** Classes of strings *)

Lemma nodelim_nohash s : nodelim s -> nohash s.
Proof.
  unfold nodelim, nohash. intros Hs. apply has_all.
  eapply all_impl; [|exact Hs]. intros c Hc.
  destruct (Ascii.eqb c "#") eqn:E; [|done].
  pose proof (implb_elim _ _ (hash_delimiter c) E) as Hd.
  cbn beta in Hc. by rewrite Hd in Hc.
Qed.

Lemma scheme_chars_plain s :
  all scheme_char s = true -> safe s /\ nodelim s /\ has ":" s = false.
Proof.
  intros Hs. split_and!.
  - eapply all_impl; [|exact Hs]. intros c Hc.
    pose proof (implb_elim _ _ (scheme_char_plain c) Hc) as H.
    by apply andb_true_iff in H as [[? _]%andb_true_iff _].
  - eapply all_impl; [|exact Hs]. intros c Hc.
    pose proof (implb_elim _ _ (scheme_char_plain c) Hc) as H.
    by apply andb_true_iff in H as [[_ ?]%andb_true_iff _].
  - apply has_all. eapply all_impl; [|exact Hs]. intros c Hc.
    pose proof (implb_elim _ _ (scheme_char_plain c) Hc) as H.
    by apply andb_true_iff in H as [_ ?].
Qed.

Lemma http_valid s : mem s ["http"; "https"] = true -> valid_scheme s.
Proof.
  unfold mem. cbn. rewrite orb_false_r.
  intros [->%String.eqb_eq | ->%String.eqb_eq]%orb_true_iff;
    (split; [eexists _, _; split; [reflexivity|vm_compute; reflexivity]
            |split; vm_compute; reflexivity]).
Qed.

(** *** Splitting *)

Lemma drop_app_cons s c t : drop (S (len s)) (s +:+ String c t) = t.
Proof.
  unfold len. induction s as [|a s IH]; [done|]. rewrite app_cons. cbn. apply IH.
Qed.

Lemma span_spec stop s :
  s = (span stop s).1 +:+ (span stop s).2
  /\ all (fun c => negb (stop c)) (span stop s).1 = true
  /\ ((span stop s).2 = ""
      \/ exists c t, (span stop s).2 = String c t /\ stop c = true).
Proof.
  induction s as [|a s IH]; [cbn; by split_and!; [..|left]|].
  cbn. destruct (stop a) eqn:Ha.
  - cbn. split_and!; [done..|]. right. eauto.
  - destruct (span stop s) as [h t]. cbn in *.
    destruct IH as (Heq & Hh & Ht). rewrite Ha. cbn.
    split_and!; [|done..]. rewrite app_cons. by rewrite <- Heq.
Qed.

(** the network location ends where the first delimiter stands *)
Lemma span_app stop n tail :
  all (fun c => negb (stop c)) n = true ->
  tail = "" \/ (exists c t, tail = String c t /\ stop c = true) ->
  span stop (n +:+ tail) = (n, tail).
Proof.
  intros Hn Htail. induction n as [|a n IH].
  - change ("" +:+ tail) with tail.
    destruct Htail as [-> | (c & t & -> & Hc)]; [done|]. cbn. by rewrite Hc.
  - cbn in Hn. apply andb_true_iff in Hn as [Ha Hn].
    rewrite app_cons. cbn. apply negb_true_iff in Ha. rewrite Ha.
    by rewrite (IH Hn).
Qed.

Lemma span_all p stop s :
  all p s = true -> all p (span stop s).1 = true /\ all p (span stop s).2 = true.
Proof.
  intros Hs. destruct (span_spec stop s) as (Heq & _).
  rewrite Heq, all_app in Hs. by apply andb_true_iff in Hs.
Qed.

(** *** The scheme *)

Lemma split_scheme_valid s rest d :
  valid_scheme s -> split_scheme (s +:+ String ":" rest) d = (s, rest).
Proof.
  intros ((a & s' & -> & Ha) & Hs & Hlow).
  destruct (scheme_chars_plain _ Hs) as (_ & _ & Hcolon).
  unfold split_scheme. rewrite (find_app _ _ _ Hcolon).
  assert (take (S (len s')) (String a s' +:+ String ":" rest) = String a s')
    as Htake by apply (take_app (String a s')).
  assert (drop (S (S (len s'))) (String a s' +:+ String ":" rest) = rest)
    as Hdrop by apply (drop_app_cons (String a s')).
  change (len (String a s')) with (S (len s')).
  rewrite app_cons.
  change (String a (s' +:+ String ":" rest))
    with (String a s' +:+ String ":" rest).
  cbv iota beta. rewrite Htake, Hdrop, Ha, Hs, Hlow. done.
Qed.

(** the scheme of a URL does not depend on the default, unless the URL
    names none *)
Lemma split_scheme_cases url d :
  (split_scheme url d = (d, url) /\ forall d', split_scheme url d' = (d', url))
  \/ (exists s rest,
        valid_scheme s /\ forall d', split_scheme url d' = (s, rest)).
Proof.
  unfold split_scheme.
  destruct (find ":" url) as [[|i]|] eqn:Hfind; [by left| |by left].
  destruct url as [|a url']; [by left|].
  destruct (isalpha_ascii a && all scheme_char (take (S i) (String a url')))
    eqn:Hok; [|by left].
  right. eexists _, _. split; [|done].
  apply andb_true_iff in Hok as [Ha Hall].
  split_and!.
  - cbn. eexists _, _. split; [reflexivity|]. by rewrite lower_char_alpha.
  - rewrite lower_all; [done|]. apply lower_char_scheme.
  - apply lower_idem.
Qed.

(** *** What [urlsplit] returns *)

Lemma all_filter_self f s : all f (filter f s) = true.
Proof.
  induction s as [|a s IH]; [done|]. cbn.
  destruct (f a) eqn:Ha; [cbn; by rewrite Ha|done].
Qed.

Lemma has_find c s : find c s = None -> has c s = false.
Proof.
  induction s as [|a s IH]; [done|]. cbn.
  destruct (Ascii.eqb a c); [done|]. destruct (find c s); [done|]. auto.
Qed.

Lemma nohash_all s : nohash s <-> all (fun a => negb (Ascii.eqb a "#")) s = true.
Proof. apply has_all. Qed.

Lemma nohash_app s t : nohash s -> nohash t -> nohash (s +:+ t).
Proof. unfold nohash. intros Hs Ht. by rewrite has_app, Hs, Ht. Qed.

Lemma nohash_take n s : nohash s -> nohash (take n s).
Proof. rewrite !nohash_all. apply all_take. Qed.

Lemma nohash_drop n s : nohash s -> nohash (drop n s).
Proof. rewrite !nohash_all. apply all_drop. Qed.

Lemma nohash_lower s : nohash s -> nohash (lower s).
Proof.
  rewrite !nohash_all. intros Hs. unfold lower. apply all_map; [|done].
  intros c. by rewrite lower_char_hash.
Qed.

Lemma safe_lower s : safe s -> safe (lower s).
Proof.
  intros Hs. unfold safe, lower. apply all_map; [|done].
  intros c. by rewrite lower_char_safe.
Qed.

Lemma nodelim_lower s : nodelim s -> nodelim (lower s).
Proof.
  intros Hs. unfold nodelim, lower.
  apply (all_map (fun c => negb (delimiter c))); [|done].
  intros c. by rewrite lower_char_delimiter.
Qed.

(** the rest of a URL after its scheme is an end of the URL *)
Lemma split_scheme_rest url d s rest :
  split_scheme url d = (s, rest) -> exists k, rest = drop k url.
Proof.
  unfold split_scheme. intros Hs.
  destruct (find ":" url) as [[|i]|];
    [injection Hs as _ <-; by exists 0| |injection Hs as _ <-; by exists 0].
  destruct url as [|a url']; [injection Hs as _ <-; by exists 0|].
  destruct (isalpha_ascii a && all scheme_char (take (S i) (String a url')));
    injection Hs as _ <-; [exists (S (S i)); reflexivity|by exists 0].
Qed.

(** cleaning leaves a URL that names a scheme in front as it is, up to
    the characters removed behind the scheme *)
Lemma clean_named s rest :
  valid_scheme s ->
  filter safe_byte (lstrip c0_or_space (s +:+ rest))
  = s +:+ filter safe_byte rest.
Proof.
  intros ((a & s' & -> & Ha) & Hs & _).
  destruct (scheme_chars_plain _ Hs) as (Hsafe & _).
  pose proof (implb_elim _ _ (alpha_scheme_char a) Ha) as Hb.
  apply andb_true_iff in Hb as [_ Hc0]. apply negb_true_iff in Hc0.
  rewrite app_cons. cbn [lstrip]. rewrite Hc0.
  change (String a (s' +:+ rest)) with (String a s' +:+ rest).
  by rewrite filter_app, (filter_all _ _ Hsafe).
Qed.

Lemma filter_tail tail :
  tail = "" \/ (exists c t, tail = String c t /\ delimiter c = true) ->
  filter safe_byte tail = ""
  \/ (exists c t, filter safe_byte tail = String c t /\ delimiter c = true).
Proof.
  intros [-> | (c & t & -> & Hc)]; [by left|]. right. cbn.
  rewrite (implb_elim _ _ (delimiter_safe c) Hc). eauto.
Qed.

Section Parsing.
Context `{Lib}.

(** how [urlsplit] takes a URL apart *)
Lemma urlsplit_inv url d r :
  urlsplit url d = Some r ->
  exists rest rest2 before,
    split_scheme (filter safe_byte (lstrip c0_or_space url))
                 (filter safe_byte (strip c0_or_space d))
    = (s_scheme r, rest)
    /\ (if String.eqb (take 2 rest) "//"
        then splitnetloc rest = (s_netloc r, rest2)
        else s_netloc r = "" /\ rest2 = rest)
    /\ match cut "#" rest2 with
       | Some (u, f) => before = u /\ s_fragment r = f
       | None => before = rest2 /\ s_fragment r = ""
       end
    /\ match cut "?" before with
       | Some (u, q) => s_path r = u /\ s_query r = q
       | None => s_path r = before /\ s_query r = ""
       end.
Proof.
  unfold urlsplit. intros Hr.
  destruct (split_scheme _ _) as [sch rest].
  exists rest.
  destruct (String.eqb (take 2 rest) "//").
  - destruct (splitnetloc rest) as [net rest2].
    destruct (netloc_ok net); [|done]. cbn [mbind option_bind] in Hr.
    exists rest2.
    destruct (cut "#" rest2) as [[u f]|];
      [exists u|exists rest2];
      (destruct (cut "?" _) as [[u' q]|];
       destruct (checknetloc net); [|done| |done];
       inversion Hr; subst; cbn; done).
  - cbn [mbind option_bind] in Hr. exists rest.
    destruct (cut "#" rest) as [[u f]|];
      [exists u|exists rest];
      (destruct (cut "?" _) as [[u' q]|];
       destruct (checknetloc ""); [|done| |done];
       inversion Hr; subst; cbn; done).
Qed.

(** a URL that names a scheme is given that scheme *)
Lemma urlsplit_named s rest d r :
  valid_scheme s ->
  urlsplit (s +:+ String ":" rest) d = Some r -> s_scheme r = s.
Proof.
  intros Hs Hr. apply urlsplit_inv in Hr as (rest1 & _ & _ & Hsplit & _).
  rewrite (clean_named _ _ Hs) in Hsplit. cbn [filter] in Hsplit.
  change (safe_byte ":") with true in Hsplit. cbv iota in Hsplit.
  rewrite (split_scheme_valid _ _ _ Hs) in Hsplit. by injection Hsplit.
Qed.

(** a URL with a scheme and an authority is given both back *)
Lemma urlsplit_authority s n tail d r :
  valid_scheme s -> safe n -> nodelim n ->
  tail = "" \/ (exists c t, tail = String c t /\ delimiter c = true) ->
  urlsplit (s +:+ String ":" (String "/" (String "/" (n +:+ tail)))) d = Some r ->
  s_scheme r = s /\ s_netloc r = n.
Proof.
  intros Hs Hsafe Hnd Htail Hr.
  apply urlsplit_inv in Hr as (rest1 & rest2 & _ & Hsplit & Hnet & _).
  rewrite (clean_named _ _ Hs) in Hsplit. cbn [filter] in Hsplit.
  change (safe_byte ":") with true in Hsplit.
  change (safe_byte "/") with true in Hsplit. cbv iota in Hsplit.
  rewrite (split_scheme_valid _ _ _ Hs) in Hsplit.
  injection Hsplit as <- <-. split; [done|].
  change (take 2 (String "/" (String "/" (filter safe_byte (n +:+ tail)))))
    with "//" in Hnet.
  change (String.eqb "//" "//") with true in Hnet. cbv iota in Hnet.
  unfold splitnetloc in Hnet.
  change (drop 2 (String "/" (String "/" (filter safe_byte (n +:+ tail)))))
    with (filter safe_byte (n +:+ tail)) in Hnet.
  rewrite filter_app, (filter_all _ _ Hsafe) in Hnet.
  rewrite (span_app _ _ _ Hnd (filter_tail _ Htail)) in Hnet.
  by injection Hnet.
Qed.

(** the network location holds no removed character and no delimiter *)
Lemma urlsplit_netloc_plain url d r :
  urlsplit url d = Some r -> safe (s_netloc r) /\ nodelim (s_netloc r).
Proof.
  intros Hr. apply urlsplit_inv in Hr as (rest & rest2 & _ & Hsplit & Hnet & _).
  destruct (String.eqb (take 2 rest) "//"); [|by destruct Hnet as [-> _]].
  apply split_scheme_rest in Hsplit as [k ->].
  unfold splitnetloc in Hnet.
  set (x := drop 2 (drop k (filter safe_byte (lstrip c0_or_space url)))) in *.
  destruct (span_spec delimiter x) as (_ & Hnd & _).
  destruct (span_all safe_byte delimiter x) as [Hsafe _].
  { unfold x. apply all_drop, all_drop, all_filter_self. }
  rewrite Hnet in Hnd, Hsafe. done.
Qed.

Lemma cut_nohash s :
  nohash (match cut "#" s with Some (u, _) => u | None => s end).
Proof.
  unfold cut. destruct (find "#" s) as [i|] eqn:Hf.
  - by apply find_split in Hf as [? _].
  - by apply has_find.
Qed.

(** no part but the fragment holds a fragment sign *)
Lemma urlsplit_nohash url d r :
  urlsplit url d = Some r ->
  nohash (s_netloc r) /\ nohash (s_path r) /\ nohash (s_query r).
Proof.
  intros Hr. pose proof (urlsplit_netloc_plain _ _ _ Hr) as [_ Hnd].
  split; [by apply nodelim_nohash|].
  apply urlsplit_inv in Hr as (rest & rest2 & before & _ & _ & Hfrag & Hqry).
  assert (nohash before) as Hb.
  { pose proof (cut_nohash rest2) as Hc.
    destruct (cut "#" rest2) as [[u f]|]; by destruct Hfrag as [-> _]. }
  unfold cut in Hqry. destruct (find "?" before) as [i|].
  - destruct Hqry as [-> ->]. split; [by apply nohash_take|by apply nohash_drop].
  - by destruct Hqry as [-> ->].
Qed.

(** a URL without a fragment sign has no fragment *)
Lemma urlsplit_no_fragment url d r :
  nohash url -> urlsplit url d = Some r -> s_fragment r = "".
Proof.
  intros Hu Hr.
  apply urlsplit_inv in Hr as (rest & rest2 & before & Hsplit & Hnet & Hfrag & _).
  apply split_scheme_rest in Hsplit as [k ->].
  set (x := drop k (filter safe_byte (lstrip c0_or_space url))) in *.
  assert (nohash x) as Hx.
  { apply nohash_drop. apply nohash_all. apply all_filter, all_lstrip.
    by apply nohash_all. }
  assert (nohash rest2) as H2.
  { destruct (String.eqb (take 2 x) "//"); [|by destruct Hnet as [_ ->]].
    unfold splitnetloc in Hnet. apply nohash_all.
    destruct (span_all (fun a => negb (Ascii.eqb a "#")) delimiter (drop 2 x))
      as [_ Ht]; [by apply nohash_all, nohash_drop|].
    by rewrite Hnet in Ht. }
  rewrite (cut_none _ _ H2) in Hfrag. by destruct Hfrag.
Qed.

(** the scheme comes from the URL when it names one, and is the
    default otherwise *)
Lemma urlsplit_scheme url d d' r r' :
  urlsplit url d = Some r -> urlsplit url d' = Some r' ->
  (s_scheme r = filter safe_byte (strip c0_or_space d)
   /\ s_scheme r' = filter safe_byte (strip c0_or_space d'))
  \/ (valid_scheme (s_scheme r) /\ s_scheme r' = s_scheme r).
Proof.
  intros Hr Hr'.
  apply urlsplit_inv in Hr as (rest & _ & _ & Hsplit & _).
  apply urlsplit_inv in Hr' as (rest' & _ & _ & Hsplit' & _).
  destruct (split_scheme_cases (filter safe_byte (lstrip c0_or_space url))
              (filter safe_byte (strip c0_or_space d)))
    as [[_ Hd] | (s & rst & Hs & Hd)].
  - rewrite Hd in Hsplit, Hsplit'. left.
    injection Hsplit as <- _. injection Hsplit' as <- _. done.
  - rewrite Hd in Hsplit, Hsplit'. right.
    injection Hsplit as <- _. injection Hsplit' as <- _. done.
Qed.

Lemma urlsplit_scheme_cases url d r :
  urlsplit url d = Some r ->
  s_scheme r = filter safe_byte (strip c0_or_space d)
  \/ valid_scheme (s_scheme r).
Proof.
  intros Hr. destruct (urlsplit_scheme _ _ _ _ _ Hr Hr) as [[? _] | [? _]]; auto.
Qed.

Lemma splitparams_nohash url :
  nohash url -> nohash (splitparams url).1 /\ nohash (splitparams url).2.
Proof.
  intros Hu. unfold splitparams, find_from.
  destruct (rfind "/" url) as [j|].
  - destruct (find ";" (drop j url)); cbn [fst snd]; [|done].
    split; [by apply nohash_take|by apply nohash_drop].
  - destruct (find ";" url); cbn [fst snd]; [|done].
    split; [by apply nohash_take|by apply nohash_drop].
Qed.

(** [urlparse] is [urlsplit] with the parameters taken from the path *)
Lemma urlparse_default_inv url d p :
  urlparse_default url d = Some p ->
  exists r,
    urlsplit url d = Some r
    /\ scheme p = s_scheme r /\ netloc p = s_netloc r
    /\ query p = s_query r /\ fragment p = s_fragment r
    /\ nohash (path p) /\ nohash (params p).
Proof.
  unfold urlparse_default. intros Hp.
  destruct (urlsplit url d) as [r|] eqn:Hr; [|done].
  cbn [mbind option_bind] in Hp. exists r. split; [done|].
  destruct (urlsplit_nohash _ _ _ Hr) as (_ & Hpath & _).
  destruct (mem (s_scheme r) uses_params && has ";" (s_path r)).
  - pose proof (splitparams_nohash _ Hpath) as [H1 H2].
    destruct (splitparams (s_path r)) as [q prm].
    injection Hp as <-. by cbn.
  - injection Hp as <-. by cbn.
Qed.

End Parsing.

(** *** What [urlunsplit] builds *)

Lemma urlunsplit_named sch net url q f :
  nonempty sch = true ->
  exists rest, urlunsplit sch net url q f = sch +:+ String ":" rest.
Proof.
  intros Hs. unfold urlunsplit. rewrite Hs. cbv zeta.
  destruct (nonempty q), (nonempty f); rewrite ?app_assoc; by eexists.
Qed.

Lemma urlunsplit_authority sch net url q f :
  nonempty sch = true ->
  nonempty net
  || (mem sch uses_netloc && negb (String.eqb (take 2 url) "//")) = true ->
  exists tail,
    urlunsplit sch net url q f
    = sch +:+ String ":" (String "/" (String "/" (net +:+ tail)))
    /\ (tail = "" \/ exists c t, tail = String c t /\ delimiter c = true).
Proof.
  intros Hs Hn. unfold urlunsplit. rewrite Hs. cbn [andb]. rewrite Hn. cbv zeta.
  set (url' := if nonempty url && negb (String.eqb (take 1 url) "/")
               then "/" +:+ url else url).
  assert (url' = "" \/ exists t, url' = String "/" t) as Hurl.
  { unfold url'. destruct url as [|c t]; [by left|]. right.
    change (nonempty (String c t)) with true.
    change (take 1 (String c t)) with (String c "").
    destruct (String.eqb_spec (String c "") "/") as [E|E]; cbn [andb negb].
    - injection E as ->. eauto.
    - eauto. }
  exists (url' +:+ (if nonempty q then "?" +:+ q else "")
               +:+ (if nonempty f then "#" +:+ f else "")).
  split.
  - destruct (nonempty q), (nonempty f);
      rewrite ?app_assoc, ?app_nil_r; reflexivity.
  - destruct Hurl as [-> | [t ->]].
    + destruct (nonempty q); [right; by eexists _, _|].
      destruct (nonempty f); [right; by eexists _, _|by left].
    + right. by eexists _, _.
Qed.

Lemma urlunsplit_nohash sch net url q :
  nohash sch -> nohash net -> nohash url -> nohash q ->
  nohash (urlunsplit sch net url q "").
Proof.
  intros Hs Hn Hu Hq. unfold urlunsplit.
  change (nonempty "") with false. cbv zeta iota.
  repeat match goal with
         | |- context [if ?b then _ else _] => destruct b
         end;
    repeat apply nohash_app; done.
Qed.

Lemma urlunparse_nohash p :
  nohash (scheme p) -> nohash (netloc p) -> nohash (path p) ->
  nohash (params p) -> nohash (query p) -> fragment p = "" ->
  nohash (urlunparse p).
Proof.
  intros Hs Hn Hp Hprm Hq Hf. unfold urlunparse. rewrite Hf.
  apply urlunsplit_nohash; try done.
  destruct (nonempty (params p)); repeat apply nohash_app; done.
Qed.

End UrlFacts.
(** ** URL normalizer *)

Section Normalizer.
Context `{Lib}.
Import Py PyFacts StrFacts Url UrlFacts.

Lemma valid_nohash s : valid_scheme s -> nohash s.
Proof.
  intros (_ & Hs & _). apply nodelim_nohash. by apply scheme_chars_plain.
Qed.

Lemma valid_nonempty s : valid_scheme s -> nonempty s = true.
Proof. by intros ((a & s' & -> & _) & _). Qed.

Lemma nonempty_false s : nonempty s = false -> s = "".
Proof.
  unfold nonempty. intros Hs. apply negb_false_iff in Hs.
  by apply String.eqb_eq.
Qed.

(** what the crawler needs of the two schemes it follows *)
Lemma http_props s :
  mem s ["http"; "https"] = true ->
  valid_scheme s /\ mem s uses_netloc = true /\ mem s uses_relative = true
  /\ filter safe_byte (strip c0_or_space s) = s.
Proof.
  intros Hs. split; [by apply http_valid|]. revert Hs.
  unfold mem at 1. cbn [existsb]. rewrite orb_false_r.
  by intros [->%String.eqb_eq | ->%String.eqb_eq]%orb_true_iff;
    split_and!; vm_compute; reflexivity.
Qed.

(** *** [urlparse] *)

Lemma parse_plain url d p :
  urlparse_default url d = Some p -> safe (netloc p) /\ nodelim (netloc p).
Proof.
  intros (r & Hr & _ & -> & _)%urlparse_default_inv.
  by apply urlsplit_netloc_plain in Hr.
Qed.

Lemma parse_nohash url d p :
  urlparse_default url d = Some p ->
  nohash (netloc p) /\ nohash (path p) /\ nohash (params p) /\ nohash (query p).
Proof.
  intros (r & Hr & _ & -> & -> & _ & Hpath & Hprm)%urlparse_default_inv.
  apply urlsplit_nohash in Hr as (? & _ & ?). by split_and!.
Qed.

Lemma parse_no_fragment url d p :
  nohash url -> urlparse_default url d = Some p -> fragment p = "".
Proof.
  intros Hu (r & Hr & _ & _ & _ & -> & _)%urlparse_default_inv.
  by apply urlsplit_no_fragment in Hr.
Qed.

Lemma parse_named s rest d p :
  valid_scheme s ->
  urlparse_default (s +:+ String ":" rest) d = Some p -> scheme p = s.
Proof.
  intros Hs (r & Hr & -> & _)%urlparse_default_inv.
  by apply urlsplit_named in Hr.
Qed.

Lemma parse_authority s n tail d p :
  valid_scheme s -> safe n -> nodelim n ->
  tail = "" \/ (exists c t, tail = String c t /\ delimiter c = true) ->
  urlparse_default (s +:+ String ":" (String "/" (String "/" (n +:+ tail)))) d
  = Some p ->
  scheme p = s /\ netloc p = n.
Proof.
  intros Hs Hsafe Hnd Htail (r & Hr & -> & -> & _)%urlparse_default_inv.
  by apply urlsplit_authority in Hr.
Qed.

Lemma parse_scheme url d d' p p' :
  urlparse_default url d = Some p -> urlparse_default url d' = Some p' ->
  scheme p = filter safe_byte (strip c0_or_space d)
  \/ (valid_scheme (scheme p) /\ scheme p' = scheme p).
Proof.
  intros (r & Hr & -> & _)%urlparse_default_inv
         (r' & Hr' & -> & _)%urlparse_default_inv.
  destruct (urlsplit_scheme _ _ _ _ _ Hr Hr') as [[? _] | ?]; auto.
Qed.

(** the scheme of a parsed URL is empty or well formed *)
Lemma parse_scheme_nohash url p : urlparse url = Some p -> nohash (scheme p).
Proof.
  unfold urlparse. intros (r & Hr & -> & _)%urlparse_default_inv.
  destruct (urlsplit_scheme_cases _ _ _ Hr) as [-> | Hv];
    [vm_compute; reflexivity|by apply valid_nohash].
Qed.

(** *** [urlunparse] *)

Lemma urlunparse_named p :
  nonempty (scheme p) = true ->
  exists rest, urlunparse p = scheme p +:+ String ":" rest.
Proof. intros Hs. by apply urlunsplit_named. Qed.

Lemma urlunparse_authority p :
  nonempty (scheme p) = true -> nonempty (netloc p) = true ->
  exists tail,
    urlunparse p
    = scheme p +:+ String ":" (String "/" (String "/" (netloc p +:+ tail)))
    /\ (tail = "" \/ exists c t, tail = String c t /\ delimiter c = true).
Proof.
  intros Hs Hn. apply urlunsplit_authority; [done|]. by rewrite Hn.
Qed.

(** a URL put together with a scheme is parsed with that scheme, and
    with its network location when it has one *)
Lemma reparse_scheme p d b :
  valid_scheme (scheme p) ->
  urlparse_default (urlunparse p) d = Some b -> scheme b = scheme p.
Proof.
  intros Hv Hb.
  destruct (urlunparse_named p (valid_nonempty _ Hv)) as [rest Hrest].
  rewrite Hrest in Hb. by apply parse_named in Hb.
Qed.

Lemma reparse_authority p d b :
  valid_scheme (scheme p) -> nonempty (netloc p) = true ->
  safe (netloc p) -> nodelim (netloc p) ->
  urlparse_default (urlunparse p) d = Some b ->
  scheme b = scheme p /\ netloc b = netloc p.
Proof.
  intros Hv Hn Hsafe Hnd Hb.
  destruct (urlunparse_authority p (valid_nonempty _ Hv) Hn)
    as (tail & Hu & Htail).
  rewrite Hu in Hb. by apply parse_authority in Hb.
Qed.

(** *** [urldefrag] *)

Lemma urldefrag_cases url u fr :
  urldefrag url = Some (u, fr) ->
  u = url
  \/ exists p,
       urlparse url = Some p
       /\ u = urlunparse
                {| scheme := scheme p; netloc := netloc p; path := path p;
                   params := params p; query := query p; fragment := "" |}.
Proof.
  unfold urldefrag. destruct (has "#" url).
  - destruct (urlparse url) as [p|]; [|done]. cbn [mbind option_bind].
    intros [= <- _]. right. by exists p.
  - intros [= <- _]. by left.
Qed.

Lemma urldefrag_nohash url u fr : urldefrag url = Some (u, fr) -> nohash u.
Proof.
  unfold urldefrag. destruct (has "#" url) eqn:Hh; [|by intros [= <- _]].
  destruct (urlparse url) as [p|] eqn:Hp; [|done]. cbn [mbind option_bind].
  intros [= <- _].
  pose proof (parse_scheme_nohash _ _ Hp).
  unfold urlparse in Hp. apply parse_nohash in Hp as (? & ? & ? & ?).
  by apply urlunparse_nohash.
Qed.

(** *** [urljoin] *)

(** joining a link to a page of the web: the link is taken as it is
    when it names another scheme, and the result has the page's scheme
    and a network location otherwise *)
Lemma urljoin_cases page href joined pb :
  urlparse page = Some pb -> mem (scheme pb) ["http"; "https"] = true ->
  href <> "" -> urljoin page href = Some joined ->
  (exists u0,
      joined = href /\ urlparse_default href (scheme pb) = Some u0
      /\ scheme u0 <> scheme pb)
  \/ (exists p,
        joined = urlunparse p /\ scheme p = scheme pb
        /\ (nonempty (netloc pb) = true -> nonempty (netloc p) = true)
        /\ safe (netloc p) /\ nodelim (netloc p)).
Proof.
  intros Hpb Hweb Hhref Hj.
  destruct (http_props _ Hweb) as (_ & Hnet & Hrel & _).
  unfold urljoin in Hj.
  destruct (String.eqb_spec page "") as [->|_].
  { exfalso. revert Hpb Hweb. vm_compute. intros [= <-]. vm_compute. done. }
  destruct (String.eqb_spec href "") as [->|_]; [done|].
  unfold urlparse in Hpb. rewrite Hpb in Hj. cbn [mbind option_bind] in Hj.
  destruct (urlparse_default href (scheme pb)) as [u0|] eqn:Hu0; [|done].
  cbn [mbind option_bind] in Hj.
  destruct (String.eqb_spec (scheme u0) (scheme pb)) as [Hsame|Hdiff];
    cbn [negb orb] in Hj.
  - rewrite Hsame, Hrel, Hnet in Hj. cbn [negb andb] in Hj. right.
    destruct (nonempty (netloc u0)) eqn:Hn0.
    + injection Hj as <-. exists u0.
      destruct (parse_plain _ _ _ Hu0). by split_and!.
    + destruct (parse_plain _ _ _ Hpb).
      destruct (negb (nonempty (path u0)) && negb (nonempty (params u0)));
        injection Hj as <-; eexists; (split; [reflexivity|]);
        cbn [scheme netloc]; by split_and!.
  - injection Hj as <-. left. by exists u0.
Qed.

(** *** [normalize_url] *)

Lemma normalize_url_inv page href u :
  normalize_url page href = Some (Some u) ->
  exists h joined bare fr parsed,
    href = Some h /\ h <> ""
    /\ urljoin page h = Some joined
    /\ urldefrag joined = Some (bare, fr)
    /\ urlparse bare = Some parsed
    /\ mem (scheme parsed) ["http"; "https"] = true
    /\ u = geturl
             {| scheme := scheme parsed; netloc := lower (netloc parsed);
                path := path parsed; params := params parsed;
                query := query parsed; fragment := fragment parsed |}.
Proof.
  unfold normalize_url. destruct href as [h|]; [|done].
  destruct (String.eqb_spec h "") as [->|Hh]; [done|].
  destruct (urljoin page h) as [joined|] eqn:Hj; [|done].
  cbn [mbind option_bind].
  destruct (urldefrag joined) as [[bare fr]|] eqn:Hd; [|done].
  cbn [mbind option_bind].
  destruct (urlparse bare) as [parsed|] eqn:Hp; [|done].
  cbn [mbind option_bind].
  destruct (mem (scheme parsed) ["http"; "https"]) eqn:Hweb; [|done].
  cbn [negb]. intros [= <-]. exists h, joined, bare, fr, parsed. by split_and!.
Qed.

(** a link that is missing, empty, or leads out of the web gives no URL *)
Lemma normalize_url_none page href :
  href = None \/ href = Some ""
  \/ (exists h joined bare fr parsed,
        href = Some h /\ urljoin page h = Some joined
        /\ urldefrag joined = Some (bare, fr)
        /\ urlparse bare = Some parsed
        /\ mem (scheme parsed) ["http"; "https"] = false) ->
  normalize_url page href = Some None.
Proof.
  intros [-> | [-> | (h & joined & bare & fr & parsed & -> & Hj & Hd & Hp & Hs)]];
    [done..|].
  unfold normalize_url. destruct (String.eqb h ""); [done|].
  rewrite Hj. cbn [mbind option_bind]. rewrite Hd. cbn [mbind option_bind].
  rewrite Hp. cbn [mbind option_bind]. by rewrite Hs.
Qed.

(** the normalizer's URL has the scheme of the resolved link, which is
    [http] or [https], and no fragment *)
Lemma normalized_scheme_fragment page href u b :
  normalize_url page href = Some (Some u) -> urlparse u = Some b ->
  mem (scheme b) ["http"; "https"] = true /\ nohash u /\ fragment b = "".
Proof.
  intros (h & joined & bare & fr & parsed & _ & _ & _ & Hd & Hp & Hweb & ->)
           %normalize_url_inv Hb.
  destruct (http_props _ Hweb) as (Hv & _).
  pose proof (urldefrag_nohash _ _ _ Hd) as Hbare.
  unfold urlparse in Hp.
  pose proof (parse_no_fragment _ _ _ Hbare Hp) as Hfrag.
  pose proof (parse_nohash _ _ _ Hp) as (Hn & Hpath & Hprm & Hq).
  assert (nohash (geturl
            {| scheme := scheme parsed; netloc := lower (netloc parsed);
               path := path parsed; params := params parsed;
               query := query parsed; fragment := fragment parsed |})) as Hu.
  { apply urlunparse_nohash; cbn [scheme netloc path params query fragment];
      try done; [by apply valid_nohash|by apply nohash_lower]. }
  split_and!; [|done|].
  - unfold geturl, urlparse in Hb.
    apply reparse_scheme in Hb as ->; cbn [scheme]; done.
  - unfold urlparse in Hb. by apply (parse_no_fragment _ _ _ Hu Hb).
Qed.

(** the network location of the normalizer's URL is in lower case
    whenever the URL has the scheme and the network location of the
    page the link was found on *)
Lemma normalized_host page href u b pb :
  normalize_url page href = Some (Some u) -> urlparse u = Some b ->
  urlparse page = Some pb -> scheme b = scheme pb -> netloc b = netloc pb ->
  lower (netloc b) = netloc b.
Proof.
  intros (h & joined & bare & fr & parsed & _ & Hh & Hj & Hd & Hp & Hweb & ->)
           %normalize_url_inv Hb Hpb Hsch Hnet.
  destruct (http_props _ Hweb) as (Hv & Hnl & _ & _).
  pose proof (valid_nonempty _ Hv) as Hne.
  unfold urlparse in Hp. destruct (parse_plain _ _ _ Hp) as [Hsafe Hnd].
  unfold geturl, urlparse in Hb.
  assert (scheme parsed = scheme pb) as Hsp.
  { pose proof Hb as Hsb. apply reparse_scheme in Hsb; [|done].
    by rewrite <- Hsch, Hsb. }
  unfold urlunparse in Hb.
  cbn [scheme netloc path params query fragment] in Hb.
  set (url := if nonempty (params parsed)
              then path parsed +:+ ";" +:+ params parsed
              else path parsed) in Hb.
  destruct (nonempty (lower (netloc parsed))
            || (mem (scheme parsed) uses_netloc
                && negb (String.eqb (take 2 url) "//"))) eqn:Hc.
  - destruct (urlunsplit_authority (scheme parsed) (lower (netloc parsed)) url
                (query parsed) (fragment parsed) Hne Hc)
      as (tail & Hu & Htail).
    rewrite Hu in Hb.
    apply parse_authority in Hb as [_ ->];
      [apply lower_idem|done|by apply safe_lower|by apply nodelim_lower|done].
  - apply orb_false_iff in Hc as [Hempty _].
    rewrite lower_nonempty in Hempty.
    destruct (nonempty (netloc pb)) eqn:Hpbn;
      [|apply nonempty_false in Hpbn; by rewrite Hnet, Hpbn].
    exfalso.
    assert (mem (scheme pb) ["http"; "https"] = true) as Hwebpb
      by (by rewrite <- Hsp).
    destruct (http_props _ Hwebpb) as (Hvpb & _ & _ & Hclean).
    destruct (urljoin_cases _ _ _ _ Hpb Hwebpb Hh Hj)
      as [(u0 & -> & Hu0 & Hdiff) | (p & -> & Hps & Hpn & Hpsafe & Hpnd)].
    + (* the link is taken as it is: it names another scheme *)
      apply Hdiff. rewrite <- Hsp.
      destruct (urldefrag_cases _ _ _ Hd) as [-> | (p1 & Hp1 & ->)].
      * destruct (parse_scheme _ _ _ _ _ Hu0 Hp) as [E | [_ E]]; [|done].
        exfalso. apply Hdiff. by rewrite E.
      * unfold urlparse in Hp1.
        destruct (parse_scheme _ _ _ _ _ Hu0 Hp1) as [E | [Hv0 E]].
        { exfalso. apply Hdiff. by rewrite E. }
        apply reparse_scheme in Hp; cbn [scheme] in *; [|by rewrite E].
        by rewrite Hp, E.
    + (* the joined URL has the page's network location or the link's *)
      specialize (Hpn Hpbn). rewrite <- Hps in Hvpb.
      assert (netloc parsed = netloc p) as E; [|by rewrite E, Hpn in Hempty].
      destruct (urldefrag_cases _ _ _ Hd) as [-> | (p1 & Hp1 & ->)].
      * by apply reparse_authority in Hp as [_ ->].
      * unfold urlparse in Hp1.
        apply reparse_authority in Hp1 as [E1 E2]; [|done..].
        apply reparse_authority in Hp as [_ ->];
          cbn [scheme netloc]; by rewrite ?E1, ?E2.
Qed.

End Normalizer.
(** ** Frontier crawler: the links that enter the frontier *)

Section NormalizedFrontier.
Context `{Lib}.
Variable w : World.
Variable cfg : Config.
Variable out_dir : Path.t.

(** a link the normalizer gives no URL for is passed over *)
Lemma enqueue_links_skip base page depth href rest s :
  normalize_url page href = Some None ->
  enqueue_links base page depth (href :: rest) s
  = enqueue_links base page depth rest s.
Proof. intros Hn. cbn [enqueue_links]. by rewrite Hn. Qed.

(** the URLs of the frontier are the scope root and URLs in its scope *)
Lemma queue_in_scope fuel seed r :
  let s := (crawl_with_frontier w cfg out_dir fuel seed r).2 in
  Forall (fun e =>
            let base := match Url.urlparse seed with
                        | Some p => base_of p | None => ""
                        end in
            e.1 = base \/ same_scope base e.1 = Some true)
         (queue s).
Proof.
  apply (crawl_invariant w cfg out_dir
           (fun base s =>
              Forall (fun e => e.1 = base \/ same_scope base e.1 = Some true)
                     (queue s))).
  - intros base rp delay s s' Hturn Hq.
    apply turn_observed in Hturn
      as (url & depth & q & chunk & Hqs & _ & _ & _ & _ & -> & Hnew).
    rewrite Hqs in Hq. apply Forall_cons in Hq as [_ Hq].
    apply Forall_app. split; [done|].
    eapply Forall_impl; [exact Hnew|].
    intros e (html & _ & _ & Hscope & _). by right.
  - intros base. cbn. constructor; [by left|constructor].
  - intros base. constructor.
Qed.

(** a link found on a page of the scope and kept by the scope test
    has a network location in lower case *)
Lemma in_scope_host base page href u :
  page = base \/ same_scope base page = Some true ->
  normalize_url page href = Some (Some u) ->
  same_scope base u = Some true ->
  exists b,
    Url.urlparse u = Some b
    /\ Url.mem (Url.scheme b) ["http"; "https"] = true
    /\ Url.fragment b = "" /\ Py.has "#" u = false
    /\ Py.lower (Url.netloc b) = Url.netloc b.
Proof.
  intros Hpage Hn (a & b & Ha & Hb & Hsch & Hnet & _)%same_scope_true.
  exists b. split; [done|].
  destruct (normalized_scheme_fragment _ _ _ _ Hn Hb) as (Hweb & Hhash & Hfrag).
  split_and!; try done.
  destruct Hpage as [-> | (a' & pb & Ha' & Hpb & Hsch' & Hnet' & _)%same_scope_true].
  - by apply (normalized_host _ _ _ _ _ Hn Hb Ha).
  - rewrite Ha in Ha'. injection Ha' as <-.
    apply (normalized_host _ _ _ _ _ Hn Hb Hpb); congruence.
Qed.

(** C10: every URL the link loop appends to the frontier is the URL
    Normalizer's result for a link of a fetched page whose href is not
    empty and resolves to a URL of scheme [http] or [https]; parsed
    again, the appended URL has scheme [http] or [https], holds no
    fragment (and no fragment sign at all), and has a network
    location, and so a host, in lower case.  A link without href,
    with an empty href, or whose href resolves to a URL of another
    scheme is passed over by the link loop, which goes on with the
    next link and leaves the session as it is. *)
Theorem frontier_links_are_normalized fuel seed r :
  let s := (crawl_with_frontier w cfg out_dir fuel seed r).2 in
  (exists evs,
      log (run s) = log r ++ evs
      /\ Forall (fun e =>
           (exists page href joined bare fr parsed,
               href <> ""
               /\ Url.urljoin page href = Some joined
               /\ Url.urldefrag joined = Some (bare, fr)
               /\ Url.urlparse bare = Some parsed
               /\ Url.mem (Url.scheme parsed) ["http"; "https"] = true
               /\ normalize_url page (Some href) = Some (Some e.1))
           /\ exists b,
               Url.urlparse e.1 = Some b
               /\ Url.mem (Url.scheme b) ["http"; "https"] = true
               /\ Url.fragment b = "" /\ Py.has "#" e.1 = false
               /\ Py.lower (Url.netloc b) = Url.netloc b)
         (enqueued evs))
  /\ (forall base page depth href rest s0,
        href = None \/ href = Some ""
        \/ (exists h joined bare fr parsed,
              href = Some h /\ Url.urljoin page h = Some joined
              /\ Url.urldefrag joined = Some (bare, fr)
              /\ Url.urlparse bare = Some parsed
              /\ Url.mem (Url.scheme parsed) ["http"; "https"] = false) ->
        enqueue_links base page depth (href :: rest) s0
        = enqueue_links base page depth rest s0).
Proof.
  intros s. split.
  - subst s.
    apply (crawl_invariant w cfg out_dir
      (fun base s =>
         (exists evs,
             log (run s) = log r ++ evs
             /\ Forall (fun e =>
                  (exists page href joined bare fr parsed,
                      href <> ""
                      /\ Url.urljoin page href = Some joined
                      /\ Url.urldefrag joined = Some (bare, fr)
                      /\ Url.urlparse bare = Some parsed
                      /\ Url.mem (Url.scheme parsed) ["http"; "https"] = true
                      /\ normalize_url page (Some href) = Some (Some e.1))
                  /\ exists b,
                      Url.urlparse e.1 = Some b
                      /\ Url.mem (Url.scheme b) ["http"; "https"] = true
                      /\ Url.fragment b = "" /\ Py.has "#" e.1 = false
                      /\ Py.lower (Url.netloc b) = Url.netloc b)
                (enqueued evs))
         /\ Forall (fun e => e.1 = base \/ same_scope base e.1 = Some true)
                   (queue s))).
    + intros base rp delay s s' Hturn [(evs & Hlog & Hall) Hq].
      apply turn_observed in Hturn
        as (url & depth & q & chunk & Hqs & Hl & _ & _ & _ & -> & Hnew).
      rewrite Hqs in Hq. apply Forall_cons in Hq as [Hpage Hq].
      cbn [fst] in Hpage. split.
      * exists (evs ++ chunk). rewrite Hl, Hlog, <- app_assoc.
        split; [done|]. unfold enqueued in *. rewrite omap_app.
        apply Forall_app. split; [done|].
        eapply Forall_impl; [exact Hnew|].
        intros e (html & _ & _ & Hscope & href & _ & Hn). split.
        -- destruct (normalize_url_inv _ _ _ Hn)
             as (h & joined & bare & fr & parsed & -> & ? & ? & ? & ? & ? & _).
           exists url, h, joined, bare, fr, parsed. by split_and!.
        -- by apply (in_scope_host base url href).
      * apply Forall_app. split; [done|].
        eapply Forall_impl; [exact Hnew|].
        intros e (html & _ & _ & Hscope & _). by right.
    + intros base. split.
      * exists []. rewrite app_nil_r. by split.
      * cbn. constructor; [by left|constructor].
    + intros base. split; [|constructor].
      exists []. rewrite app_nil_r. by split.
  - intros base page depth href rest s0 Hno.
    apply enqueue_links_skip. by apply normalize_url_none.
Qed.

End NormalizedFrontier.

(** the normalizer on some links of the page [https://x/docs/] *)
Example normalize_url_samples :
  @normalize_url demo_lib "https://x/docs/" (Some "HTTPS://X/docs/A#top")
  = Some (Some "https://x/docs/A")
  /\ @normalize_url demo_lib "https://x/docs/" (Some "b?q=1#f")
     = Some (Some "https://x/docs/b?q=1")
  /\ @normalize_url demo_lib "https://x/docs/" (Some "mailto:a@x") = Some None
  /\ @normalize_url demo_lib "https://x/docs/" (Some "javascript:void(0)")
     = Some None
  /\ @normalize_url demo_lib "https://x/docs/" (Some "ftp://x/docs/f") = Some None
  /\ @normalize_url demo_lib "https://x/docs/" (Some "") = Some None
  /\ @normalize_url demo_lib "https://x/docs/" None = Some None.
Proof. vm_compute. split_and!; reflexivity. Qed.

(** C10, witness: the crawl of the three-page site, and a page whose
    first link is a [mailto:] link. *)
Lemma frontier_links_are_normalized_witness :
  let s := (@crawl_with_frontier demo_lib demo_world demo_config ["out"; "x"] 20
              "https://x/docs" empty_run).2 in
  (exists evs,
      log (run s) = log empty_run ++ evs
      /\ Forall (fun e =>
           (exists page href joined bare fr parsed,
               href <> ""
               /\ @Url.urljoin demo_lib page href = Some joined
               /\ @Url.urldefrag demo_lib joined = Some (bare, fr)
               /\ @Url.urlparse demo_lib bare = Some parsed
               /\ Url.mem (Url.scheme parsed) ["http"; "https"] = true
               /\ @normalize_url demo_lib page (Some href) = Some (Some e.1))
           /\ exists b,
               @Url.urlparse demo_lib e.1 = Some b
               /\ Url.mem (Url.scheme b) ["http"; "https"] = true
               /\ Url.fragment b = "" /\ Py.has "#" e.1 = false
               /\ Py.lower (Url.netloc b) = Url.netloc b)
         (enqueued evs))
  /\ @enqueue_links demo_lib "https://x/docs/" "https://x/docs/" 0
       [Some "mailto:a@x"; Some "a"] (start "https://x/docs/" empty_run)
     = @enqueue_links demo_lib "https://x/docs/" "https://x/docs/" 0
         [Some "a"] (start "https://x/docs/" empty_run).
Proof.
  intros s.
  destruct (@frontier_links_are_normalized demo_lib demo_world demo_config
              ["out"; "x"] 20 "https://x/docs" empty_run) as [HA HB].
  split; [exact HA|]. apply HB. right. right.
  exists "mailto:a@x", "mailto:a@x", "mailto:a@x", "",
    {| Url.scheme := "mailto"; Url.netloc := ""; Url.path := "a@x";
       Url.params := ""; Url.query := ""; Url.fragment := "" |}.
  split_and!; vm_compute; reflexivity.
Defined.
(** ** Frontier crawler: bounds of a session *)

Section FrontierBounds.
Context `{Lib}.
Variable w : World.
Variable cfg : Config.
Variable out_dir : Path.t.

(** the filters a URL has passed when it is requested *)
Lemma visit_request_allowed base rp delay url depth s st s' :
  visit w cfg out_dir base rp delay url depth s = (st, s') ->
  log (run s') <> log (run s) ->
  (url ∉ seen s)
  /\ Robots.can_fetch rp url = Some true
  /\ match include_rx cfg with Some rx => rx url = true | None => True end
  /\ match exclude_rx cfg with Some rx => rx url = false | None => True end.
Proof.
  unfold visit. intros Hv Hlog.
  destruct (bool_decide (url ∈ seen s)) eqn:Hseen;
    [by inversion Hv; subst|].
  apply bool_decide_eq_false in Hseen.
  destruct (Robots.can_fetch rp url) as [[|]|] eqn:Hrp;
    [|by inversion Hv; subst..].
  destruct (include_rx cfg) as [rx|]; destruct (exclude_rx cfg) as [rx'|];
    repeat match type of Hv with
           | context [negb (?f url)] => destruct (f url) eqn:?; cbn [negb] in Hv
           | context [if ?f url then _ else _] => destruct (f url) eqn:?
           end;
    try (by inversion Hv; subst); done.
Qed.

(** links are taken from a page only within the depth limit *)
Lemma visit_links_depth base rp delay url depth s st s' :
  visit w cfg out_dir base rp delay url depth s = (st, s') ->
  queue s' <> queue s ->
  depth_limit cfg = 0%Z \/ (depth < depth_limit cfg)%Z.
Proof.
  unfold visit. intros Hv Hq.
  destruct (bool_decide (url ∈ seen s)); [by inversion Hv; subst|].
  destruct (Robots.can_fetch rp url) as [[|]|];
    [|by inversion Hv; subst..].
  destruct (match include_rx cfg with Some rx => negb (rx url) | None => false end);
    [by inversion Hv; subst|].
  destruct (match exclude_rx cfg with Some rx => rx url | None => false end);
    [by inversion Hv; subst|].
  cbn [run mark_seen with_run] in Hv.
  destruct (http_get w (instant (run s)) url) as [resp|];
    [|by inversion Hv; subst].
  destruct (is_html_page resp); cbn [negb] in Hv; [|by inversion Hv; subst].
  cbn [saved_hashes mark_seen with_run] in Hv.
  destruct (bool_decide (hash_content (text resp) ∈ saved_hashes s));
    [by inversion Hv; subst|].
  destruct (save_page w cfg out_dir base url (text resp) (emit (EvGet url) (run s)))
    as [[out_path r1]|]; [|by inversion Hv; subst].
  destruct ((depth_limit cfg =? 0)%Z || (depth <? depth_limit cfg)%Z) eqn:Hd.
  - apply orb_true_iff in Hd as [Hd | Hd]; [left; lia|right; lia].
  - by inversion Hv; subst.
Qed.

(** a call of the crawler either raises before the loop, or runs the
    loop from the scope root *)
Lemma crawl_with_frontier_turns fuel seed r :
  crawl_with_frontier w cfg out_dir fuel seed r = (Failed, nothing_yet r)
  \/ exists p rp delay,
       Url.urlparse seed = Some p
       /\ load_robots w (base_of p) = Some rp
       /\ delay_of (rps cfg) = Some delay
       /\ rtc (turn w cfg out_dir (base_of p) rp delay)
              (start (base_of p) r)
              (crawl_with_frontier w cfg out_dir fuel seed r).2.
Proof.
  unfold crawl_with_frontier.
  destruct (Url.urlparse seed) as [p|] eqn:Hp; cbn [mbind option_bind];
    [|by left].
  destruct (load_robots w (base_of p)) as [rp|] eqn:Hrp;
    cbn [mbind option_bind]; [|by left].
  destruct (delay_of (rps cfg)) as [delay|] eqn:Hd; cbn [mbind option_bind];
    [|by left].
  right. exists p, rp, delay. split_and!; try done.
  destruct (crawl_loop w cfg out_dir fuel (base_of p) rp delay (start (base_of p) r))
    as [st s] eqn:Hloop.
  apply crawl_loop_turns in Hloop. exact Hloop.
Qed.

(** the events of one turn *)
Lemma turn_chunk base rp delay s s' :
  turn w cfg out_dir base rp delay s s' ->
  exists url depth q,
    queue s = (url, depth) :: q
    /\ (pages s < max_pages cfg)%Z
    /\ ((log (run s') = log (run s) /\ queue s' = q /\ pages s' = pages s)
        \/ (log (run s') = log (run s) ++ [EvGet url] /\ queue s' = q
            /\ pages s' = pages s)
        \/ (exists h out_path new tail,
              log (run s') =
                log (run s)
                ++ [EvGet url; EvSaved (pages s + 1) url h out_path]
                ++ List.map enq new ++ tail
              /\ (tail = [EvSleep delay] \/ tail = [])
              /\ queue s' = q ++ new
              /\ pages s' = (pages s + 1)%Z
              /\ Forall (fun e => e.2 = (depth + 1)%Z) new
              /\ (new = [] \/ depth_limit cfg = 0%Z
                  \/ (depth < depth_limit cfg)%Z))).
Proof.
  intros (url & depth & q & st & Hq & Hp & Hv).
  exists url, depth, q. split; [done|]. split; [lia|].
  pose proof (visit_links_depth _ _ _ _ _ _ _ _ Hv) as Hdepth.
  apply visit_shape in Hv
    as [(_ & -> & _) | (_ & _ & _ & [Hno | [Hreq | Hfull]])].
  - left. by split_and!.
  - destruct Hno as (-> & -> & _ & ->). left. by split_and!.
  - destruct Hreq as (-> & -> & _ & ->). right. left. by split_and!.
  - destruct Hfull as (resp & out_path & r1 & new & tail & _ & _ & _ & _
                       & _ & _ & Hpages & Hqueue & _ & Hlog & Htail & Hall).
    right. right. cbn [with_queue queue run pages] in *.
    exists (hash_content (text resp)), out_path, new, tail.
    split_and!; try done.
    + eapply Forall_impl; [exact Hall|]. by intros e (? & _).
    + destruct new as [|e new]; [by left|right].
      apply Hdepth. rewrite Hqueue. intros E.
      apply (f_equal length) in E. rewrite length_app in E. cbn in E. lia.
Qed.

(** X1: a frontier-crawl session never hands more than [max_pages]
    pages to the writer: the page counter stays between 0 and
    [max_pages] (0 when the bound is negative), and it is the number
    of pages the log shows as saved. *)
Theorem frontier_stops_at_max_pages fuel seed r :
  let s := (crawl_with_frontier w cfg out_dir fuel seed r).2 in
  exists evs,
    log (run s) = log r ++ evs
    /\ pages s = Z.of_nat (length (saved_urls evs))
    /\ (0 <= pages s <= Z.max 0 (max_pages cfg))%Z.
Proof.
  apply (crawl_invariant w cfg out_dir
           (fun _ s => exists evs,
                log (run s) = log r ++ evs
                /\ pages s = Z.of_nat (length (saved_urls evs))
                /\ (0 <= pages s <= Z.max 0 (max_pages cfg))%Z)).
  - intros base rp delay s s' Hturn (evs & Hlog & Hcount & Hbound).
    apply turn_chunk in Hturn
      as (url & depth & q & _ & Hlt & [(Hl & _ & Hp) | [(Hl & _ & Hp) | Hfull]]).
    + exists evs. rewrite Hl, Hp. split_and!; try done; lia.
    + exists (evs ++ [EvGet url]). rewrite Hl, Hlog, Hp, <- app_assoc.
      split_and!; try done; try lia.
      unfold saved_urls. rewrite omap_app. cbn. by rewrite app_nil_r.
    + destruct Hfull as (h & p & new & tail & Hl & Htail & _ & Hp & _).
      eexists. rewrite Hl, Hlog, <- app_assoc. split; [done|].
      rewrite Hp. split; [|lia].
      unfold saved_urls in *. rewrite !omap_app, !length_app. cbn.
      assert (omap (fun e => match e with EvSaved _ u _ _ => Some u | _ => None end)
                   (List.map enq new) = []) as ->
        by (clear; induction new as [|e new IH]; [done|apply IH]).
      assert (omap (fun e => match e with EvSaved _ u _ _ => Some u | _ => None end)
                   tail = []) as ->
        by (destruct Htail as [-> | ->]; done).
      cbn. lia.
  - intros base. exists []. rewrite app_nil_r. cbn. split_and!; try done; lia.
  - intros base. exists []. rewrite app_nil_r. cbn. split_and!; try done; lia.
Qed.

(** a property kept by every turn of the loop holds when the crawler
    returns; the property may speak of the parsed seed, the robots
    policy and the delay of the session *)
Lemma frontier_invariant
    (P : Url.ParseResult -> Robots.t -> QArith_base.Q -> Session -> Prop)
    fuel seed r :
  (forall p rp delay,
      Url.urlparse seed = Some p -> load_robots w (base_of p) = Some rp ->
      delay_of (rps cfg) = Some delay ->
      P p rp delay (start (base_of p) r)
      /\ forall s s', turn w cfg out_dir (base_of p) rp delay s s' ->
                      P p rp delay s -> P p rp delay s') ->
  let s := (crawl_with_frontier w cfg out_dir fuel seed r).2 in
  s = nothing_yet r
  \/ exists p rp delay,
       Url.urlparse seed = Some p /\ load_robots w (base_of p) = Some rp
       /\ delay_of (rps cfg) = Some delay /\ P p rp delay s.
Proof.
  intros HP s. subst s.
  destruct (crawl_with_frontier_turns fuel seed r)
    as [-> | (p & rp & delay & Hp & Hrp & Hd & Hrtc)]; [by left|].
  right. exists p, rp, delay. split_and!; try done.
  destruct (HP p rp delay Hp Hrp Hd) as [Hstart Hstep].
  eapply turns_invariant; [exact Hstep|exact Hrtc|exact Hstart].
Qed.

Lemma sleeps_enq new : sleeps (List.map enq new) = [].
Proof. induction new as [|e new IH]; [done|]. apply IH. Qed.

Lemma saved_urls_enq new : saved_urls (List.map enq new) = [].
Proof. induction new as [|e new IH]; [done|]. apply IH. Qed.

(** X2: the depth limit bounds the frontier.  Every entry made from a
    link has a depth of at least 1, and of at most [depth_limit] unless
    the limit is 0 (no limit); with a negative limit no link is ever
    put on the frontier. *)
Theorem frontier_keeps_the_depth_limit fuel seed r :
  let s := (crawl_with_frontier w cfg out_dir fuel seed r).2 in
  exists evs,
    log (run s) = log r ++ evs
    /\ Forall (fun e => (1 <= e.2)%Z
                        /\ (depth_limit cfg = 0%Z \/ (e.2 <= depth_limit cfg)%Z))
              (enqueued evs)
    /\ ((depth_limit cfg < 0)%Z -> enqueued evs = []).
Proof.
  intros s.
  assert (exists evs,
             log (run s) = log r ++ evs
             /\ Forall (fun e => (1 <= e.2)%Z
                          /\ (depth_limit cfg = 0%Z \/ (e.2 <= depth_limit cfg)%Z))
                       (enqueued evs)) as (evs & Hlog & Hall).
  { subst s.
    apply (crawl_invariant w cfg out_dir
      (fun _ s =>
         (exists evs,
             log (run s) = log r ++ evs
             /\ Forall (fun e => (1 <= e.2)%Z
                          /\ (depth_limit cfg = 0%Z \/ (e.2 <= depth_limit cfg)%Z))
                       (enqueued evs))
         /\ Forall (fun e => (0 <= e.2)%Z) (queue s))).
    - intros base rp delay s s' Hturn [(evs & Hlog & Hall) Hq].
      apply turn_chunk in Hturn
        as (url & depth & q & Hqs & _ & [(Hl & -> & _) | [(Hl & -> & _) | Hfull]]);
        rewrite Hqs in Hq; apply Forall_cons in Hq as [Hdepth Hq];
        cbn [snd] in Hdepth.
      + split; [|done]. exists evs. by rewrite Hl.
      + split; [|done]. exists (evs ++ [EvGet url]).
        rewrite Hl, Hlog, <- app_assoc. split; [done|].
        unfold enqueued in *. rewrite omap_app. cbn. by rewrite app_nil_r.
      + destruct Hfull as (h & p & new & tail & Hl & Htail & -> & _ & Hnew & Hlim).
        split.
        * eexists. rewrite Hl, Hlog, <- app_assoc. split; [done|].
          unfold enqueued in *. rewrite !omap_app. cbn [omap list_omap].
          fold (enqueued (List.map enq new)). rewrite enqueued_enq.
          assert (omap (fun e => match e with
                                 | EvEnqueue u d => Some (u, d) | _ => None
                                 end) tail = []) as ->
            by (destruct Htail as [-> | ->]; done).
          rewrite app_nil_r. cbn. apply Forall_app. split; [done|].
          destruct Hlim as [-> | Hlim]; [constructor|].
          eapply Forall_impl; [exact Hnew|]. intros e ->. split; lia.
        * apply Forall_app. split; [done|].
          eapply Forall_impl; [exact Hnew|]. intros e ->. lia.
    - intros base. split.
      + exists []. rewrite app_nil_r. by split.
      + cbn. constructor; [done|constructor].
    - intros base. split; [|constructor].
      exists []. rewrite app_nil_r. by split. }
  exists evs. split_and!; try done.
  intros Hneg. destruct (enqueued evs) as [|e l]; [done|].
  apply Forall_cons in Hall as [[? [?|?]] _]; lia.
Qed.

Lemma delay_of_nonneg rate d :
  delay_of rate = Some d -> QArith_base.Qle (QArith_base.Qmake 0 1) d.
Proof.
  unfold delay_of. destruct (QArith_base.Qeq_bool rate _); [done|].
  destruct (QArith_base.Qle_bool _ (QArith_base.Qinv rate)) eqn:Hle;
    intros [= <-].
  - by apply QArith_base.Qle_bool_iff.
  - apply QArith_base.Qle_refl.
Qed.

(** X3: the crawler sleeps only after a page it has saved.  In every
    session the sleeps are at most as many as the saved pages, which
    are at most as many as the requests; a request that leads to no
    saved page is followed by no sleep.  Every sleep lasts the delay
    [max(0, 1/rps)], which is not negative. *)
Theorem frontier_sleeps_after_saved_pages fuel seed r :
  let s := (crawl_with_frontier w cfg out_dir fuel seed r).2 in
  exists evs,
    log (run s) = log r ++ evs
    /\ length (sleeps evs) <= length (saved_urls evs)
    /\ length (saved_urls evs) <= length (fetched evs)
    /\ Forall (fun d => delay_of (rps cfg) = Some d
                        /\ QArith_base.Qle (QArith_base.Qmake 0 1) d)
              (sleeps evs).
Proof.
  intros s.
  destruct (frontier_invariant
    (fun _ _ delay s => exists evs,
         log (run s) = log r ++ evs
         /\ length (sleeps evs) <= length (saved_urls evs)
         /\ length (saved_urls evs) <= length (fetched evs)
         /\ Forall (fun d => d = delay) (sleeps evs)) fuel seed r)
    as [Hs | (p & rp & delay & _ & _ & Hd & evs & Hlog & H1 & H2 & Hall)].
  - intros p rp delay _ _ _. split.
    { exists []. rewrite app_nil_r. by split_and!. }
    intros s0 s' Hturn (evs & Hlog & H1 & H2 & Hall).
    apply turn_chunk in Hturn
      as (url & depth & q & _ & _ & [(Hl & _) | [(Hl & _) | Hfull]]).
    + exists evs. by rewrite Hl.
    + exists (evs ++ [EvGet url]). rewrite Hl, Hlog, <- app_assoc.
      unfold sleeps, saved_urls, fetched in *. rewrite !omap_app, !length_app.
      cbn. rewrite app_nil_r. split_and!; try done; lia.
    + destruct Hfull as (h & op & new & tail & Hl & Htail & _).
      eexists. rewrite Hl, Hlog, <- app_assoc. split; [done|].
      unfold sleeps, saved_urls, fetched in *.
      rewrite !omap_app, !length_app. cbn [omap list_omap].
      fold (sleeps (List.map enq new)) (saved_urls (List.map enq new))
           (fetched (List.map enq new)).
      rewrite sleeps_enq, saved_urls_enq, fetched_enq.
      destruct Htail as [-> | ->]; cbn; rewrite ?app_nil_r;
        split_and!; try lia; try done.
      apply Forall_app. split; [done|]. by constructor.
  - subst s. rewrite Hs. exists []. rewrite app_nil_r. by split_and!.
  - exists evs. split_and!; try done.
    eapply Forall_impl; [exact Hall|]. intros d ->.
    split; [done|]. by apply delay_of_nonneg in Hd.
Qed.

(** X4: the first request of a session goes to the scope root, which
    is the seed's scheme, network location and path with a slash at
    the end; the seed as it was given is requested only if a page
    links to it. *)
Theorem frontier_starts_at_the_scope_root fuel seed r :
  let s := (crawl_with_frontier w cfg out_dir fuel seed r).2 in
  exists evs,
    log (run s) = log r ++ evs
    /\ (fetched evs = []
        \/ exists p rest,
             Url.urlparse seed = Some p
             /\ fetched evs = base_of p :: rest
             /\ Py.endswith "/" (base_of p) = true).
Proof.
  intros s.
  destruct (frontier_invariant
    (fun p _ _ s => exists evs,
         log (run s) = log r ++ evs
         /\ ((fetched evs = []
              /\ (queue s = [] \/ queue s = [(base_of p, 0%Z)]))
             \/ exists rest, fetched evs = base_of p :: rest)) fuel seed r)
    as [Hs | (p & rp & delay & Hp & _ & _ & evs & Hlog & Hfirst)].
  - intros p rp delay _ _ _. split.
    { exists []. rewrite app_nil_r. split; [done|]. left. split; [done|by right]. }
    intros s0 s' Hturn (evs & Hlog & Hfirst).
    apply turn_chunk in Hturn
      as (url & depth & q & Hqs & _ & Hcases).
    destruct Hfirst as [[Hnone [Hq | Hq]] | (rest & Hrest)].
    + by rewrite Hq in Hqs.
    + rewrite Hq in Hqs. injection Hqs as <- <- <-.
      destruct Hcases as [(Hl & -> & _) | [(Hl & -> & _) | Hfull]].
      * exists evs. rewrite Hl. split; [done|]. left. split; [done|by left].
      * exists (evs ++ [EvGet (base_of p)]). rewrite Hl, Hlog, <- app_assoc.
        split; [done|]. right. exists [].
        unfold fetched in *. rewrite omap_app, Hnone. done.
      * destruct Hfull as (h & op & new & tail & Hl & _).
        eexists. rewrite Hl, Hlog, <- app_assoc. split; [done|].
        right. unfold fetched in *. rewrite omap_app, Hnone. cbn. by eexists.
    + assert (exists chunk, log (run s') = log (run s0) ++ chunk)
        as [chunk Hl].
      { destruct Hcases as [(Hl & _) | [(Hl & _) | (? & ? & ? & ? & Hl & _)]];
          [exists []; by rewrite app_nil_r|by eexists..]. }
      exists (evs ++ chunk). rewrite Hl, Hlog, <- app_assoc. split; [done|].
      right. unfold fetched in *. rewrite omap_app, Hrest. by eexists.
  - subst s. rewrite Hs. exists []. rewrite app_nil_r. split; [done|by left].
  - exists evs. split; [done|].
    destruct Hfirst as [[Hnone _] | (rest & Hrest)]; [by left|].
    right. exists p, rest. split_and!; try done.
    unfold base_of.
    destruct (Py.endswith "/" (Url.path p)) eqn:Hend.
    + apply PyFacts.endswith_inv in Hend as [t ->].
      rewrite <- !PyFacts.app_assoc. by apply PyFacts.endswith_app.
    + rewrite <- !PyFacts.app_assoc. by apply PyFacts.endswith_app.
Qed.

(** a turn that adds to the log has requested the URL it took from
    the queue, and that URL has passed the filters *)
Lemma turn_request_allowed base rp delay s s' url depth q :
  turn w cfg out_dir base rp delay s s' ->
  queue s = (url, depth) :: q ->
  log (run s') <> log (run s) ->
  Robots.can_fetch rp url = Some true
  /\ match include_rx cfg with Some rx => rx url = true | None => True end
  /\ match exclude_rx cfg with Some rx => rx url = false | None => True end.
Proof.
  intros (url' & depth' & q' & st & Hq & _ & Hv) Hq' Hlog.
  rewrite Hq in Hq'. injection Hq' as -> -> ->.
  by apply visit_request_allowed in Hv as (_ & ? & ? & ?).
Qed.

(** X5: no URL is requested against the robots policy or the filters.
    Every URL a session requests is allowed by the robots policy the
    session loaded for its scope root, matches the include pattern
    when there is one, and does not match the exclude pattern when
    there is one. *)
Theorem frontier_requests_pass_the_filters fuel seed r :
  let s := (crawl_with_frontier w cfg out_dir fuel seed r).2 in
  exists evs,
    log (run s) = log r ++ evs
    /\ Forall (fun u =>
         exists p rp,
           Url.urlparse seed = Some p
           /\ load_robots w (base_of p) = Some rp
           /\ Robots.can_fetch rp u = Some true
           /\ match include_rx cfg with Some rx => rx u = true | None => True end
           /\ match exclude_rx cfg with Some rx => rx u = false | None => True end)
         (fetched evs).
Proof.
  intros s.
  destruct (frontier_invariant
    (fun _ rp _ s => exists evs,
         log (run s) = log r ++ evs
         /\ Forall (fun u =>
              Robots.can_fetch rp u = Some true
              /\ match include_rx cfg with Some rx => rx u = true | None => True end
              /\ match exclude_rx cfg with Some rx => rx u = false | None => True end)
              (fetched evs)) fuel seed r)
    as [Hs | (p & rp & delay & Hp & Hrp & _ & evs & Hlog & Hall)].
  - intros p rp delay _ _ _. split.
    { exists []. rewrite app_nil_r. by split. }
    intros s0 s' Hturn (evs & Hlog & Hall).
    pose proof (fun u d q0 => turn_request_allowed _ _ _ _ _ u d q0 Hturn)
      as Hallowed.
    apply turn_chunk in Hturn
      as (url & depth & q & Hqs & _ & [(Hl & _) | [(Hl & _) | Hfull]]).
    + exists evs. by rewrite Hl.
    + exists (evs ++ [EvGet url]). rewrite Hl, Hlog, <- app_assoc.
      split; [done|]. unfold fetched in *. rewrite omap_app.
      apply Forall_app. split; [done|]. constructor; [|constructor].
      apply (Hallowed _ _ _ Hqs). rewrite Hl. intros E.
      apply (f_equal length) in E. rewrite length_app in E. cbn in E. lia.
    + destruct Hfull as (h & op & new & tail & Hl & Htail & _).
      eexists. rewrite Hl, Hlog, <- app_assoc. split; [done|].
      unfold fetched in *. rewrite !omap_app. cbn [omap list_omap].
      fold (fetched (List.map enq new)). rewrite fetched_enq.
      assert (omap (fun e => match e with EvGet u => Some u | _ => None end) tail
              = []) as -> by (destruct Htail as [-> | ->]; done).
      cbn. apply Forall_app. split; [done|]. constructor; [|constructor].
      apply (Hallowed _ _ _ Hqs). rewrite Hl. intros E.
      apply (f_equal length) in E. rewrite !length_app in E. cbn in E. lia.
  - subst s. rewrite Hs. exists []. rewrite app_nil_r. by split.
  - exists evs. split; [done|].
    eapply Forall_impl; [exact Hall|]. intros u (? & ? & ?).
    exists p, rp. by split_and!.
Qed.

(** the page a turn saves *)
Lemma turn_saved base rp delay s s' :
  turn w cfg out_dir base rp delay s s' ->
  exists chunk,
    log (run s') = log (run s) ++ chunk
    /\ Forall (fun e =>
         match e with
         | EvSaved n u h out_path =>
             exists t resp,
               http_get w t u = Some resp
               /\ status_code resp = 200%Z
               /\ Py.contains "html" (content_type resp) = true
               /\ h = hash_content (text resp)
               /\ slugify_path out_dir base u (lang_hint cfg) (format cfg)
                  = Some out_path
         | _ => True
         end) chunk.
Proof.
  intros (url & depth & q & st & Hq & _ & Hv).
  apply visit_shape in Hv
    as [(_ & -> & _) | (_ & _ & _ & [Hno | [Hreq | Hfull]])].
  - exists []. by rewrite app_nil_r.
  - destruct Hno as (-> & _). exists []. by rewrite app_nil_r.
  - destruct Hreq as (-> & _). exists [EvGet url]. split; [done|].
    by repeat constructor.
  - destruct Hfull as (resp & out_path & r1 & new & tail & _ & Hget & Hhtml & _
                       & Hsave & _ & _ & _ & _ & Hlog & Htail & _).
    cbn [with_queue run pages] in *.
    eexists. split; [exact Hlog|].
    constructor; [done|]. constructor.
    + exists (instant (run s)), resp.
      unfold is_html_page in Hhtml.
      apply andb_true_iff in Hhtml as [Hcode Hct].
      split_and!; try done; [lia|].
      unfold save_page in Hsave.
      destruct (extract_main_content (text resp) url) as [[md meta] hc].
      destruct (slugify_path out_dir base url (lang_hint cfg) (format cfg))
        as [op|]; [|done].
      cbn [mbind option_bind] in Hsave. by injection Hsave as ->.
    + apply Forall_app. split.
      * clear. induction new as [|e new IH]; by constructor.
      * destruct Htail as [-> | ->]; by repeat constructor.
Qed.

(** X6: only pages answered with status 200 and an HTML content type
    are saved.  Every page the log shows as saved was returned by a
    request of the session with status code 200 and a content type
    that contains [html]; its hash is the hash of the body of that
    answer, and its file is the path the resolver gives for its URL
    under the scope root. *)
Theorem frontier_saves_html_answers_only fuel seed r :
  let s := (crawl_with_frontier w cfg out_dir fuel seed r).2 in
  exists evs,
    log (run s) = log r ++ evs
    /\ Forall (fun e =>
         match e with
         | EvSaved n u h out_path =>
             exists t resp p,
               http_get w t u = Some resp
               /\ status_code resp = 200%Z
               /\ Py.contains "html" (content_type resp) = true
               /\ h = hash_content (text resp)
               /\ Url.urlparse seed = Some p
               /\ slugify_path out_dir (base_of p) u (lang_hint cfg) (format cfg)
                  = Some out_path
         | _ => True
         end) evs.
Proof.
  intros s.
  destruct (frontier_invariant
    (fun p _ _ s => exists evs,
         log (run s) = log r ++ evs
         /\ Forall (fun e =>
              match e with
              | EvSaved n u h out_path =>
                  exists t resp,
                    http_get w t u = Some resp
                    /\ status_code resp = 200%Z
                    /\ Py.contains "html" (content_type resp) = true
                    /\ h = hash_content (text resp)
                    /\ slugify_path out_dir (base_of p) u (lang_hint cfg)
                         (format cfg) = Some out_path
              | _ => True
              end) evs) fuel seed r)
    as [Hs | (p & rp & delay & Hp & _ & _ & evs & Hlog & Hall)].
  - intros p rp delay _ _ _. split.
    { exists []. rewrite app_nil_r. by split. }
    intros s0 s' Hturn (evs & Hlog & Hall).
    apply turn_saved in Hturn as (chunk & Hl & Hchunk).
    exists (evs ++ chunk). rewrite Hl, Hlog, <- app_assoc. split; [done|].
    apply Forall_app. by split.
  - subst s. rewrite Hs. exists []. rewrite app_nil_r. by split.
  - exists evs. split; [done|].
    eapply Forall_impl; [exact Hall|]. intros [| n u h op | | | | | |]; try done.
    intros (t & resp & ? & ? & ? & ? & ?). exists t, resp, p. by split_and!.
Qed.

End FrontierBounds.
(** ** Robots policy, rate, sitemap crawl, batch *)

Section Sessions.
Context `{Lib}.
Variable w : World.
Variable cfg : Config.
Variable out_dir : Path.t.

(** X7: the robots policy of a session by the answer to the request
    for the robots file.  An answer 401 or 403 denies every URL; any
    other answer 400..499 (a missing file) allows every URL; an HTTP
    error outside 400..499 and a request that fails leave the parser
    unread, which denies every URL; a file that was read decides by its
    entries. *)
Theorem load_robots_policy seed rp robots_url parsed :
  load_robots w seed = Some rp ->
  Url.urljoin seed "/robots.txt" = Some robots_url ->
  Url.urlparse robots_url = Some parsed ->
  match robots_fetch w robots_url with
  | RobotsUnreachable => forall u, Robots.can_fetch rp u = Some false
  | RobotsHTTPError code =>
      ((code = 401 \/ code = 403)%Z ->
       forall u, Robots.can_fetch rp u = Some false)
      /\ ((400 <= code < 500)%Z -> code <> 401%Z -> code <> 403%Z ->
          forall u, Robots.can_fetch rp u = Some true)
      /\ ((code < 400 \/ 500 <= code)%Z ->
          forall u, Robots.can_fetch rp u = Some false)
  | RobotsFile verdict => forall u, Robots.can_fetch rp u = verdict u
  end.
Proof.
  unfold load_robots. intros Hrp Hjoin Hparse.
  rewrite Hjoin in Hrp. cbn [mbind option_bind] in Hrp.
  rewrite Hparse in Hrp. cbn [mbind option_bind] in Hrp.
  unfold Robots.read in Hrp.
  destruct (robots_fetch w robots_url) as [|code|verdict].
  - by injection Hrp as <-.
  - split_and!.
    + intros Hcode u.
      assert ((code =? 401)%Z || (code =? 403)%Z = true) as E
        by (apply orb_true_iff; lia).
      rewrite E in Hrp. by injection Hrp as <-.
    + intros Hrange H1 H3 u.
      assert ((code =? 401)%Z || (code =? 403)%Z = false) as E
        by (apply orb_false_iff; lia).
      assert ((400 <=? code)%Z && (code <? 500)%Z = true) as E'
        by (apply andb_true_iff; lia).
      rewrite E, E' in Hrp. by injection Hrp as <-.
    + intros Hrange u.
      assert ((code =? 401)%Z || (code =? 403)%Z = false) as E
        by (apply orb_false_iff; lia).
      assert ((400 <=? code)%Z && (code <? 500)%Z = false) as E'
        by (apply andb_false_iff; lia).
      rewrite E, E' in Hrp. by injection Hrp as <-.
  - by injection Hrp as <-.
Qed.

(** X8: a rate of 0 requests per second makes both crawlers raise (a
    division by zero) before any page is requested: the run is left
    as it was. *)
Theorem zero_rate_raises fuel seed r :
  QArith_base.Qeq_bool (rps cfg) (QArith_base.Qmake 0 1) = true ->
  crawl_with_frontier w cfg out_dir fuel seed r = (Failed, nothing_yet r)
  /\ crawl_sitemap_first w cfg out_dir seed r = (Failed, 0%Z, r).
Proof.
  intros Hzero. unfold crawl_with_frontier, crawl_sitemap_first, delay_of.
  rewrite Hzero. split; [|done].
  destruct (Url.urlparse seed) as [p|]; cbn [mbind option_bind]; [|done].
  by destruct (load_robots w (base_of p)).
Qed.

(** *** Sitemap crawl *)

(** the loop over the URLs of the sitemap: one request per URL, in
    order, unless the path resolver raises *)
Lemma sitemap_loop_spec seed delay urls count r st count' r' :
  sitemap_loop w cfg out_dir seed delay urls count r = (st, count', r') ->
  exists evs,
    log r' = log r ++ evs
    /\ count' = (count + Z.of_nat (length (saved_urls evs)))%Z
    /\ length (sleeps evs) = length (saved_urls evs)
    /\ length (saved_urls evs) <= length (fetched evs)
    /\ (st = Done -> fetched evs = urls)
    /\ (exists rest, urls = fetched evs ++ rest)
    /\ st <> Running.
Proof.
  revert count r. induction urls as [|url urls IH]; intros count r Hloop;
    cbn [sitemap_loop] in Hloop.
  - injection Hloop as <- <- <-. exists []. rewrite app_nil_r. cbn.
    split_and!; try done; [lia|by exists []].
  - assert (forall count0 r0,
               log r0 = log r ++ [EvGet url] ->
               sitemap_loop w cfg out_dir seed delay urls count0 r0
               = (st, count', r') ->
               count0 = count ->
               exists evs,
                 log r' = log r ++ evs
                 /\ count' = (count + Z.of_nat (length (saved_urls evs)))%Z
                 /\ length (sleeps evs) = length (saved_urls evs)
                 /\ length (saved_urls evs) <= length (fetched evs)
                 /\ (st = Done -> fetched evs = url :: urls)
                 /\ (exists rest, url :: urls = fetched evs ++ rest)
                 /\ st <> Running) as Hskip.
    { intros count0 r0 Hl Hrest ->.
      apply IH in Hrest as (evs & Hlog & Hc & Hs & Hle & Hf & (rest & Hr) & Hst).
      exists (EvGet url :: evs). rewrite Hlog, Hl, <- app_assoc.
      change (fetched (EvGet url :: evs)) with (url :: fetched evs).
      change (saved_urls (EvGet url :: evs)) with (saved_urls evs).
      change (sleeps (EvGet url :: evs)) with (sleeps evs).
      split_and!; try done.
      - cbn [length]. lia.
      - intros Hd. by rewrite (Hf Hd).
      - exists rest. cbn [app]. by rewrite <- Hr. }
    destruct (http_get w (instant r) url) as [resp|];
      [|by apply (Hskip count (emit (EvGet url) r))].
    destruct (is_html_page resp); cbn [negb] in Hloop;
      [|by apply (Hskip count (emit (EvGet url) r))].
    destruct (save_page w cfg out_dir seed url (text resp) (emit (EvGet url) r))
      as [[out_path r1]|] eqn:Hsave.
    + assert (log r1 = log r ++ [EvGet url]) as Hlog1.
      { unfold save_page in Hsave.
        destruct (extract_main_content (text resp) url) as [[md meta] hc].
        destruct (slugify_path out_dir seed url (lang_hint cfg) (format cfg));
          [|done].
        cbn [mbind option_bind] in Hsave. by injection Hsave as _ <-. }
      apply IH in Hloop as (evs & Hlog & Hc & Hs & Hle & Hf & (rest & Hr) & Hst).
      exists ([EvGet url;
               EvSaved (count + 1) url (hash_content (text resp)) out_path;
               EvSleep delay] ++ evs).
      cbn [emit log] in Hlog. rewrite Hlog, Hlog1, <- !app_assoc.
      change (fetched ([EvGet url;
                EvSaved (count + 1) url (hash_content (text resp)) out_path;
                EvSleep delay] ++ evs)) with (url :: fetched evs).
      change (saved_urls ([EvGet url;
                EvSaved (count + 1) url (hash_content (text resp)) out_path;
                EvSleep delay] ++ evs)) with (url :: saved_urls evs).
      change (sleeps ([EvGet url;
                EvSaved (count + 1) url (hash_content (text resp)) out_path;
                EvSleep delay] ++ evs)) with (delay :: sleeps evs).
      split_and!; try done.
      * rewrite Hc. cbn [length]. lia.
      * cbn [length]. by rewrite Hs.
      * cbn [length]. lia.
      * intros Hd. by rewrite (Hf Hd).
      * exists rest. cbn [app]. by rewrite <- Hr.
    + injection Hloop as <- <- <-. exists [EvGet url].
      split_and!; try done; [cbn; lia|cbn; lia|by exists urls].
Qed.

(** X9: the sitemap crawl requests every in-scope URL of the sitemap
    once per listing and in the order of the sitemap, with no robots
    check, no visited set and no comparison of bodies: when it
    returns, the requests of the call are the in-scope URLs as listed
    (duplicates included), the count it returns is the number of pages
    saved, and it has slept once after every saved page. *)
Theorem sitemap_crawl_requests_every_listed_url seed r :
  let res := crawl_sitemap_first w cfg out_dir seed r in
  res.1.1 = Done ->
  exists urls evs,
    in_scope seed (sitemap_urls w seed) = Some urls
    /\ log res.2 = log r ++ evs
    /\ fetched evs = urls
    /\ res.1.2 = Z.of_nat (length (saved_urls evs))
    /\ length (sleeps evs) = length (saved_urls evs)
    /\ (res.1.2 <= Z.of_nat (length urls))%Z.
Proof.
  intros res. subst res. unfold crawl_sitemap_first.
  destruct (delay_of (rps cfg)) as [delay|]; [|done].
  destruct (sitemap_urls w seed) as [|u0 all] eqn:Hall.
  { intros _. exists [], []. rewrite app_nil_r. by split_and!. }
  destruct (in_scope seed (u0 :: all)) as [[|u urls]|] eqn:Hscope; [| |done].
  { intros _. exists [], []. rewrite app_nil_r. by split_and!. }
  destruct (sitemap_loop w cfg out_dir seed delay (u :: urls) 0
              (emit (EvSitemapFound (length (u :: urls)) (length (u0 :: all))) r))
    as [[st cnt] r'] eqn:Hloop.
  cbn [fst snd]. intros ->.
  apply sitemap_loop_spec in Hloop as (evs & Hlog & Hc & Hs & Hle & Hf & _ & _).
  specialize (Hf eq_refl). cbn [emit log] in Hlog.
  exists (u :: urls), (EvSitemapFound (length (u :: urls)) (length (u0 :: all)) :: evs).
  rewrite Hlog, <- app_assoc.
  assert (cnt = Z.of_nat (length (saved_urls evs))) as Hcnt by lia.
  change (fetched (EvSitemapFound (length (u :: urls)) (length (u0 :: all)) :: evs))
    with (fetched evs).
  change (saved_urls (EvSitemapFound (length (u :: urls)) (length (u0 :: all)) :: evs))
    with (saved_urls evs).
  change (sleeps (EvSitemapFound (length (u :: urls)) (length (u0 :: all)) :: evs))
    with (sleeps evs).
  split_and!; try done.
  rewrite Hcnt, <- Hf. lia.
Qed.

Lemma sitemap_loop_ignores_robots rf seed delay urls count r :
  sitemap_loop
    {| http_get := http_get w; robots_fetch := rf;
       sitemap_urls := sitemap_urls w; clock := clock w |}
    cfg out_dir seed delay urls count r
  = sitemap_loop w cfg out_dir seed delay urls count r.
Proof.
  revert count r. induction urls as [|url urls IH]; intros count r; [done|].
  cbn [sitemap_loop http_get].
  destruct (http_get w (instant r) url) as [resp|]; [|apply IH].
  destruct (is_html_page resp); cbn [negb]; [|apply IH].
  unfold save_page. cbn [clock].
  destruct (extract_main_content (text resp) url) as [[md meta] hc].
  destruct (slugify_path out_dir seed url (lang_hint cfg) (format cfg));
    cbn [mbind option_bind]; [apply IH|done].
Qed.

(** X10: the sitemap crawl never consults the robots policy: whatever
    the request for the robots file would answer, the call requests and
    saves the same pages. *)
Theorem sitemap_crawl_ignores_robots rf seed r :
  crawl_sitemap_first
    {| http_get := http_get w; robots_fetch := rf;
       sitemap_urls := sitemap_urls w; clock := clock w |}
    cfg out_dir seed r
  = crawl_sitemap_first w cfg out_dir seed r.
Proof.
  unfold crawl_sitemap_first. cbn [sitemap_urls].
  destruct (delay_of (rps cfg)) as [delay|]; [|done].
  destruct (sitemap_urls w seed) as [|u0 all]; [done|].
  destruct (in_scope seed (u0 :: all)) as [[|u urls]|]; [done| |done].
  apply sitemap_loop_ignores_robots.
Qed.

(** *** The batch of seeds *)

Lemma main_loop_app fuel seeds1 seeds2 r total :
  main_loop w cfg out_dir fuel (seeds1 ++ seeds2) r total
  = match main_loop w cfg out_dir fuel seeds1 r total with
    | (Done, r1, t1) => main_loop w cfg out_dir fuel seeds2 r1 t1
    | other => other
    end.
Proof.
  revert r total. induction seeds1 as [|seed seeds1 IH]; intros r total; [done|].
  cbn [app main_loop].
  destruct (process_seed w cfg out_dir fuel seed r total) as [[[] r1] t1];
    [done|apply IH|done].
Qed.

(** X11: a seed that [urlparse] rejects ends the whole batch.  The
    seeds before it are processed; at the bad seed the exception leaves
    [main], so the seeds after it are never processed, whatever they
    are. *)
Theorem bad_seed_ends_the_batch fuel seeds1 bad seeds2 r total :
  Url.urlparse bad = None ->
  let before := main_loop w cfg out_dir fuel seeds1 r total in
  before.1.1 = Done ->
  main_loop w cfg out_dir fuel (seeds1 ++ bad :: seeds2) r total
  = (Failed, before.1.2, before.2).
Proof.
  intros Hbad before Hdone. subst before. rewrite main_loop_app.
  destruct (main_loop w cfg out_dir fuel seeds1 r total) as [[st r1] t1].
  cbn [fst snd] in *. subst st.
  cbn [main_loop]. unfold process_seed. by rewrite Hbad.
Qed.

End Sessions.

(** X7, witness: the site without a robots file (404). *)
Lemma load_robots_policy_witness :
  Robots.can_fetch
    {| Robots.disallow_all := false; Robots.allow_all := true;
       Robots.last_checked := false;
       Robots.entries := Robots.entries Robots.init |} "https://x/docs/a"
  = Some true.
Proof.
  assert (@load_robots demo_lib demo_world "https://x/docs/"
          = Some {| Robots.disallow_all := false; Robots.allow_all := true;
                    Robots.last_checked := false;
                    Robots.entries := Robots.entries Robots.init |}) as Hrp
    by (vm_compute; reflexivity).
  assert (@Url.urljoin demo_lib "https://x/docs/" "/robots.txt"
          = Some "https://x/robots.txt") as Hjoin by (vm_compute; reflexivity).
  assert (@Url.urlparse demo_lib "https://x/robots.txt"
          = Some {| Url.scheme := "https"; Url.netloc := "x";
                    Url.path := "/robots.txt"; Url.params := "";
                    Url.query := ""; Url.fragment := "" |}) as Hparse
    by (vm_compute; reflexivity).
  pose proof (@load_robots_policy demo_lib demo_world "https://x/docs/" _ _ _
                Hrp Hjoin Hparse) as Hpolicy.
  cbn [robots_fetch demo_world demo_site] in Hpolicy.
  destruct Hpolicy as (_ & Hallow & _). apply Hallow; lia.
Defined.

(** X8, witness: the three-page site with a rate of 0. *)
Lemma zero_rate_raises_witness :
  @crawl_with_frontier demo_lib demo_world zero_rate_config ["out"; "x"] 20
    "https://x/docs" empty_run
  = (Failed, nothing_yet empty_run)
  /\ @crawl_sitemap_first demo_lib demo_world zero_rate_config ["out"; "x"]
       "https://x/docs" empty_run
     = (Failed, 0%Z, empty_run).
Proof.
  apply (@zero_rate_raises demo_lib demo_world zero_rate_config ["out"; "x"] 20
           "https://x/docs" empty_run).
  reflexivity.
Defined.

(** X9, witness: the site whose sitemap lists [a] twice and a page out
    of scope; the page [a] is requested and saved twice. *)
Lemma sitemap_crawl_requests_every_listed_url_witness :
  let res := @crawl_sitemap_first demo_lib sitemap_site demo_config ["out"; "x"]
               "https://x/docs" empty_run in
  exists urls evs,
    @in_scope demo_lib "https://x/docs" (sitemap_urls sitemap_site "https://x/docs")
    = Some urls
    /\ log res.2 = log empty_run ++ evs
    /\ fetched evs = urls
    /\ res.1.2 = Z.of_nat (length (saved_urls evs))
    /\ length (sleeps evs) = length (saved_urls evs)
    /\ (res.1.2 <= Z.of_nat (length urls))%Z.
Proof.
  apply (@sitemap_crawl_requests_every_listed_url demo_lib sitemap_site demo_config
           ["out"; "x"] "https://x/docs" empty_run).
  vm_compute. reflexivity.
Defined.

(** the requests of that crawl *)
Example sitemap_crawl_sample :
  let res := @crawl_sitemap_first demo_lib sitemap_site demo_config ["out"; "x"]
               "https://x/docs" empty_run in
  res.1.2 = 3%Z
  /\ fetched (log res.2)
     = ["https://x/docs/a"; "https://x/docs/b"; "https://x/docs/a"].
Proof. vm_compute. by split. Qed.

(** X11, witness: a batch of three seeds whose second has an unclosed
    bracket. *)
Lemma bad_seed_ends_the_batch_witness :
  let before := @main_loop demo_lib demo_world demo_config ["out"] 20
                  ["https://x/docs"] empty_run 0 in
  @main_loop demo_lib demo_world demo_config ["out"] 20
    (["https://x/docs"] ++ "http://[x" :: ["https://x/docs/a"]) empty_run 0
  = (Failed, before.1.2, before.2).
Proof.
  apply (@bad_seed_ends_the_batch demo_lib demo_world demo_config ["out"] 20
           ["https://x/docs"] "http://[x" ["https://x/docs/a"] empty_run 0%Z).
  - vm_compute. reflexivity.
  - vm_compute. reflexivity.
Defined.
(** ** Path resolver: where the files go *)

Module SplitFacts.
Import Py PyFacts StrFacts.

Lemma all_rev f s : all f (rev s) = all f s.
Proof.
  induction s as [|a s IH]; [done|].
  rewrite rev_cons, all_app, IH. cbn. rewrite andb_true_r. apply andb_comm.
Qed.

Lemma all_rstrip f p s : all f s = true -> all f (rstrip p s) = true.
Proof.
  intros Hs. unfold rstrip. rewrite all_rev. apply all_lstrip.
  by rewrite all_rev.
Qed.

Lemma all_strip f p s : all f s = true -> all f (strip p s) = true.
Proof. intros Hs. unfold strip. by apply all_rstrip, all_lstrip. Qed.

(** [lstrip] takes a run of stripped characters off the front *)
Lemma lstrip_suffix p s : exists pre, s = pre +:+ lstrip p s /\ all p pre = true.
Proof.
  induction s as [|a s (pre & IH & Hpre)]; [by exists ""|]. cbn.
  destruct (p a) eqn:Ha.
  - exists (String a pre). rewrite app_cons, <- IH. cbn. by rewrite Ha.
  - by exists "".
Qed.

Lemma lstrip_head p s a t : lstrip p s = String a t -> p a = false.
Proof.
  induction s as [|b s IH]; [done|]. cbn.
  destruct (p b) eqn:Hb; [done|]. by intros [= <- _].
Qed.

(** [rstrip] takes a run of stripped characters off the end *)
Lemma rstrip_prefix p s : exists suf, s = rstrip p s +:+ suf /\ all p suf = true.
Proof.
  unfold rstrip. destruct (lstrip_suffix p (rev s)) as (pre & Hpre & Hall).
  exists (rev pre). split; [|by rewrite all_rev].
  rewrite <- rev_app, <- Hpre. by rewrite rev_involutive.
Qed.

(** a stripped text does not begin with a stripped character *)
Lemma strip_head p s a t : strip p s = String a t -> p a = false.
Proof.
  unfold strip. intros Hs.
  destruct (rstrip_prefix p (lstrip p s)) as (suf & Heq & _).
  rewrite Hs, app_cons in Heq. by apply lstrip_head in Heq.
Qed.

(** a stripped text does not end with a stripped character *)
Lemma rstrip_last p s t a : rstrip p s = t +:+ String a "" -> p a = false.
Proof.
  unfold rstrip. intros Hs.
  apply (f_equal rev) in Hs. rewrite rev_involutive, rev_app in Hs.
  change (rev (String a "")) with (String a "") in Hs.
  rewrite app_cons in Hs. by apply lstrip_head in Hs.
Qed.

(** *** [split] *)

Lemma split_nosep c e : has c e = false -> split c e = [e].
Proof.
  induction e as [|a e IH]; [done|]. cbn.
  intros [-> He]%orb_false_iff. by rewrite (IH He).
Qed.

Lemma split_nonempty c s : split c s <> [].
Proof.
  induction s as [|a s IH]; [done|]. cbn.
  destruct (Ascii.eqb a c); [done|]. by destruct (split c s).
Qed.

(** text added behind the last separator goes to the last piece *)
Lemma split_last_app c t e :
  has c e = false ->
  exists init lastp,
    split c t = init ++ [lastp] /\ split c (t +:+ e) = init ++ [lastp +:+ e].
Proof.
  intros He. induction t as [|a t (init & lastp & Ht & Hte)].
  - exists [], "". change ("" +:+ e) with e. by rewrite (split_nosep _ _ He).
  - rewrite app_cons. cbn [split]. destruct (Ascii.eqb a c).
    + exists ("" :: init), lastp. by rewrite Ht, Hte.
    + rewrite Ht, Hte. destruct init as [|h tl].
      * by exists [], (String a lastp).
      * by exists (String a h :: tl), lastp.
Qed.

(** the pieces hold no separator, and nothing the text does not hold *)
Lemma split_pieces c s :
  Forall (fun piece =>
            has c piece = false
            /\ (forall f, all f s = true -> all f piece = true)
            /\ (forall f, len (filter f piece) <= len (filter f s)))
         (split c s).
Proof.
  induction s as [|a s IH]; [by repeat constructor|]. cbn [split].
  assert (forall piece,
             has c piece = false
             /\ (forall f, all f s = true -> all f piece = true)
             /\ (forall f, len (filter f piece) <= len (filter f s)) ->
             has c piece = false
             /\ (forall f, all f (String a s) = true -> all f piece = true)
             /\ (forall f, len (filter f piece) <= len (filter f (String a s))))
    as Hweak.
  { intros piece (? & Hall & Hlen). split_and!; [done| |].
    - intros f [_ Hs]%andb_true_iff. by apply Hall.
    - intros f. specialize (Hlen f). cbn. destruct (f a); cbn; unfold len in *; lia. }
  destruct (Ascii.eqb a c) eqn:Hac.
  - constructor.
    + split_and!; [done|done|]. intros f. cbn. lia.
    + eapply Forall_impl; [exact IH|]. apply Hweak.
  - destruct (split c s) as [|h tl] eqn:Hs; [by destruct (split_nonempty c s)|].
    apply Forall_cons in IH as [(Hh & Hall & Hlen) Htl].
    constructor.
    + split_and!.
      * cbn. by rewrite Hac.
      * intros f [Ha Hs']%andb_true_iff. cbn. by rewrite Ha, (Hall f Hs').
      * intros f. specialize (Hlen f). cbn.
        destruct (f a); cbn; unfold len in *; lia.
    + eapply Forall_impl; [exact Htl|]. apply Hweak.
Qed.

End SplitFacts.

Section Containment.
Context `{Lib}.
Import Py PyFacts StrFacts SplitFacts.

Lemma sanitize_safe path : all path_safe (sanitize path) = true.
Proof.
  unfold sanitize. induction path as [|a s IH]; [done|]. cbn.
  rewrite IH, andb_true_r. by destruct (path_safe a) eqn:Ha.
Qed.

Lemma path_safe_plain c :
  implb (path_safe c)
        (negb (Ascii.eqb c ".") && (path_safe c || Ascii.eqb c ".")) = true.
Proof. destruct c as [[] [] [] [] [] [] [] []]; vm_compute; reflexivity. Qed.

Lemma Forall_filter_keep {A} (P : A -> Prop) (f : A -> bool) (l : list A) :
  Forall (fun x => f x = true -> P x) l -> Forall P (List.filter f l).
Proof.
  induction 1 as [|x l Hx _ IH]; [constructor|]. cbn.
  destruct (f x) eqn:Hf; [constructor; auto|done].
Qed.

(** the four formats of the command line *)
Lemma format_ext fmt :
  Url.mem fmt ["md"; "json"; "txt"; "html"] = true ->
  (if String.eqb fmt "md" then ".md" else "." +:+ fmt) = "." +:+ fmt
  /\ has "/" ("." +:+ fmt) = false
  /\ all (fun c => path_safe c || Ascii.eqb c ".") ("." +:+ fmt) = true
  /\ len (filter (eqc ".") ("." +:+ fmt)) = 1
  /\ 3 <= len ("." +:+ fmt).
Proof.
  unfold Url.mem. cbn [existsb]. rewrite orb_false_r.
  by intros [->%String.eqb_eq | [->%String.eqb_eq | [->%String.eqb_eq
             | ->%String.eqb_eq]%orb_true_iff]%orb_true_iff]%orb_true_iff;
    split_and!; vm_compute; (reflexivity || lia).
Qed.

(** X12: the path resolver never leaves the output folder.  For the
    four formats of the command line, the path it returns is the
    output folder followed by at least one part; no part is empty,
    [.] or [..], none holds a slash, every part is made of ASCII
    letters, digits, [_], [-] and [.] only, and the file name ends
    with the extension of the format. *)
Theorem slugify_path_stays_inside base root page lang fmt p :
  Url.mem fmt ["md"; "json"; "txt"; "html"] = true ->
  slugify_path base root page lang fmt = Some p ->
  exists rel,
    p = base ++ rel
    /\ rel <> []
    /\ Forall (fun part =>
                 part <> "" /\ part <> "." /\ part <> ".."
                 /\ has "/" part = false
                 /\ all (fun c => path_safe c || Ascii.eqb c ".") part = true)
              rel
    /\ endswith ("." +:+ fmt) (Path.name p) = true.
Proof.
  intros Hfmt. unfold slugify_path.
  destruct (Url.urlparse root) as [a|]; [|done].
  destruct (Url.urlparse page) as [b|]; [|done].
  cbn [mbind option_bind]. cbv zeta.
  set (path := flatten_index _ _).
  destruct (format_ext fmt Hfmt) as (-> & Hslash & Hchars & Hdots & Hlen).
  set (ext := "." +:+ fmt) in *.
  set (safe := strip (eqc "/") (sanitize path)).
  intros [= <-].
  assert (all path_safe safe = true) as Hsafe
    by apply all_strip, sanitize_safe.
  (* the text does not begin with a slash *)
  assert (startswith "/" (safe +:+ ext) = false) as Hstart.
  { destruct safe as [|c t] eqn:Hs.
    - subst ext. done.
    - apply strip_head in Hs. rewrite app_cons.
      change (startswith "/" (String c (t +:+ ext)))
        with (Ascii.eqb "/" c && true).
      unfold eqc in Hs. by rewrite Hs. }
  unfold Path.join. rewrite Hstart.
  exists (Path.parts (safe +:+ ext)). split; [done|].
  (* the pieces of the text *)
  destruct (split_last_app "/" safe ext Hslash) as (init & lastp & _ & Hsplit).
  assert (Url.nonempty (lastp +:+ ext) && negb (String.eqb (lastp +:+ ext) ".")
          = true) as Hkeep.
  { assert (3 <= len (lastp +:+ ext)) as Hl by (rewrite len_app; lia).
    destruct (lastp +:+ ext) as [|c1 [|c2 s]]; cbn in Hl; try lia.
    unfold Url.nonempty.
    destruct (String.eqb_spec (String c1 (String c2 s)) "."); [done|].
    by destruct (String.eqb_spec (String c1 (String c2 s)) ""). }
  unfold Path.parts, Path.name. rewrite Hsplit.
  split_and!.
  - rewrite List.filter_app. cbn. rewrite Hkeep.
    intros E. by apply app_eq_nil in E as [_ ?].
  - rewrite <- Hsplit. apply Forall_filter_keep.
    eapply Forall_impl; [apply (split_pieces "/" (safe +:+ ext))|].
    intros part (Hno & Hall & Hcount) Hkept.
    apply andb_true_iff in Hkept as [Hne Hdot].
    split_and!; try done.
    + intros ->. done.
    + intros ->. done.
    + intros ->. specialize (Hcount (eqc ".")).
      rewrite filter_app, len_app, Hdots in Hcount.
      assert (filter (eqc ".") safe = "") as E.
      { clear -Hsafe. induction safe as [|c s IH]; [done|].
        cbn [filter all] in *.
        apply andb_true_iff in Hsafe as [Hc Hs].
        pose proof (path_safe_plain c) as Hp. rewrite Hc in Hp. cbn in Hp.
        apply andb_true_iff in Hp as [Hp _]. apply negb_true_iff in Hp.
        unfold eqc. rewrite Ascii.eqb_sym, Hp. by apply IH. }
      rewrite E in Hcount. cbn in Hcount. lia.
    + apply Hall. rewrite all_app, Hchars, andb_true_r.
      eapply all_impl; [|exact Hsafe]. intros c Hc.
      by rewrite Hc.
  - rewrite List.filter_app. cbn [List.filter]. rewrite Hkeep.
    rewrite List.app_assoc, List.last_last. apply endswith_app.
Qed.

End Containment.

(** X12, witness: a folder index under the scope root. *)
Lemma slugify_path_stays_inside_witness :
  exists rel,
    ["out"; "x"; "docs"; "guide.md"] = ["out"; "x"] ++ rel
    /\ rel <> []
    /\ Forall (fun part =>
                 part <> "" /\ part <> "." /\ part <> ".."
                 /\ Py.has "/" part = false
                 /\ Py.all (fun c => path_safe c || Ascii.eqb c ".") part = true)
              rel
    /\ Py.endswith ("." +:+ "md") (Path.name ["out"; "x"; "docs"; "guide.md"]) = true.
Proof.
  apply (@slugify_path_stays_inside demo_lib ["out"; "x"] "https://x/docs/"
           "https://x/docs/guide/index.html" "" "md").
  - reflexivity.
  - vm_compute. reflexivity.
Defined.

(** ** Frontier crawler: the files of a session *)

Section SessionFiles.
Context `{Lib}.
Variable w : World.
Variable cfg : Config.
Variable out_dir : Path.t.

(** the writer touches one path, and removes nothing *)
Lemma write_output_touches d p content meta fmt hc diff now :
  let d' := write_output d p content meta fmt hc diff now in
  (forall q, q <> p -> files d' !! q = files d !! q)
  /\ (forall q, is_Some (files d !! q) -> is_Some (files d' !! q))
  /\ exists k, writes d' = writes d ++ k /\ Forall (fun e => e.1 = p) k.
Proof.
  unfold write_output.
  destruct (match files d !! p with Some _ => _ | None => false end).
  - split_and!; try done. exists []. by rewrite app_nil_r.
  - cbn [files writes]. split_and!.
    + intros q Hq. by rewrite lookup_insert_ne.
    + intros q Hq. destruct (decide (q = p)) as [->|Hne].
      * rewrite lookup_insert_eq. by eexists.
      * by rewrite lookup_insert_ne.
    + eexists. split; [done|]. by repeat constructor.
Qed.

(** the disk after one turn *)
Lemma turn_disk base rp delay s s' :
  turn w cfg out_dir base rp delay s s' ->
  disk (run s') = disk (run s)
  \/ exists url out_path content meta hc now,
       slugify_path out_dir base url (lang_hint cfg) (format cfg) = Some out_path
       /\ disk (run s')
          = write_output (disk (run s)) out_path content meta (format cfg) hc
              (diff cfg) now.
Proof.
  intros (url & depth & q & st & Hq & _ & Hv).
  apply visit_shape in Hv
    as [(_ & -> & _) | (_ & _ & _ & [Hno | [Hreq | Hfull]])].
  - by left.
  - destruct Hno as (-> & _). by left.
  - destruct Hreq as (-> & _). by left.
  - destruct Hfull as (resp & out_path & r1 & new & tail & _ & _ & _ & _
                       & Hsave & _ & _ & _ & Hdisk & _).
    right. cbn [with_queue run] in *. rewrite Hdisk.
    unfold save_page in Hsave.
    destruct (extract_main_content (text resp) url) as [[md meta] hc].
    destruct (slugify_path out_dir base url (lang_hint cfg) (format cfg))
      as [op|] eqn:Hslug; [|done].
    cbn [mbind option_bind] in Hsave. injection Hsave as <- <-.
    exists url, op, md, meta, hc. eexists. split; [done|]. reflexivity.
Qed.

(** X13: a frontier-crawl session changes no file outside its output
    folder and removes none.  For the four formats of the command
    line, every path that is not under the output folder holds after
    the session what it held before, every file that was there is
    still there, and every write of the session goes to a path under
    the output folder. *)
Theorem frontier_writes_inside_out_dir fuel seed r :
  Url.mem (format cfg) ["md"; "json"; "txt"; "html"] = true ->
  let s := (crawl_with_frontier w cfg out_dir fuel seed r).2 in
  (forall q, (forall rel, q <> out_dir ++ rel) ->
             files (disk (run s)) !! q = files (disk r) !! q)
  /\ (forall q, is_Some (files (disk r) !! q) ->
                is_Some (files (disk (run s)) !! q))
  /\ exists k,
       writes (disk (run s)) = writes (disk r) ++ k
       /\ Forall (fun e => exists rel, e.1 = out_dir ++ rel /\ rel <> []) k.
Proof.
  intros Hfmt.
  apply (crawl_invariant w cfg out_dir
    (fun _ s =>
       (forall q, (forall rel, q <> out_dir ++ rel) ->
                  files (disk (run s)) !! q = files (disk r) !! q)
       /\ (forall q, is_Some (files (disk r) !! q) ->
                     is_Some (files (disk (run s)) !! q))
       /\ exists k,
            writes (disk (run s)) = writes (disk r) ++ k
            /\ Forall (fun e => exists rel, e.1 = out_dir ++ rel /\ rel <> []) k)).
  - intros base rp delay s s' Hturn (Hout & Hkeep & k & Hk & Hall).
    apply turn_disk in Hturn
      as [-> | (url & p & content & meta & hc & now & Hslug & ->)]; [by eauto|].
    apply (slugify_path_stays_inside _ _ _ _ _ _ Hfmt) in Hslug
      as (rel & -> & Hrel & _).
    destruct (write_output_touches (disk (run s)) (out_dir ++ rel) content meta
                (format cfg) hc (diff cfg) now)
      as (Hframe & Hstay & k' & Hk' & Hall').
    split_and!.
    + intros q Hq. rewrite Hframe; [by apply Hout|apply Hq].
    + intros q Hq. by apply Hstay, Hkeep.
    + exists (k ++ k'). rewrite Hk', Hk, <- app_assoc. split; [done|].
      apply Forall_app. split; [done|].
      eapply Forall_impl; [exact Hall'|]. intros e He. by exists rel.
  - intros base. split_and!; try done. exists []. by rewrite app_nil_r.
  - intros base. split_and!; try done. exists []. by rewrite app_nil_r.
Qed.

End SessionFiles.

(** X13, witness: the crawl of the three-page site. *)
Lemma frontier_writes_inside_out_dir_witness :
  let s := (@crawl_with_frontier demo_lib demo_world demo_config ["out"; "x"] 20
              "https://x/docs" empty_run).2 in
  (forall q, (forall rel, q <> ["out"; "x"] ++ rel) ->
             files (disk (run s)) !! q = files (disk empty_run) !! q)
  /\ (forall q, is_Some (files (disk empty_run) !! q) ->
                is_Some (files (disk (run s)) !! q))
  /\ exists k,
       writes (disk (run s)) = writes (disk empty_run) ++ k
       /\ Forall (fun e => exists rel, e.1 = ["out"; "x"] ++ rel /\ rel <> []) k.
Proof.
  apply (@frontier_writes_inside_out_dir demo_lib demo_world demo_config
           ["out"; "x"] 20 "https://x/docs" empty_run).
  reflexivity.
Defined.
(** ** Content extractor: the tree that is printed *)

Module DomFacts.
Import Dom.

(** induction on a node with the hypothesis for every child *)
Lemma node_ind' (P : node -> Prop) :
  (forall v s, P (Str v s)) ->
  (forall t a c, Forall P c -> P (Elem t a c)) ->
  forall n, P n.
Proof.
  intros HS HE. fix IH 1. intros [v s|t a c]; [apply HS|]. apply HE.
  induction c as [|m c IHc]; constructor; [apply IH|apply IHc].
Qed.

(** *** The functions on the children of an element *)

Lemma find_all_elem p t a c :
  find_all p (Elem t a c)
  = (if p (Elem t a c) then [Elem t a c] else []) ++ find_all_in p c.
Proof. reflexivity. Qed.

Lemma find_all_in_cons p m l :
  find_all_in p (m :: l) = find_all p m ++ find_all_in p l.
Proof. reflexivity. Qed.

Lemma remove_all_elem p t a c :
  remove_all p (Elem t a c) = Elem t a (remove_all_in p c).
Proof.
  cbn [remove_all]. f_equal.
  induction c as [|m c IH]; [done|]. cbn [remove_all_in]. by rewrite IH.
Qed.

Lemma update_first_elem p f t a c :
  update_first p f (Elem t a c)
  = if p (Elem t a c) then Some (f (Elem t a c))
    else match update_first_in p f c with
         | Some c' => Some (Elem t a c')
         | None => None
         end.
Proof.
  cbn [update_first]. destruct (p (Elem t a c)); [done|].
  match goal with
  | |- match ?g c with _ => _ end = _ =>
      assert (g c = update_first_in p f c) as ->; [|done]
  end.
  induction c as [|m c IH]; [done|]. cbn [update_first_in]. by rewrite IH.
Qed.

(** *** Nodes found below a node *)

Lemma find_all_in_nil p l :
  find_all_in p l = [] <-> Forall (fun m => find_all p m = []) l.
Proof.
  induction l as [|m l IH]; [by split; [constructor|]|].
  rewrite find_all_in_cons. split.
  - intros [Hm Hl]%app_eq_nil. constructor; [done|by apply IH].
  - intros [Hm Hl]%Forall_cons. by rewrite Hm, (proj2 IH Hl).
Qed.

Lemma in_find_all_in p l n :
  In n (find_all_in p l) -> exists m, In m l /\ In n (find_all p m).
Proof.
  induction l as [|m l IH]; [done|]. rewrite find_all_in_cons.
  intros [Hin | Hin]%in_app_iff.
  - exists m. split; [by left|done].
  - destruct (IH Hin) as (m' & ? & ?). exists m'. split; [by right|done].
Qed.

(** a node found below a node without a match for [q] has no match
    for [q] either *)
Lemma found_below p q m n :
  In n (find_all p m) -> find_all q m = [] -> find_all q n = [].
Proof.
  revert n. induction m as [v s|t a c IH] using node_ind'; intros n Hin Hq.
  - cbn in Hin. destruct (p (Str v s)); cbn in Hin; [|done].
    by destruct Hin as [<- | []].
  - rewrite find_all_elem in Hin. apply in_app_iff in Hin as [Hin | Hin].
    + destruct (p (Elem t a c)); [|done]. by destruct Hin as [<- | []].
    + rewrite find_all_elem in Hq. apply app_eq_nil in Hq as [_ Hq].
      apply find_all_in_nil in Hq.
      apply in_find_all_in in Hin as (m & Hm & Hin).
      rewrite List.Forall_forall in IH, Hq. by apply (IH m Hm n Hin), Hq.
Qed.

Lemma found_below_in p q l n :
  find_in p l = Some n -> find_all_in q l = [] -> find_all q n = [].
Proof.
  unfold find_in. intros Hhead Hq.
  assert (In n (find_all_in p l)) as Hin.
  { destruct (find_all_in p l); [done|].
    cbn in Hhead. injection Hhead as ->. by left. }
  apply in_find_all_in in Hin as (m & Hm & Hin).
  apply find_all_in_nil in Hq. rewrite List.Forall_forall in Hq.
  by apply (found_below p q m n Hin), Hq.
Qed.

(** *** Removing elements *)

(** for a test that looks at the tag and the attributes only, nothing
    that passes the test is left *)
Lemma remove_all_in_none p l :
  (forall t a c c', p (Elem t a c) = p (Elem t a c')) ->
  find_all_in p (remove_all_in p l) = [].
Proof.
  intros Hp.
  assert (forall n, p n = false -> find_all p (remove_all p n) = []) as Hnode.
  { induction n as [v s|t a c IH] using node_ind'; intros Hn.
    - cbn. by rewrite Hn.
    - rewrite remove_all_elem, find_all_elem, (Hp t a _ c), Hn. cbn [app].
      clear Hn. induction c as [|m c IHc]; [done|].
      apply Forall_cons in IH as [Hm Hc]. cbn [remove_all_in].
      destruct (p m) eqn:Hpm; [by apply IHc|].
      by rewrite find_all_in_cons, (Hm eq_refl), (IHc Hc). }
  induction l as [|m l IH]; [done|]. cbn [remove_all_in].
  destruct (p m) eqn:Hm; [done|].
  by rewrite find_all_in_cons, (Hnode m Hm), IH.
Qed.

(** *** Changing the first match *)

Lemma update_first_none p f n :
  update_first p f n = None -> find_all p n = [].
Proof.
  induction n as [v s|t a c IH] using node_ind'.
  - cbn. by destruct (p (Str v s)).
  - rewrite update_first_elem, find_all_elem.
    destruct (p (Elem t a c)); [done|]. cbn [app].
    destruct (update_first_in p f c) as [c'|] eqn:Hc; [done|]. intros _.
    induction c as [|m c IHc]; [done|].
    apply Forall_cons in IH as [Hm Hl]. cbn [update_first_in] in Hc.
    destruct (update_first p f m) eqn:Hup; [done|].
    destruct (update_first_in p f c); [done|].
    by rewrite find_all_in_cons, (Hm eq_refl), (IHc Hl).
Qed.

Lemma update_first_lift p f l l' :
  Forall (fun m => forall m',
              update_first p f m = Some m' ->
              exists x, List.head (find_all p m) = Some x
                        /\ List.head (find_all p m') = Some (f x)) l ->
  update_first_in p f l = Some l' ->
  exists x, find_in p l = Some x /\ find_in p l' = Some (f x).
Proof.
  unfold find_in. revert l'.
  induction l as [|m l IH]; intros l' Hall Hup; [done|].
  apply Forall_cons in Hall as [Hm Hl]. cbn [update_first_in] in Hup.
  destruct (update_first p f m) as [m'|] eqn:Hupm.
  - injection Hup as <-. destruct (Hm m' eq_refl) as (x & Hx & Hx').
    exists x. rewrite !find_all_in_cons.
    destruct (find_all p m); [done|]. destruct (find_all p m'); [done|]. done.
  - destruct (update_first_in p f l) as [r|]; [|done]. injection Hup as <-.
    destruct (IH r Hl eq_refl) as (x & Hx & Hx').
    exists x. rewrite !find_all_in_cons, (update_first_none _ _ _ Hupm). done.
Qed.

Lemma find_all_head_self p n : p n = true -> List.head (find_all p n) = Some n.
Proof. intros Hp. destruct n; cbn; by rewrite Hp. Qed.

(** when the test looks at the tag and the attributes only and [f]
    keeps it, the first match of the changed tree is the changed first
    match *)
Lemma update_first_found p f n n' :
  (forall t a c c', p (Elem t a c) = p (Elem t a c')) ->
  (forall m, p m = true -> p (f m) = true) ->
  update_first p f n = Some n' ->
  exists x, List.head (find_all p n) = Some x
            /\ List.head (find_all p n') = Some (f x).
Proof.
  intros Hp Hf. revert n'.
  induction n as [v s|t a c IH] using node_ind'; intros n' Hup.
  - cbn in Hup. destruct (p (Str v s)) eqn:Hs; [|done].
    injection Hup as <-. exists (Str v s).
    split; [by apply find_all_head_self|by apply find_all_head_self, Hf].
  - rewrite update_first_elem in Hup. destruct (p (Elem t a c)) eqn:He.
    { injection Hup as <-. exists (Elem t a c).
      split; [by apply find_all_head_self|by apply find_all_head_self, Hf]. }
    destruct (update_first_in p f c) as [c'|] eqn:Hc; [|done].
    injection Hup as <-.
    rewrite !find_all_elem, (Hp t a c' c), He. cbn [app].
    by apply update_first_lift.
Qed.

Lemma update_first_in_found p f l l' :
  (forall t a c c', p (Elem t a c) = p (Elem t a c')) ->
  (forall m, p m = true -> p (f m) = true) ->
  update_first_in p f l = Some l' ->
  exists x, find_in p l = Some x /\ find_in p l' = Some (f x).
Proof.
  intros Hp Hf. apply update_first_lift.
  apply List.Forall_forall. intros m _ m'. by apply update_first_found.
Qed.

Lemma update_first_in_none p f l :
  update_first_in p f l = None -> find_in p l = None.
Proof.
  unfold find_in. induction l as [|m l IH]; [done|]. cbn [update_first_in].
  destruct (update_first p f m) eqn:Hm; [done|].
  destruct (update_first_in p f l); [done|]. intros _.
  rewrite find_all_in_cons, (update_first_none _ _ _ Hm). cbn [app].
  by apply IH.
Qed.

End DomFacts.

Section PrintedTree.
Context `{Lib}.
Import Dom DomFacts.

Lemma replace_pres_elem idx t a c :
  replace_pres idx (Elem t a c)
  = if String.eqb t "pre" then Str true (placeholder idx)
    else Elem t a (replace_pres_in idx c).
Proof.
  cbn [replace_pres]. by destruct (String.eqb t "pre").
Qed.

(** after the code blocks have made room for their placeholders no
    [pre] element is left *)
Lemma replace_pres_none idx n : find_all is_pre (replace_pres idx n) = [].
Proof.
  revert idx. induction n as [v s|t a c IH] using node_ind'; intros idx; [done|].
  rewrite replace_pres_elem. destruct (String.eqb t "pre") eqn:Ht; [done|].
  rewrite find_all_elem. unfold is_pre at 1. cbn [is_tag]. rewrite Ht.
  cbn [app]. revert idx. induction c as [|m c IHc]; intros idx; [done|].
  apply Forall_cons in IH as [Hm Hc]. cbn [replace_pres_in].
  by rewrite find_all_in_cons, Hm, (IHc Hc).
Qed.

(** and no clutter comes in *)
Lemma replace_pres_clutter idx n :
  find_all is_clutter n = [] ->
  find_all is_clutter (replace_pres idx n) = [].
Proof.
  revert idx. induction n as [v s|t a c IH] using node_ind'; intros idx Hn;
    [done|].
  rewrite replace_pres_elem. destruct (String.eqb t "pre"); [done|].
  rewrite find_all_elem in *. apply app_eq_nil in Hn as [Hroot Hc].
  change (is_clutter (Elem t a (replace_pres_in idx c)))
    with (is_clutter (Elem t a c)).
  destruct (is_clutter (Elem t a c)); [done|]. cbn [app]. clear Hroot.
  revert idx. induction c as [|m c IHc]; intros idx; [done|].
  apply Forall_cons in IH as [Hm Hl].
  rewrite find_all_in_cons in Hc. apply app_eq_nil in Hc as [Hcm Hcl].
  cbn [replace_pres_in].
  by rewrite find_all_in_cons, (Hm _ Hcm), (IHc Hl Hcl).
Qed.

(** the tests for the main container look at the tag and the
    attributes only, and no [pre] element passes one *)
Lemma main_selectors_shallow :
  Forall (fun p : node -> bool =>
            (forall t a c c', p (Elem t a c) = p (Elem t a c'))
            /\ (forall a c, p (Elem "pre" a c) = false)
            /\ (forall v s, p (Str v s) = false))
         main_selectors.
Proof. unfold main_selectors. repeat constructor. Qed.

Lemma selector_kept p idx m :
  (forall t a c c', p (Elem t a c) = p (Elem t a c')) ->
  (forall a c, p (Elem "pre" a c) = false) ->
  (forall v s, p (Str v s) = false) ->
  p m = true -> p (replace_pres idx m) = true.
Proof.
  intros Hshallow Hpre Hstr Hm. destruct m as [v s|t a c].
  - by rewrite Hstr in Hm.
  - rewrite replace_pres_elem.
    destruct (String.eqb_spec t "pre") as [->|_]; [by rewrite Hpre in Hm|].
    by rewrite (Hshallow t a _ c).
Qed.

(** X14: the cleaned HTML and the Markdown are made from one pruned
    tree.  When the page has a main container (one of the candidates
    is found once the clutter is removed), the cleaned HTML is the
    printout of that container with its code blocks replaced by their
    placeholders: a tree that holds no [nav], [aside], [script],
    [style], [header], [footer], [form] or [img] element and no [pre]
    element; and the Markdown is the polished conversion of the same
    printout, with the fenced blocks of the container's [pre]
    elements.  When the page has no container, the cleaned HTML is
    empty and the Markdown is made from the whole document. *)
Theorem cleaned_html_is_pruned html page_url :
  let res := extract_main_content html page_url in
  let soup := remove_all_in is_clutter (bs_parse html) in
  (forall p,
      select_main soup = Some p ->
      exists m,
        find_in p soup = Some m
        /\ res.2 = bs_str (replace_pres 0 m)
        /\ res.1.1
           = polish (fence_map_of (find_all_in is_pre (children_of m)))
               (h2t_handle (bs_str (replace_pres 0 m)))
        /\ find_all is_clutter (replace_pres 0 m) = []
        /\ find_all is_pre (replace_pres 0 m) = [])
  /\ (select_main soup = None ->
      res.2 = ""
      /\ res.1.1
         = polish (fence_map_of (find_all_in is_pre soup))
             (h2t_handle (str_of_soup (replace_pres_in 0 soup)))).
Proof.
  intros res soup. subst res. unfold extract_main_content. fold soup.
  assert (find_all_in is_clutter soup = []) as Hclean
    by (apply remove_all_in_none; done).
  split.
  - intros p Hsel. rewrite Hsel. cbn [mbind option_bind].
    unfold select_main in Hsel. apply List.find_some in Hsel as [Hin Hfound].
    apply bool_decide_eq_true in Hfound as [m Hm].
    pose proof main_selectors_shallow as Hsh. rewrite List.Forall_forall in Hsh.
    destruct (Hsh p Hin) as (Hshallow & Hpre & Hstr).
    exists m. split; [done|]. rewrite Hm.
    destruct (update_first_in p (replace_pres 0) soup) as [soup'|] eqn:Hup.
    + apply update_first_in_found in Hup as (x & Hx & Hx');
        [|done|by intros; apply selector_kept].
      rewrite Hm in Hx. injection Hx as <-. rewrite Hx'. cbn [fst snd].
      split_and!; [done|done| |apply replace_pres_none].
      apply replace_pres_clutter. by apply (found_below_in p _ soup).
    + apply update_first_in_none in Hup. by rewrite Hm in Hup.
  - intros Hsel. rewrite Hsel. cbn [mbind option_bind fst snd]. done.
Qed.

(** *** The language of a code block *)

(** X15: the language of a fenced block.  The first class that starts
    with [language-] decides, whatever stands before or after it: the
    language is the rest of that class.  Without such a class the
    language is the last class that is one of the ten bare language
    names, and the empty string when there is none. *)
Theorem detect_lang_first_language_class classes :
  (forall before c after,
      classes = before ++ c :: after ->
      Py.startswith "language-" c = true ->
      Forall (fun x => Py.startswith "language-" x = false) before ->
      forall lang, detect_lang classes lang = Py.drop 9 c)
  /\ (Forall (fun x => Py.startswith "language-" x = false) classes ->
      forall lang,
        detect_lang classes lang
        = List.last (List.filter (fun x => Url.mem x bare_languages) classes)
                    lang).
Proof.
  split.
  - intros before c after -> Hc Hbefore.
    induction Hbefore as [|x before Hx _ IH]; intros lang.
    + cbn [app detect_lang]. by rewrite Hc.
    + cbn [app detect_lang]. rewrite Hx.
      destruct (Url.mem x bare_languages); apply IH.
  - induction 1 as [|x l Hx _ IH]; intros lang; [done|].
    cbn [detect_lang List.filter]. rewrite Hx.
    destruct (Url.mem x bare_languages) eqn:Hbare; [|apply IH].
    rewrite IH.
    destruct (List.filter (fun x0 => Url.mem x0 bare_languages) l)
      as [|y rest]; [done|].
    change (List.last (x :: y :: rest) lang) with (List.last (y :: rest) lang).
    clear. revert y. induction rest as [|z rest IH]; intros y; [done|].
    change (List.last (y :: z :: rest) x) with (List.last (z :: rest) x).
    change (List.last (y :: z :: rest) lang) with (List.last (z :: rest) lang).
    apply IH.
Qed.

End PrintedTree.

(** X14, witness: the page with eleven code blocks has a [main]
    container; its cleaned HTML is the printout of that container with
    the placeholders in it. *)
Lemma cleaned_html_is_pruned_witness :
  let res := @extract_main_content eleven_lib "" "https://x/docs/a" in
  let soup := Dom.remove_all_in is_clutter (@bs_parse eleven_lib "") in
  exists m,
    Dom.find_in (Dom.is_tag "main") soup = Some m
    /\ res.2 = @bs_str eleven_lib (replace_pres 0 m)
    /\ Dom.find_all is_pre (replace_pres 0 m) = [].
Proof.
  intros res soup.
  destruct (proj1 (@cleaned_html_is_pruned eleven_lib "" "https://x/docs/a")
              (Dom.is_tag "main"))
    as (m & Hm & Hres & _ & _ & Hpre).
  - vm_compute. reflexivity.
  - exists m. split_and!; [exact Hm|exact Hres|exact Hpre].
Defined.

(** X15, witness: the classes of a highlighted block. *)
Lemma detect_lang_first_language_class_witness :
  detect_lang ["hljs"; "python"; "language-js"; "bash"] "" = Py.drop 9 "language-js"
  /\ detect_lang ["hljs"; "python"; "bash"] ""
     = List.last (List.filter (fun x => Url.mem x bare_languages)
                    ["hljs"; "python"; "bash"]) "".
Proof.
  split.
  - apply (proj1 (detect_lang_first_language_class
                    ["hljs"; "python"; "language-js"; "bash"])
             ["hljs"; "python"] "language-js" ["bash"]);
      [reflexivity|reflexivity|by repeat constructor].
  - apply (proj2 (detect_lang_first_language_class ["hljs"; "python"; "bash"])).
    by repeat constructor.
Defined.
(** ** URL helpers: more on the normalizer and the scope test *)

Section UrlHelpers.
Context `{Lib}.
Import Py PyFacts StrFacts Url UrlFacts.

(** X16: the URL the normalizer returns is never empty: it begins with
    [http:] or [https:].  So the test [if not nxt] of the link loop
    passes over the links for which the normalizer returns [None],
    and over no other. *)
Theorem normalize_url_is_absolute page href u :
  normalize_url page href = Some (Some u) ->
  Url.nonempty u = true
  /\ exists rest, u = "http:" +:+ rest \/ u = "https:" +:+ rest.
Proof.
  intros (h & joined & bare & fr & parsed & _ & _ & _ & _ & _ & Hweb & ->)
           %normalize_url_inv.
  destruct (http_props _ Hweb) as (Hv & _).
  destruct (urlunparse_named
              {| scheme := scheme parsed; netloc := lower (netloc parsed);
                 path := path parsed; params := params parsed;
                 query := query parsed; fragment := fragment parsed |}
              (valid_nonempty _ Hv)) as [rest Hrest].
  unfold geturl. rewrite Hrest. cbn [scheme].
  revert Hweb. unfold mem at 1. cbn [existsb]. rewrite orb_false_r.
  intros [->%String.eqb_eq | ->%String.eqb_eq]%orb_true_iff.
  - split; [done|]. exists rest. by left.
  - split; [done|]. exists rest. by right.
Qed.

Lemma startswith_refl s : startswith s s = true.
Proof.
  induction s as [|a s IH]; [done|]. cbn. by rewrite Ascii.eqb_refl, IH.
Qed.

Lemma startswith_len p s : startswith p s = true -> len p <= len s.
Proof.
  revert s. induction p as [|a p IH]; intros [|b s]; cbn; try done; [lia|].
  intros [_ Hp]%andb_true_iff. apply IH in Hp. unfold len in *. lia.
Qed.

Lemma startswith_antisym p s :
  startswith p s = true -> startswith s p = true -> p = s.
Proof.
  revert s. induction p as [|a p IH]; intros [|b s]; cbn; try done.
  intros [Hab Hp]%andb_true_iff [_ Hs]%andb_true_iff.
  apply Ascii.eqb_eq in Hab as ->. by rewrite (IH s Hp Hs).
Qed.

(** X17: the scope test is a preorder on the URLs [urlparse] accepts.
    Every such URL is in its own scope; a URL in the scope of a URL
    that is in the scope of a third is in the scope of the third; two
    URLs in the scope of each other have the same scheme, network
    location and path (they differ at most in parameters, query and
    fragment). *)
Theorem same_scope_is_a_preorder :
  (forall u p, urlparse u = Some p -> same_scope u u = Some true)
  /\ (forall a b c,
         same_scope a b = Some true -> same_scope b c = Some true ->
         same_scope a c = Some true)
  /\ (forall a b pa pb,
         same_scope a b = Some true -> same_scope b a = Some true ->
         urlparse a = Some pa -> urlparse b = Some pb ->
         scheme pa = scheme pb /\ netloc pa = netloc pb /\ path pa = path pb).
Proof.
  split_and!.
  - intros u p Hp. unfold same_scope. rewrite Hp. cbn [mbind option_bind].
    by rewrite !String.eqb_refl, startswith_refl.
  - intros a b c (pa & pb & Ha & Hb & Hs1 & Hn1 & Hp1)%same_scope_true
                 (pb' & pc & Hb' & Hc & Hs2 & Hn2 & Hp2)%same_scope_true.
    rewrite Hb in Hb'. injection Hb' as <-.
    unfold same_scope. rewrite Ha, Hc. cbn [mbind option_bind].
    rewrite Hs2, Hs1, Hn2, Hn1.
    by rewrite !String.eqb_refl, (startswith_trans _ _ _ Hp1 Hp2).
  - intros a b pa pb (pa' & pb' & Ha & Hb & Hs1 & Hn1 & Hp1)%same_scope_true
                     (pb'' & pa'' & Hb' & Ha' & _ & _ & Hp2)%same_scope_true
                     Hpa Hpb.
    rewrite Ha in Ha', Hpa. rewrite Hb in Hb', Hpb.
    injection Ha' as <-. injection Hb' as <-.
    injection Hpa as <-. injection Hpb as <-.
    split_and!; try done. by apply startswith_antisym.
Qed.

End UrlHelpers.

(** X16, witness: a link with capitals and a fragment. *)
Lemma normalize_url_is_absolute_witness :
  Url.nonempty "https://x/docs/A" = true
  /\ exists rest,
       "https://x/docs/A" = "http:" +:+ rest \/ "https://x/docs/A" = "https:" +:+ rest.
Proof.
  apply (@normalize_url_is_absolute demo_lib "https://x/docs/"
           (Some "HTTPS://X/docs/A#top")).
  vm_compute. reflexivity.
Defined.

(** X17, witness: a page under the scope root. *)
Lemma same_scope_is_a_preorder_witness :
  @same_scope demo_lib "https://x/docs/" "https://x/docs/" = Some true
  /\ @same_scope demo_lib "https://x/" "https://x/docs/a" = Some true.
Proof.
  destruct (@same_scope_is_a_preorder demo_lib) as (Hrefl & Htrans & _).
  split.
  - apply (Hrefl "https://x/docs/"
             {| Url.scheme := "https"; Url.netloc := "x"; Url.path := "/docs/";
                Url.params := ""; Url.query := ""; Url.fragment := "" |}).
    vm_compute. reflexivity.
  - apply (Htrans "https://x/" "https://x/docs/" "https://x/docs/a");
      vm_compute; reflexivity.
Defined.
(** ** Sitemap discoverer and the list of seeds *)

Module StripFacts.
Import Py PyFacts StrFacts SplitFacts.

Lemma lstrip_fixed p s :
  (forall a t, s = String a t -> p a = false) -> lstrip p s = s.
Proof.
  destruct s as [|a t]; [done|]. intros Hs. cbn.
  by rewrite (Hs a t eq_refl).
Qed.

Lemma lstrip_idem p s : lstrip p (lstrip p s) = lstrip p s.
Proof. apply lstrip_fixed. intros a t. apply lstrip_head. Qed.

Lemma rstrip_idem p s : rstrip p (rstrip p s) = rstrip p s.
Proof. unfold rstrip. by rewrite rev_involutive, lstrip_idem. Qed.

(** stripping twice is stripping once *)
Lemma strip_idem p s : strip p (strip p s) = strip p s.
Proof.
  unfold strip.
  assert (lstrip p (rstrip p (lstrip p s)) = rstrip p (lstrip p s)) as ->.
  { apply lstrip_fixed. intros a t Ha.
    destruct (rstrip_prefix p (lstrip p s)) as (suf & Heq & _).
    rewrite Ha, app_cons in Heq. by apply lstrip_head in Heq. }
  apply rstrip_idem.
Qed.

Lemma lstrip_snoc p s c :
  p c = true ->
  lstrip p (s +:+ String c "")
  = match lstrip p s with "" => "" | x => x +:+ String c "" end.
Proof.
  intros Hc. induction s as [|a s IH].
  - change ("" +:+ String c "") with (String c ""). cbn [lstrip].
    by rewrite Hc.
  - rewrite app_cons. cbn [lstrip]. destruct (p a); [done|].
    by rewrite app_cons.
Qed.

Lemma rstrip_snoc p s c :
  p c = true -> rstrip p (s +:+ String c "") = rstrip p s.
Proof.
  intros Hc. unfold rstrip. rewrite rev_app.
  change (rev (String c "")) with (String c ""). rewrite app_cons.
  change ("" +:+ rev s) with (rev s). cbn [lstrip]. by rewrite Hc.
Qed.

(** a stripped character at the end does not count *)
Lemma strip_snoc p s c :
  p c = true -> strip p (s +:+ String c "") = strip p s.
Proof.
  intros Hc. unfold strip. rewrite (lstrip_snoc _ _ _ Hc).
  destruct (lstrip p s) as [|a t]; [done|]. by apply rstrip_snoc.
Qed.

Lemma has_rev c s : has c (rev s) = has c s.
Proof.
  destruct (has c s) eqn:E.
  - destruct (has c (rev s)) eqn:E'; [done|].
    apply has_all in E'. rewrite all_rev in E'. apply has_all in E'.
    by rewrite E' in E.
  - apply has_all. rewrite all_rev. by apply has_all.
Qed.

Lemma has_strip c p s : has c s = false -> has c (strip p s) = false.
Proof. rewrite !has_all. apply all_strip. Qed.

End StripFacts.

Section Discoverer.
Context `{Lib}.
Import Py PyFacts StrFacts SplitFacts StripFacts.

Variable fromstring : string -> option Xml.elem.
Variable get : nat -> string -> option Response.

Lemma locs_stripped root :
  Forall (fun u => strip isspace u = u) (locs root).
Proof.
  unfold locs. induction (Xml.findall2 "url" "loc" root) as [|e l IH];
    [constructor|].
  cbn. destruct (Xml.text_of e) as [t|]; [|done].
  destruct (Url.nonempty t); [|done].
  constructor; [apply strip_idem|done].
Qed.

Lemma index_urls_spec sms n :
  Forall (fun u => strip isspace u = u) (index_urls fromstring get sms n).1
  /\ n <= (index_urls fromstring get sms n).2.
Proof.
  revert n. induction sms as [|sm sms IH]; intros n; [by split|].
  cbn [index_urls]. cbv zeta.
  destruct (negb (Url.nonempty _)); [apply IH|].
  destruct (IH (S n)) as [Hall Hle].
  destruct (index_urls fromstring get sms (S n)) as [more n']. cbn [fst snd] in *.
  split; [|lia]. apply Forall_app. split; [|done].
  destruct (get n _) as [r|]; [|constructor].
  destruct (status_code r =? 200)%Z; [|constructor].
  destruct (fromstring (text r)); [apply locs_stripped|constructor].
Qed.

Lemma sitemap_at_spec c n :
  Forall (fun u => strip isspace u = u) (sitemap_at fromstring get c n).1
  /\ S n <= (sitemap_at fromstring get c n).2.
Proof.
  unfold sitemap_at.
  destruct (get n c) as [resp|]; [|by split].
  destruct (negb (status_code resp =? 200)%Z || _); [by split|].
  destruct (fromstring (text resp)) as [root|]; [|by split].
  destruct (endswith "sitemapindex" (Xml.tag_of root));
    [apply index_urls_spec|].
  destruct (endswith "urlset" (Xml.tag_of root)); [|by split].
  split; [apply locs_stripped|done].
Qed.

(** X18: the discoverer always asks for both candidate locations,
    whatever the first one answers, and puts what both list one after
    the other; every URL it lists has no white space around it (it may
    be empty). *)
Theorem iter_sitemap_urls_asks_twice seed n l k :
  iter_sitemap_urls fromstring get seed n = Some (l, k) ->
  exists c1 c2 l1 l2 n1,
    Url.urljoin seed "/sitemap.xml" = Some c1
    /\ Url.urljoin seed "sitemap.xml" = Some c2
    /\ sitemap_at fromstring get c1 n = (l1, n1)
    /\ sitemap_at fromstring get c2 n1 = (l2, k)
    /\ l = l1 ++ l2
    /\ n + 2 <= k
    /\ Forall (fun u => strip isspace u = u) l.
Proof.
  unfold iter_sitemap_urls. intros Hiter.
  destruct (Url.urljoin seed "/sitemap.xml") as [c1|]; [|done].
  destruct (Url.urljoin seed "sitemap.xml") as [c2|]; [|done].
  cbn [mbind option_bind] in Hiter.
  pose proof (sitemap_at_spec c1 n) as [Hall1 Hle1].
  destruct (sitemap_at fromstring get c1 n) as [l1 n1] eqn:E1.
  pose proof (sitemap_at_spec c2 n1) as [Hall2 Hle2].
  destruct (sitemap_at fromstring get c2 n1) as [l2 n2] eqn:E2.
  injection Hiter as <- <-. cbn [fst snd] in *.
  exists c1, c2, l1, l2, n1. split_and!; try done; [lia|].
  apply Forall_app. by split.
Qed.

(** for a client whose answers do not change, what a location lists
    does not depend on the number of requests made before *)
Lemma index_urls_stable sms n m :
  (forall i j u, get i u = get j u) ->
  (index_urls fromstring get sms n).1 = (index_urls fromstring get sms m).1.
Proof.
  intros Hstable. revert n m. induction sms as [|sm sms IH]; intros n m; [done|].
  cbn [index_urls]. cbv zeta.
  destruct (negb (Url.nonempty _)); [apply IH|].
  specialize (IH (S n) (S m)).
  destruct (index_urls fromstring get sms (S n)) as [more1 n1].
  destruct (index_urls fromstring get sms (S m)) as [more2 n2].
  cbn [fst snd] in *. by rewrite IH, (Hstable n m).
Qed.

Lemma sitemap_at_stable c n m :
  (forall i j u, get i u = get j u) ->
  (sitemap_at fromstring get c n).1 = (sitemap_at fromstring get c m).1.
Proof.
  intros Hstable. unfold sitemap_at. rewrite (Hstable n m).
  destruct (get m c) as [resp|]; [|done].
  destruct (negb (status_code resp =? 200)%Z || _); [done|].
  destruct (fromstring (text resp)) as [root|]; [|done].
  destruct (endswith "sitemapindex" (Xml.tag_of root));
    [by apply index_urls_stable|].
  by destruct (endswith "urlset" (Xml.tag_of root)).
Qed.

(** X19: when the two candidate locations are the same URL (a seed
    whose path has no folder, as [https://x/docs]) and the site answers
    every request for a URL in the same way, the discoverer lists every
    URL of the sitemap twice. *)
Theorem iter_sitemap_urls_lists_twice seed n c :
  (forall i j u, get i u = get j u) ->
  Url.urljoin seed "/sitemap.xml" = Some c ->
  Url.urljoin seed "sitemap.xml" = Some c ->
  exists k,
    iter_sitemap_urls fromstring get seed n
    = Some ((sitemap_at fromstring get c n).1
            ++ (sitemap_at fromstring get c n).1, k).
Proof.
  intros Hstable H1 H2. unfold iter_sitemap_urls. rewrite H1, H2.
  cbn [mbind option_bind].
  pose proof (sitemap_at_stable c (sitemap_at fromstring get c n).2 n Hstable)
    as Hsame.
  destruct (sitemap_at fromstring get c n) as [l1 n1]. cbn [fst snd] in *.
  destruct (sitemap_at fromstring get c n1) as [l2 n2]. cbn [fst snd] in *.
  exists n2. by rewrite Hsame.
Qed.

End Discoverer.

(** X18, witness: the site with a sitemap at [/sitemap.xml]. *)
Lemma iter_sitemap_urls_asks_twice_witness :
  exists c1 c2 l1 l2 n1,
    @Url.urljoin demo_lib "https://x/docs" "/sitemap.xml" = Some c1
    /\ @Url.urljoin demo_lib "https://x/docs" "sitemap.xml" = Some c2
    /\ sitemap_at demo_fromstring demo_sitemap_get c1 0 = (l1, n1)
    /\ sitemap_at demo_fromstring demo_sitemap_get c2 n1 = (l2, 2)
    /\ ["https://x/docs/a"; "https://x/docs/a"] = l1 ++ l2
    /\ 0 + 2 <= 2
    /\ Forall (fun u => Py.strip Py.isspace u = u)
              ["https://x/docs/a"; "https://x/docs/a"].
Proof.
  apply (@iter_sitemap_urls_asks_twice demo_lib demo_fromstring demo_sitemap_get
           "https://x/docs" 0).
  vm_compute. reflexivity.
Defined.

(** X19, witness: the same site. *)
Lemma iter_sitemap_urls_lists_twice_witness :
  exists k,
    @iter_sitemap_urls demo_lib demo_fromstring demo_sitemap_get "https://x/docs" 0
    = Some ((sitemap_at demo_fromstring demo_sitemap_get "https://x/sitemap.xml" 0).1
            ++ (sitemap_at demo_fromstring demo_sitemap_get
                  "https://x/sitemap.xml" 0).1, k).
Proof.
  apply (@iter_sitemap_urls_lists_twice demo_lib demo_fromstring demo_sitemap_get
           "https://x/docs" 0 "https://x/sitemap.xml").
  - intros i j u. reflexivity.
  - vm_compute. reflexivity.
  - vm_compute. reflexivity.
Defined.

(** what the discoverer lists on that site *)
Example iter_sitemap_urls_sample :
  @iter_sitemap_urls demo_lib demo_fromstring demo_sitemap_get "https://x/docs" 0
  = Some (["https://x/docs/a"; "https://x/docs/a"], 2).
Proof. vm_compute. reflexivity. Qed.

(** *** The seeds read from a file *)

Section Seeds.
Import Py PyFacts StrFacts SplitFacts StripFacts.

Lemma newline_code a : (code a =? 10)%nat = Ascii.eqb a "010".
Proof. destruct a as [[] [] [] [] [] [] [] []]; vm_compute; reflexivity. Qed.

(** a line of a file holds no newline but at its end *)
Lemma file_lines_from_spec s cur :
  has "010" cur = false ->
  Forall (fun line =>
            exists body,
              has "010" body = false
              /\ (line = body \/ line = body +:+ String "010" ""))
         (file_lines_from s cur).
Proof.
  revert cur. induction s as [|a s IH]; intros cur Hcur; cbn [file_lines_from].
  - destruct (Url.nonempty cur); [|constructor].
    constructor; [|constructor]. exists (rev cur). rewrite has_rev. auto.
  - rewrite newline_code. destruct (Ascii.eqb_spec a "010") as [->|Hne].
    + constructor; [|by apply IH].
      exists (rev cur). rewrite has_rev, rev_cons. auto.
    + apply IH. cbn. rewrite Hcur, orb_false_r. by apply Ascii.eqb_neq.
Qed.

(** the lines of a file are the pieces between its newlines *)
Lemma file_lines_from_pieces s cur :
  has "010" cur = false ->
  exists p ps,
    rev cur +:+ s = join (String "010" "") (p :: ps)
    /\ Forall (fun x => has "010" x = false) (p :: ps)
    /\ omap (fun line =>
               let t := strip isspace line in
               if Url.nonempty t then Some t else None)
            (file_lines_from s cur)
       = List.filter Url.nonempty (List.map (strip isspace) (p :: ps)).
Proof.
  revert cur. induction s as [|a s IH]; intros cur Hcur; cbn [file_lines_from].
  - exists (rev cur), []. rewrite app_nil_r. split; [done|]. split.
    { constructor; [by rewrite has_rev|constructor]. }
    cbn [List.map List.filter].
    destruct (Url.nonempty cur) eqn:Hne.
    + cbn [omap list_omap]. cbv zeta.
      by destruct (Url.nonempty (strip isspace (rev cur))).
    + destruct cur; [done|discriminate].
  - rewrite newline_code. destruct (Ascii.eqb_spec a "010") as [->|Hne].
    + destruct (IH "" eq_refl) as (p & ps & Hs & Hall & Hseeds).
      change (rev "" +:+ s) with s in Hs.
      exists (rev cur), (p :: ps). split_and!.
      * change (join (String "010" "") (rev cur :: p :: ps))
          with (rev cur +:+ String "010" "" +:+ join (String "010" "") (p :: ps)).
        by rewrite <- Hs.
      * constructor; [by rewrite has_rev|done].
      * cbn [omap list_omap]. cbv zeta. rewrite rev_cons.
        rewrite (strip_snoc isspace (rev cur) "010" eq_refl).
        change (List.filter Url.nonempty
                  (List.map (strip isspace) (rev cur :: p :: ps)))
          with (if Url.nonempty (strip isspace (rev cur))
                then strip isspace (rev cur)
                     :: List.filter Url.nonempty
                          (List.map (strip isspace) (p :: ps))
                else List.filter Url.nonempty
                       (List.map (strip isspace) (p :: ps))).
        destruct (Url.nonempty (strip isspace (rev cur)));
          [f_equal|]; exact Hseeds.
    + destruct (IH (String a cur)) as (p & ps & Hs & Hall & Hseeds).
      { cbn. rewrite Hcur, orb_false_r. by apply Ascii.eqb_neq. }
      exists p, ps. split_and!; [|done|done].
      rewrite <- Hs, rev_cons, app_assoc. done.
Qed.

(** X20: the seeds [main] reads from a file of URLs are the lines of
    the file without the white space around them, in the order of the
    file, blank lines left out.  The text of the file, as a read in
    text mode gives it, falls at its newlines into pieces; the seeds
    are the pieces stripped of white space, but for the pieces that
    are empty then.  So no seed is empty, none begins or ends with
    white space, and none holds a newline. *)
Theorem urls_of_file_are_trimmed stored :
  exists pieces,
    read_text stored = join (String "010" "") pieces
    /\ Forall (fun piece => has "010" piece = false) pieces
    /\ urls_of_file stored
       = List.filter Url.nonempty (List.map (strip isspace) pieces)
    /\ Forall (fun seed =>
                 seed <> "" /\ strip isspace seed = seed
                 /\ has "010" seed = false)
              (urls_of_file stored).
Proof.
  destruct (file_lines_from_pieces (read_text stored) "" eq_refl)
    as (p & ps & Htext & Hpieces & Hseeds).
  exists (p :: ps). split_and!; [done|done|exact Hseeds|].
  clear p ps Htext Hpieces Hseeds. unfold urls_of_file, file_lines.
  pose proof (file_lines_from_spec (read_text stored) "" eq_refl) as Hlines.
  induction Hlines as [|line lines (body & Hbody & Hline) _ IH]; [constructor|].
  cbn [omap list_omap]. cbv zeta.
  destruct (Url.nonempty (strip isspace line)) eqn:Hne; [|exact IH].
  constructor; [|exact IH]. split_and!.
  - intros E. by rewrite E in Hne.
  - apply strip_idem.
  - destruct Hline as [-> | ->]; [by apply has_strip|].
    rewrite strip_snoc; [by apply has_strip|done].
Qed.

End Seeds.

(** the seeds of a file with blank lines, white space and both kinds of
    line ends *)
Example urls_of_file_sample :
  urls_of_file ("  https://x/docs " +:+ String "013" (String "010" "")
                +:+ String "010" ""
                +:+ String "009" "https://y/" +:+ String "013" ""
                +:+ "   " +:+ String "010" "" +:+ "https://z/a b")
  = ["https://x/docs"; "https://y/"; "https://z/a b"].
Proof. vm_compute. reflexivity. Qed.
(** ** Frontier crawler: order and termination *)

Section BreadthFirst.
Context `{Lib}.
Variable w : World.
Variable cfg : Config.
Variable out_dir : Path.t.

Lemma sorted_app (l1 l2 : list Z) :
  StronglySorted Z.le l1 -> StronglySorted Z.le l2 ->
  (forall x y, In x l1 -> In y l2 -> (x <= y)%Z) ->
  StronglySorted Z.le (l1 ++ l2).
Proof.
  intros H1 H2 Hle. induction H1 as [|x l1 Hs IH Hx]; [done|].
  cbn. constructor.
  - apply IH. intros a b Ha Hb. apply Hle; [by right|done].
  - apply List.Forall_app. split; [done|].
    apply List.Forall_forall. intros y Hy. apply Hle; [by left|done].
Qed.

Lemma sorted_const (d : Z) (l : list Z) :
  Forall (fun x => x = d) l -> StronglySorted Z.le l.
Proof.
  induction 1 as [|x l -> Hl IH]; constructor; [done|].
  eapply List.Forall_impl; [|exact Hl]. intros a ->. lia.
Qed.

(** X21: the frontier is worked through breadth-first.  Entries are
    put on the frontier in order of depth: in the log of a session the
    depth of an entry is never smaller than the depth of an entry made
    before it, and the queue the session ends with is in order of
    depth as well.  As the queue is first-in first-out, no page is
    visited before a page nearer to the scope root that was on the
    frontier with it. *)
Theorem frontier_is_breadth_first fuel seed r :
  let s := (crawl_with_frontier w cfg out_dir fuel seed r).2 in
  exists evs,
    log (run s) = log r ++ evs
    /\ StronglySorted Z.le (List.map snd (enqueued evs))
    /\ StronglySorted Z.le (List.map snd (queue s)).
Proof.
  intros s.
  assert (exists evs,
             log (run s) = log r ++ evs
             /\ StronglySorted Z.le (List.map snd (enqueued evs))
             /\ StronglySorted Z.le (List.map snd (queue s))
             /\ (forall x y, In x (List.map snd (enqueued evs)) ->
                             In y (List.map snd (queue s)) -> (x <= y + 1)%Z)
             /\ (forall y, In y (List.map snd (queue s)) ->
                           (0 <= y)%Z
                           /\ (y = 0%Z \/ In y (List.map snd (enqueued evs)))))
    as (evs & Hlog & Hsorted & Hqueue & _); [|by exists evs].
  subst s.
  apply (crawl_invariant w cfg out_dir
    (fun _ s => exists evs,
         log (run s) = log r ++ evs
         /\ StronglySorted Z.le (List.map snd (enqueued evs))
         /\ StronglySorted Z.le (List.map snd (queue s))
         /\ (forall x y, In x (List.map snd (enqueued evs)) ->
                         In y (List.map snd (queue s)) -> (x <= y + 1)%Z)
         /\ (forall y, In y (List.map snd (queue s)) ->
                       (0 <= y)%Z
                       /\ (y = 0%Z \/ In y (List.map snd (enqueued evs)))))).
  - intros base rp delay s s' Hturn (evs & Hlog & Hsl & Hsq & Hnear & Hfrom).
    apply turn_chunk in Hturn
      as (url & depth & q & Hqs & _ & Hcases).
    rewrite Hqs in Hsq, Hnear, Hfrom. cbn [List.map snd] in Hsq, Hnear, Hfrom.
    apply StronglySorted_inv in Hsq as [Hsq Hhead].
    rewrite List.Forall_forall in Hhead.
    assert (forall chunk,
               log (run s') = log (run s) ++ chunk ->
               enqueued chunk = [] -> queue s' = q ->
               exists evs0,
                 log (run s') = log r ++ evs0
                 /\ StronglySorted Z.le (List.map snd (enqueued evs0))
                 /\ StronglySorted Z.le (List.map snd (queue s'))
                 /\ (forall x y, In x (List.map snd (enqueued evs0)) ->
                                 In y (List.map snd (queue s')) ->
                                 (x <= y + 1)%Z)
                 /\ (forall y, In y (List.map snd (queue s')) ->
                               (0 <= y)%Z
                               /\ (y = 0%Z
                                   \/ In y (List.map snd (enqueued evs0)))))
      as Hsame.
    { intros chunk Hl Hnone ->. exists (evs ++ chunk).
      rewrite Hl, Hlog, <- app_assoc. unfold enqueued in *.
      rewrite omap_app, Hnone, app_nil_r.
      split_and!; try done.
      - intros x y Hx Hy. apply Hnear; [done|by right].
      - intros y Hy. apply Hfrom. by right. }
    destruct Hcases as [(Hl & Hq' & _) | [(Hl & Hq' & _) | Hfull]].
    + apply (Hsame []); [by rewrite app_nil_r|done|done].
    + by apply (Hsame [EvGet url]).
    + destruct Hfull as (h & p & new & tail & Hl & Htail & -> & _ & Hnew & _).
      destruct (Hfrom depth (or_introl eq_refl)) as [Hd0 _].
      assert (Forall (fun x => x = (depth + 1)%Z) (List.map snd new)) as Hnew'.
      { clear -Hnew. induction Hnew; constructor; done. }
      assert (forall x, In x (List.map snd new) -> x = (depth + 1)%Z) as Hnew''
        by (by apply List.Forall_forall).
      eexists. rewrite Hl, Hlog, <- app_assoc. split; [done|].
      assert (enqueued (evs ++ [EvGet url; EvSaved (pages s + 1) url h p]
                         ++ List.map enq new ++ tail)
              = enqueued evs ++ new) as ->.
      { unfold enqueued. rewrite !omap_app. cbn [omap list_omap].
        fold (enqueued (List.map enq new)). rewrite enqueued_enq.
        assert (omap (fun e => match e with
                               | EvEnqueue u d => Some (u, d) | _ => None
                               end) tail = []) as ->
          by (destruct Htail as [-> | ->]; done).
        by rewrite app_nil_r. }
      rewrite !List.map_app.
      split_and!.
      * apply sorted_app; [done|by apply (sorted_const (depth + 1))|].
        intros x y Hx Hy. rewrite (Hnew'' y Hy).
        specialize (Hnear x depth Hx (or_introl eq_refl)). lia.
      * apply sorted_app; [done|by apply (sorted_const (depth + 1))|].
        intros x y Hx Hy. rewrite (Hnew'' y Hy).
        destruct (Hfrom x (or_intror Hx)) as [_ [-> | Hin]]; [lia|].
        specialize (Hnear x depth Hin (or_introl eq_refl)). lia.
      * intros x y [Hx | Hx]%in_app_iff [Hy | Hy]%in_app_iff.
        -- apply Hnear; [done|by right].
        -- rewrite (Hnew'' y Hy).
           specialize (Hnear x depth Hx (or_introl eq_refl)). lia.
        -- rewrite (Hnew'' x Hx). specialize (Hhead y Hy). lia.
        -- rewrite (Hnew'' x Hx), (Hnew'' y Hy). lia.
      * intros y [Hy | Hy]%in_app_iff.
        -- destruct (Hfrom y (or_intror Hy)) as [? [? | ?]];
             (split; [done|]); [by left|right].
           apply in_app_iff. by left.
        -- rewrite (Hnew'' y Hy). split; [lia|right].
           apply in_app_iff. right. by rewrite <- (Hnew'' y Hy).
  - intros base. exists []. rewrite app_nil_r. cbn.
    split_and!;
      [done|constructor|by repeat constructor|intros x y []|].
    intros y [<- | []]. split; [lia|by left].
  - intros base. exists []. rewrite app_nil_r. cbn.
    split_and!; [done|constructor|constructor|intros x y []|intros y []].
Qed.

End BreadthFirst.

Section Termination.
Context `{Lib}.
Variable w : World.
Variable cfg : Config.
Variable out_dir : Path.t.

(** a number of turns after which the loop has ended, whatever more
    it is given *)
Lemma crawl_loop_step base rp delay s :
  (forall url depth q s',
      queue s = (url, depth) :: q ->
      (pages s < max_pages cfg)%Z ->
      visit w cfg out_dir base rp delay url depth (with_queue q s)
        = (Running, s') ->
      exists fuel, forall k,
        crawl_loop w cfg out_dir (fuel + k) base rp delay s'
          = crawl_loop w cfg out_dir fuel base rp delay s'
        /\ (crawl_loop w cfg out_dir fuel base rp delay s').1 <> Running) ->
  exists fuel, forall k,
    crawl_loop w cfg out_dir (fuel + k) base rp delay s
      = crawl_loop w cfg out_dir fuel base rp delay s
    /\ (crawl_loop w cfg out_dir fuel base rp delay s).1 <> Running.
Proof.
  intros Hnext.
  destruct (queue s) as [|[url depth] q] eqn:Hq.
  { exists 0. intros k. destruct k; cbn; by rewrite Hq. }
  destruct (pages s <? max_pages cfg)%Z eqn:Hp.
  2:{ exists 0. intros k. destruct k; cbn; by rewrite Hq, Hp. }
  destruct (visit w cfg out_dir base rp delay url depth (with_queue q s))
    as [st s'] eqn:Hv.
  destruct st.
  - destruct (Hnext url depth q s' eq_refl ltac:(lia) Hv) as [fuel Hfuel].
    exists (S fuel). intros k. cbn. rewrite Hq, Hp, Hv. cbn. apply Hfuel.
  - exists 1. intros k. cbn. by rewrite Hq, Hp, Hv.
  - exists 1. intros k. cbn. by rewrite Hq, Hp, Hv.
Qed.

Lemma crawl_loop_ends base rp delay (a b : nat) s :
  Z.to_nat (max_pages cfg - pages s) <= a ->
  length (queue s) <= b ->
  exists fuel, forall k,
    crawl_loop w cfg out_dir (fuel + k) base rp delay s
      = crawl_loop w cfg out_dir fuel base rp delay s
    /\ (crawl_loop w cfg out_dir fuel base rp delay s).1 <> Running.
Proof.
  revert b s. induction a as [|a IHa]; intros b; induction b as [|b IHb];
    intros s Ha Hb; apply crawl_loop_step;
    intros url depth q s' Hq Hp Hv; rewrite Hq in Hb; cbn in Hb; try lia.
  apply visit_shape in Hv
    as [(_ & -> & _) | (_ & _ & _ & [Hno | [Hreq | Hfull]])].
  - apply IHb; cbn; [done|lia].
  - destruct Hno as (_ & Hq' & _ & Hp').
    apply IHb; [by rewrite Hp'|rewrite Hq'; cbn; lia].
  - destruct Hreq as (_ & Hq' & _ & Hp').
    apply IHb; [by rewrite Hp'|rewrite Hq'; cbn; lia].
  - destruct Hfull as (? & ? & ? & ? & ? & _ & _ & _ & _ & _ & _ & Hp' & _).
    cbn in Hp'. apply (IHa (length (queue s'))); [lia|done].
Qed.

(** X22: a session of the frontier crawler ends.  For every seed there
    is a number of turns of the loop after which the session has ended,
    with its result or with an exception, and which further turns do
    not change: every turn either takes an entry from the queue and
    adds none, or saves a page, and no more than [max_pages] pages are
    saved. *)
Theorem frontier_crawl_terminates seed r :
  exists fuel, forall k,
    crawl_with_frontier w cfg out_dir (fuel + k) seed r
      = crawl_with_frontier w cfg out_dir fuel seed r
    /\ (crawl_with_frontier w cfg out_dir fuel seed r).1 <> Running.
Proof.
  unfold crawl_with_frontier.
  destruct (Url.urlparse seed) as [p|]; cbn [mbind option_bind];
    [|by exists 0].
  destruct (load_robots w (base_of p)) as [rp|]; cbn [mbind option_bind];
    [|by exists 0].
  destruct (delay_of (rps cfg)) as [delay|]; cbn [mbind option_bind];
    [|by exists 0].
  eapply crawl_loop_ends; reflexivity.
Qed.

End Termination.
